(** * Rule-resolution core of the dnd5e system: dice configuration,
      text enrichers, advancement updates and the proficiency cycle control.

    The development is a shallow embedding of the JavaScript sources.
    JavaScript objects used as dictionaries are finite maps, together with
    the members they inherit from [Object.prototype] where the code tests
    a key with [in] or reads it by index; dynamically typed values are a
    small tagged union; calls that can throw return a completion; and the
    host application (keybindings, settings, dialogs, formula evaluation,
    localisation, the DOM) is passed around explicitly as records of
    functions. *)

From Stdlib Require Import QArith Qround.
From stdpp Require Import base option list strings pretty gmap.

Local Open Scope string_scope.

(* ===================================================================== *)
(** * JavaScript values *)
(* ===================================================================== *)

Module Js.

(** Numbers: rationals stand for the finite doubles, [NaN] is kept apart
    because it is falsy and arises from arithmetic on [undefined]. *)
Inductive JsNumber : Type :=
| NaN
| Finite (q : Q).

Inductive JsValue : Type :=
| JUndefined
| JNull
| JBool (b : bool)
| JNum (n : JsNumber)
| JStr (s : string).

(** ToBoolean. *)
Definition truthy (v : JsValue) : bool :=
  match v with
  | JUndefined | JNull => false
  | JBool b => b
  | JNum NaN => false
  | JNum (Finite q) => negb (Qeq_bool q 0)
  | JStr s => negb (String.eqb s "")
  end.

(** [a || b] *)
Definition or_else (a b : JsValue) : JsValue := if truthy a then a else b.

(** [a ?? b] *)
Definition nullish (v : JsValue) : bool :=
  match v with JUndefined | JNull => true | _ => false end.

Definition coalesce (a b : JsValue) : JsValue := if nullish a then b else a.

(** A default parameter value [x = d] replaces [undefined] only. *)
Definition param_default (a d : JsValue) : JsValue :=
  match a with JUndefined => d | _ => a end.

(** Property read on a dictionary-like object: a missing key reads as
    [undefined]. *)
Definition prop (o : gmap string JsValue) (k : string) : JsValue :=
  default JUndefined (o !! k).

(** Numeric operators on already-converted operands. *)
Definition num_add (a b : JsNumber) : JsNumber :=
  match a, b with Finite x, Finite y => Finite (x + y) | _, _ => NaN end.

Definition num_div (a b : JsNumber) : JsNumber :=
  match a, b with
  | Finite x, Finite y => if Qeq_bool y 0 then NaN else Finite (x / y)
  | _, _ => NaN
  end.

Definition num_floor (a : JsNumber) : JsNumber :=
  match a with Finite x => Finite (inject_Z (Qfloor x)) | NaN => NaN end.

(** Strict equality on numbers ([===], used by [Array.prototype.indexOf]):
    [NaN] is different from everything, itself included. *)
Definition num_strict_eq (a b : JsNumber) : bool :=
  match a, b with Finite x, Finite y => Qeq_bool x y | _, _ => false end.

(** SameValueZero on numbers (used by [Array.prototype.includes]). *)
Definition num_same_value_zero (a b : JsNumber) : bool :=
  match a, b with
  | Finite x, Finite y => Qeq_bool x y
  | NaN, NaN => true
  | _, _ => false
  end.

(** ToNumber on the values that reach [+] in the modelled code: a number is
    itself, [undefined] is [NaN]. Strings are converted by the host's
    parser, see [Enrichers.Host]. *)
Definition to_number_prim (v : JsValue) : JsNumber :=
  match v with
  | JNum n => n
  | JBool true => Finite 1
  | JBool false | JNull => Finite 0
  | JUndefined => NaN
  | JStr _ => NaN
  end.

(** Outcome of a call: a normal return or a thrown error. The error kinds
    are the ones the specification's taxonomy names, plus the host's
    [TypeError], the [DOMException] the DOM throws (a [SyntaxError] or an
    [InvalidCharacterError]) and the plain [Error] the sources throw. *)
Inductive ErrorKind : Type :=
| InvalidConfiguration
| NotFound
| PartialApplyFailure
| TypeError
| DOMException
| Error (msg : string).

Inductive Completion (A : Type) : Type :=
| Return (a : A)
| Throw (e : ErrorKind).

Arguments Return {A} a.
Arguments Throw {A} e.

#[export] Instance Completion_fmap : FMap Completion :=
  fun A B f c => match c with Return a => Return (f a) | Throw e => Throw e end.

#[export] Instance Completion_ret : MRet Completion := fun A a => Return a.

#[export] Instance Completion_bind : MBind Completion :=
  fun A B f c => match c with Return a => f a | Throw e => Throw e end.

(** The property names every plain object inherits from
    [Object.prototype]. *)
Definition objectPrototypeKeys : list string :=
  [ "constructor"; "__defineGetter__"; "__defineSetter__"; "hasOwnProperty";
    "__lookupGetter__"; "__lookupSetter__"; "isPrototypeOf"; "propertyIsEnumerable";
    "toString"; "valueOf"; "__proto__"; "toLocaleString" ].

(** What [table[key]] finds on a plain object used as a lookup table: an
    entry of the table itself, or the member of [Object.prototype] of that
    name (a function, or for [__proto__] the prototype object). *)
Inductive Member (V : Type) : Type :=
| Own (v : V)
| Inherited (name : string).

Arguments Own {V} v.
Arguments Inherited {V} name.

Definition member {V} (table : gmap string V) (key : string) : option (Member V) :=
  match table !! key with
  | Some v => Some (Own v)
  | None => if bool_decide (key ∈ objectPrototypeKeys) then Some (Inherited key) else None
  end.

(** [key in table] on the entries of the table itself. *)
Definition has_own {V} (table : gmap string V) (key : string) : bool :=
  bool_decide (is_Some (table !! key)).

(** [key in table]: the operator also sees the inherited members. *)
Definition has_key {V} (table : gmap string V) (key : string) : bool :=
  has_own table key || bool_decide (key ∈ objectPrototypeKeys).

(** Computations that append to a log of interactions with the outside
    world (warnings, dialogs, evaluations, chat messages). *)
Definition Trace (E A : Type) : Type := list E -> A * list E.

#[export] Instance Trace_ret {E} : MRet (Trace E) := fun A a t => (a, t).

#[export] Instance Trace_bind {E} : MBind (Trace E) :=
  fun A B f m t => let '(a, t') := m t in f a t'.

Definition emit {E} (e : E) : Trace E unit := fun t => (tt, (t ++ [e])%list).

(** The interactions a computation adds when started on the empty log. *)
Definition run {E A} (m : Trace E A) : A * list E := m [].

(** Computations that log and may throw: a thrown error ends the
    computation and keeps what has been logged so far. *)
Definition Fallible (E A : Type) : Type := list E -> Completion A * list E.

#[export] Instance Fallible_ret {E} : MRet (Fallible E) := fun A a t => (Return a, t).

#[export] Instance Fallible_bind {E} : MBind (Fallible E) :=
  fun A B f m t =>
    match m t with
    | (Return a, t') => f a t'
    | (Throw e, t') => (Throw e, t')
    end.

Definition log {E} (e : E) : Fallible E unit := fun t => (Return tt, (t ++ [e])%list).

(** A call that returns or throws without logging. *)
Definition complete {E A} (c : Completion A) : Fallible E A := fun t => (c, t).

(** Running a computation that only logs. *)
Definition logging {E A} (m : Trace E A) : Fallible E A :=
  fun t => let '(a, t') := m t in (Return a, t').

End Js.

Export Js.

(* ===================================================================== *)
(** * Dice: d20 and damage roll configuration *)
(* ===================================================================== *)

Module Dice.

(** The fields of a DOM event that the keybinding helper reads. *)
Record Event : Type := {
  ctrlKey : bool;
  metaKey : bool;
  shiftKey : bool;
  altKey : bool
}.

Record Binding : Type := {
  key : string;
  modifiers : list string
}.

(** [KeyboardManager.MODIFIER_KEYS] *)
Record ModifierKeys : Type := {
  CONTROL : string;
  SHIFT : string;
  ALT : string
}.

(** The ambient [game] object and [KeyboardManager], as far as the dice
    helpers consult them. *)
Record Game : Type := {
  MODIFIER_KEYS : ModifierKeys;
  keybindings_get : string -> string -> list Binding;
  downKeys : gset string;
  settings_get : string -> string -> JsValue
}.

(** [CONFIG.Dice.D20Roll.ADV_MODE] *)
Inductive ADV_MODE : Type := NORMAL | ADVANTAGE | DISADVANTAGE.

Definition activeModifiers (game : Game) (event : Event) : gmap string bool :=
  <[ALT (MODIFIER_KEYS game) := altKey event]>
    (<[SHIFT (MODIFIER_KEYS game) := shiftKey event]>
       (<[CONTROL (MODIFIER_KEYS game) := ctrlKey event || metaKey event]> ∅)).

Definition _areKeysPressed (game : Game) (event : Event) (action : string) : bool :=
  let active := activeModifiers game event in
  let binding := keybindings_get game "dnd5e" action in
  existsb
    (fun b =>
       if bool_decide (key b ∈ downKeys game)
       then forallb (fun m => default false (active !! m)) (modifiers b)
       else false)
    binding.

Record AdvantageKeys : Type := {
  k_normal : bool;
  k_advantage : bool;
  k_disadvantage : bool
}.

Definition advantageKeys (game : Game) (event : option Event) : AdvantageKeys :=
  {| k_normal :=
       match event with
       | Some e => _areKeysPressed game e "d20RollFastForwardNormal"
       | None => false
       end;
     k_advantage :=
       match event with
       | Some e => _areKeysPressed game e "d20RollFastForwardAdvantage"
       | None => false
       end;
     k_disadvantage :=
       match event with
       | Some e => _areKeysPressed game e "d20RollFastForwardDisadvantage"
       | None => false
       end |}.

Record AdvantageResult : Type := {
  isFF : bool;
  advantageMode : ADV_MODE
}.

Definition _determineAdvantageMode (game : Game) (event : option Event)
    (advantage disadvantage fastForward : JsValue) : AdvantageResult :=
  let advantage := param_default advantage (JBool false) in
  let disadvantage := param_default disadvantage (JBool false) in
  let keys := advantageKeys game event in
  let isFF :=
    coalesce fastForward
      (JBool (existsb (fun k => k) [k_normal keys; k_advantage keys; k_disadvantage keys])) in
  let advantageMode :=
    if truthy advantage || k_advantage keys then ADVANTAGE
    else if truthy disadvantage || k_disadvantage keys then DISADVANTAGE
    else NORMAL in
  {| isFF := truthy isFF; advantageMode := advantageMode |}.

(** The call of [_determineAdvantageMode] seen as a completion: the body
    has no [throw], so it always returns. *)
Definition call_determineAdvantageMode (game : Game) (event : option Event)
    (advantage disadvantage fastForward : JsValue) : Completion AdvantageResult :=
  Return (_determineAdvantageMode game event advantage disadvantage fastForward).

Record CriticalKeys : Type := {
  c_normal : bool;
  c_critical : bool
}.

Definition criticalKeys (game : Game) (event : option Event) : CriticalKeys :=
  {| c_normal :=
       match event with
       | Some e => _areKeysPressed game e "damageRollFastForwardNormal"
       | None => false
       end;
     c_critical :=
       match event with
       | Some e => _areKeysPressed game e "damageRollFastForwardCritical"
       | None => false
       end |}.

Record CriticalResult : Type := {
  c_isFF : bool;
  isCritical : JsValue
}.

Definition _determineCriticalMode (game : Game) (event : option Event)
    (critical fastForward : JsValue) : CriticalResult :=
  let critical := param_default critical (JBool false) in
  let keys := criticalKeys game event in
  let isFF :=
    coalesce fastForward (JBool (existsb (fun k => k) [c_normal keys; c_critical keys])) in
  let critical := if c_critical keys then JBool true else critical in
  {| c_isFF := truthy isFF; isCritical := critical |}.

(** ** Effects of the roll workflows

    The asynchronous workflows talk to three collaborators: the roll
    configuration dialog, the formula evaluator and the chat log. Each
    interaction is recorded in a trace, so that "no evaluation happened"
    and "no chat message was created" are statements about the trace. *)

Inductive Effect : Type :=
| DialogShown
| RollEvaluated
| MessageCreated (messageData : gmap string JsValue).

Definition M : Type -> Type := Trace Effect.

(** *** d20 rolls *)

Record D20RollConfiguration : Type := {
  d20_parts : list string;
  d20_data : gmap string JsValue;
  d20_event : option Event;
  d20_advantage : JsValue;
  d20_disadvantage : JsValue;
  d20_critical : JsValue;
  d20_fumble : JsValue;
  d20_targetValue : JsValue;
  d20_elvenAccuracy : JsValue;
  d20_halflingLucky : JsValue;
  d20_reliableTalent : JsValue;
  d20_fastForward : JsValue;
  d20_chooseModifier : JsValue;
  d20_template : JsValue;
  d20_title : JsValue;
  d20_dialogOptions : JsValue;
  d20_chatMessage : JsValue;
  d20_messageData : gmap string JsValue;
  d20_rollMode : JsValue;
  d20_flavor : JsValue
}.

Record D20Options : Type := {
  o_flavor : JsValue;
  o_advantageMode : ADV_MODE;
  o_defaultRollMode : JsValue;
  o_rollMode : JsValue;
  o_critical : JsValue;
  o_fumble : JsValue;
  o_targetValue : JsValue;
  o_elvenAccuracy : JsValue;
  o_halflingLucky : JsValue;
  o_reliableTalent : JsValue
}.

(** A [D20Roll] instance; [r_total] stays [undefined] until the roll has
    been evaluated. *)
Record D20Roll : Type := {
  r_formula : string;
  r_data : gmap string JsValue;
  r_options : D20Options;
  r_total : JsValue
}.

Record D20DialogConfig : Type := {
  dc_title : JsValue;
  dc_chooseModifier : JsValue;
  dc_defaultRollMode : JsValue;
  dc_defaultAction : ADV_MODE;
  dc_defaultAbility : JsValue;
  dc_template : JsValue
}.

(** The collaborators of [d20Roll]. The dialog resolves to [null]
    ([None]) when it is dismissed and otherwise to the roll it has
    configured in place. *)
Record D20Host : Type := {
  d20_configureDialog : D20DialogConfig -> JsValue -> D20Roll -> option D20Roll;
  d20_evaluate : D20Roll -> D20Roll
}.

Definition d20_setRollMode (roll : D20Roll) (rollMode : JsValue) : D20Roll :=
  {| r_formula := r_formula roll;
     r_data := r_data roll;
     r_options :=
       {| o_flavor := o_flavor (r_options roll);
          o_advantageMode := o_advantageMode (r_options roll);
          o_defaultRollMode := o_defaultRollMode (r_options roll);
          o_rollMode := rollMode;
          o_critical := o_critical (r_options roll);
          o_fumble := o_fumble (r_options roll);
          o_targetValue := o_targetValue (r_options roll);
          o_elvenAccuracy := o_elvenAccuracy (r_options roll);
          o_halflingLucky := o_halflingLucky (r_options roll);
          o_reliableTalent := o_reliableTalent (r_options roll) |};
     r_total := r_total roll |}.

(** "Handle input arguments": the advantage mode and fast-forward flag. *)
Definition d20_mode (game : Game) (cfg : D20RollConfiguration) : AdvantageResult :=
  _determineAdvantageMode game (d20_event cfg) (d20_advantage cfg)
    (d20_disadvantage cfg) (d20_fastForward cfg).

Definition d20_defaultRollMode (game : Game) (cfg : D20RollConfiguration) : JsValue :=
  or_else (d20_rollMode cfg) (settings_get game "core" "rollMode").

Definition d20_rollData (game : Game) (cfg : D20RollConfiguration) : gmap string JsValue :=
  let data := d20_data cfg in
  if truthy (param_default (d20_chooseModifier cfg) (JBool false)) && negb (isFF (d20_mode game cfg))
  then
    let data' := <["mod" := JStr "@mod"]> data in
    if bool_decide (is_Some (data !! "abilityCheckBonus"))
    then <["abilityCheckBonus" := JStr "@abilityCheckBonus"]> data'
    else data'
  else data.

(** "Construct the D20Roll instance". *)
Definition d20_construct (game : Game) (cfg : D20RollConfiguration) : D20Roll :=
  {| r_formula := String.concat " + " ("1d20" :: d20_parts cfg);
     r_data := d20_rollData game cfg;
     r_options :=
       {| o_flavor := or_else (d20_flavor cfg) (d20_title cfg);
          o_advantageMode := advantageMode (d20_mode game cfg);
          o_defaultRollMode := d20_defaultRollMode game cfg;
          o_rollMode := d20_rollMode cfg;
          o_critical := param_default (d20_critical cfg) (JNum (Finite 20));
          o_fumble := param_default (d20_fumble cfg) (JNum (Finite 1));
          o_targetValue := d20_targetValue cfg;
          o_elvenAccuracy := d20_elvenAccuracy cfg;
          o_halflingLucky := d20_halflingLucky cfg;
          o_reliableTalent := d20_reliableTalent cfg |};
     r_total := JUndefined |}.

Definition d20_dialogConfig (game : Game) (cfg : D20RollConfiguration) : D20DialogConfig :=
  {| dc_title := d20_title cfg;
     dc_chooseModifier := param_default (d20_chooseModifier cfg) (JBool false);
     dc_defaultRollMode := d20_defaultRollMode game cfg;
     dc_defaultAction := advantageMode (d20_mode game cfg);
     dc_defaultAbility :=
       or_else (prop (d20_rollData game cfg) "item.ability")
               (prop (d20_rollData game cfg) "defaultAbility");
     dc_template := d20_template cfg |}.

(** "Evaluate the configured roll" and "Create a Chat Message". *)
Definition d20_finish (host : D20Host) (cfg : D20RollConfiguration) (roll : D20Roll)
    : M (option D20Roll) :=
  emit RollEvaluated ;;
  let roll := d20_evaluate host roll in
  (if truthy (param_default (d20_chatMessage cfg) (JBool true))
   then emit (MessageCreated (d20_messageData cfg))
   else mret tt) ;;
  mret (Some roll).

Definition d20Roll (game : Game) (host : D20Host) (cfg : D20RollConfiguration)
    : M (option D20Roll) :=
  let roll := d20_construct game cfg in
  if negb (isFF (d20_mode game cfg))
  then
    emit DialogShown ;;
    match d20_configureDialog host (d20_dialogConfig game cfg) (d20_dialogOptions cfg) roll with
    | None => mret None
    | Some configured => d20_finish host cfg configured
    end
  else
    d20_finish host cfg
      (d20_setRollMode roll
         (coalesce (o_rollMode (r_options roll)) (d20_defaultRollMode game cfg))).

(** *** Damage rolls *)

Record DamageRollConfiguration : Type := {
  dmg_parts : list string;
  dmg_data : gmap string JsValue;
  dmg_event : option Event;
  dmg_allowCritical : JsValue;
  dmg_critical : JsValue;
  dmg_criticalBonusDice : JsValue;
  dmg_criticalMultiplier : JsValue;
  dmg_multiplyNumeric : JsValue;
  dmg_powerfulCritical : JsValue;
  dmg_criticalBonusDamage : JsValue;
  dmg_fastForward : JsValue;
  dmg_template : JsValue;
  dmg_title : JsValue;
  dmg_dialogOptions : JsValue;
  dmg_chatMessage : JsValue;
  dmg_messageData : gmap string JsValue;
  dmg_rollMode : JsValue;
  dmg_flavor : JsValue
}.

Record DamageOptions : Type := {
  do_flavor : JsValue;
  do_rollMode : JsValue;
  do_critical : JsValue;
  do_criticalBonusDice : JsValue;
  do_criticalMultiplier : JsValue;
  do_criticalBonusDamage : JsValue;
  do_multiplyNumeric : JsValue;
  do_powerfulCritical : JsValue
}.

Record DamageRoll : Type := {
  dr_formula : string;
  dr_data : gmap string JsValue;
  dr_options : DamageOptions;
  dr_total : JsValue
}.

Record DamageDialogConfig : Type := {
  ddc_title : JsValue;
  ddc_defaultRollMode : JsValue;
  ddc_defaultCritical : JsValue;
  ddc_template : JsValue;
  ddc_allowCritical : JsValue
}.

(** The collaborators of [damageRoll], as for [D20Host]: the dialog
    resolves to [null] or to the roll as the dialog left it. *)
Record DamageHost : Type := {
  dmg_configureDialog : DamageDialogConfig -> JsValue -> DamageRoll -> option DamageRoll;
  dmg_evaluate : DamageRoll -> DamageRoll
}.

Definition dmg_mode (game : Game) (cfg : DamageRollConfiguration) : CriticalResult :=
  _determineCriticalMode game (dmg_event cfg) (dmg_critical cfg) (dmg_fastForward cfg).

Definition dmg_defaultRollMode (game : Game) (cfg : DamageRollConfiguration) : JsValue :=
  or_else (dmg_rollMode cfg) (settings_get game "core" "rollMode").

(** "Construct the DamageRoll instance". *)
Definition dmg_construct (game : Game) (cfg : DamageRollConfiguration) : DamageRoll :=
  {| dr_formula := String.concat " + " (dmg_parts cfg);
     dr_data := dmg_data cfg;
     dr_options :=
       {| do_flavor := or_else (dmg_flavor cfg) (dmg_title cfg);
          do_rollMode := dmg_rollMode cfg;
          do_critical :=
            if c_isFF (dmg_mode game cfg) then isCritical (dmg_mode game cfg) else JBool false;
          do_criticalBonusDice := dmg_criticalBonusDice cfg;
          do_criticalMultiplier := dmg_criticalMultiplier cfg;
          do_criticalBonusDamage := dmg_criticalBonusDamage cfg;
          do_multiplyNumeric :=
            coalesce (dmg_multiplyNumeric cfg)
                     (settings_get game "dnd5e" "criticalDamageModifiers");
          do_powerfulCritical :=
            coalesce (dmg_powerfulCritical cfg)
                     (settings_get game "dnd5e" "criticalDamageMaxDice") |};
     dr_total := JUndefined |}.

Definition dmg_dialogConfig (game : Game) (cfg : DamageRollConfiguration) : DamageDialogConfig :=
  {| ddc_title := dmg_title cfg;
     ddc_defaultRollMode := dmg_defaultRollMode game cfg;
     ddc_defaultCritical := isCritical (dmg_mode game cfg);
     ddc_template := dmg_template cfg;
     ddc_allowCritical := param_default (dmg_allowCritical cfg) (JBool true) |}.

Definition dmg_finish (host : DamageHost) (cfg : DamageRollConfiguration) (roll : DamageRoll)
    : M (option DamageRoll) :=
  emit RollEvaluated ;;
  let roll := dmg_evaluate host roll in
  (if truthy (param_default (dmg_chatMessage cfg) (JBool true))
   then emit (MessageCreated (dmg_messageData cfg))
   else mret tt) ;;
  mret (Some roll).

Definition damageRoll (game : Game) (host : DamageHost) (cfg : DamageRollConfiguration)
    : M (option DamageRoll) :=
  let roll := dmg_construct game cfg in
  if negb (c_isFF (dmg_mode game cfg))
  then
    emit DialogShown ;;
    match dmg_configureDialog host (dmg_dialogConfig game cfg) (dmg_dialogOptions cfg) roll with
    | None => mret None
    | Some configured => dmg_finish host cfg configured
    end
  else dmg_finish host cfg roll.

(** Is the roll that [damageRoll] hands to the evaluator marked critical? *)
Definition markedCritical (roll : DamageRoll) : bool := truthy (do_critical (dr_options roll)).

End Dice.

(* ===================================================================== *)
(** * Text enrichers: check, damage and save links *)
(* ===================================================================== *)

Module Enrichers.

(** The [values] property of a configuration: the array of bare words
    that [parseConfig] creates, or the primitive that an assignment to the
    key [values] has put in its place. *)
Inductive Values : Type :=
| Words (words : list string)
| Replaced (v : JsValue).

(** The parsed bracket configuration as [parseConfig] builds it: the
    [values] property, and in [props] every other property of the
    JavaScript object. *)
Record Config : Type := {
  values : Values;
  props : gmap string JsValue
}.

(** [config[k]] for a key other than [values]. *)
Definition get (config : Config) (k : string) : JsValue := prop (props config) k.

(** [config[k] = v] for a primitive [v]: the key [values] replaces the
    array of bare words, and the key [__proto__] reaches the prototype
    setter of the object, which ignores primitives. *)
Definition set (k : string) (v : JsValue) (config : Config) : Config :=
  if String.eqb k "__proto__" then config
  else if String.eqb k "values" then {| values := Replaced v; props := props config |}
  else {| values := values config; props := <[k := v]> (props config) |}.

(** Strings stand for their UTF-8 encoding: a byte of the form 10xxxxxx
    continues the code point that the bytes before it started. *)
Definition continues (c : Ascii.ascii) : bool :=
  let n := Ascii.nat_of_ascii c in (128 <=? n)%nat && (n <? 192)%nat.

Definition starts_inside (s : string) : bool :=
  match s with
  | String c _ => continues c
  | EmptyString => false
  end.

(** Iterating a string gives its code points. *)
Fixpoint codePoints (s : string) : list string :=
  match s with
  | EmptyString => []
  | String c rest =>
      if starts_inside rest
      then
        match codePoints rest with
        | point :: points => String c point :: points
        | [] => [String c EmptyString]
        end
      else String c EmptyString :: codePoints rest
  end.

(** [for ( const value of config.values )]: an array gives its elements, a
    string its code points, and any other primitive is not iterable. *)
Definition iterate (v : Values) : Completion (list string) :=
  match v with
  | Words words => Return words
  | Replaced (JStr s) => Return (codePoints s)
  | Replaced _ => Throw TypeError
  end.

(** Entries of [CONFIG.DND5E.enrichmentLookup] and [CONFIG.DND5E.damageTypes]. *)
Record AbilityConfig : Type := {
  a_label : JsValue;
  a_key : JsValue
}.

Record SkillConfig : Type := {
  s_label : JsValue;
  s_ability : JsValue;
  s_key : JsValue
}.

Record Rules : Type := {
  abilities : gmap string AbilityConfig;
  skills : gmap string SkillConfig;
  tools : gmap string string;
  damageTypes : gmap string string
}.

Record ToolIndex : Type := { t_name : JsValue }.

Record EnrichmentOptions : Type := { rollData : option (gmap string JsValue) }.

(** What an enricher hands back: the untouched [config.input], an element,
    or [null]. A link or tag carries its label and its [data-*] attributes;
    a span carries the localisation key and data its inner HTML is
    formatted from. *)
Inductive Element : Type :=
| RollLink (label : JsValue) (dataset : gmap string JsValue)
| PassiveTag (label : JsValue) (dataset : gmap string JsValue)
| Span (key : string) (localizationData : gmap string JsValue).

Inductive Enriched : Type :=
| Input (v : JsValue)
| Built (e : Element)
| Null.

Inductive EvalMode : Type := Minimize | Maximize.

(** An evaluated [Roll]. *)
Record Roll : Type := { total : JsNumber }.

Inductive Promise (A : Type) : Type :=
| Resolved (a : A)
| Rejected (e : ErrorKind).

Arguments Resolved {A} a.
Arguments Rejected {A} e.

(** What [Roll#evaluate] answers: the evaluated roll itself when the host
    evaluates at once, or a promise of it. *)
Inductive Evaluation : Type :=
| Settled (roll : Roll)
| Pending (promise : Promise Roll).

(** The host: Foundry's [Number.isNumeric] and [Number] on strings, number
    printing, [Trait.getBaseItem] with [indexOnly], [simplifyBonus],
    [game.i18n], [Roll.replaceFormulaData], [Roll.create] followed by
    [evaluate] (which throws for a formula that cannot be parsed or
    evaluated at once), the DOM serialiser, and which property names the
    [dataset] of an element refuses (a hyphen followed by a lower-case
    letter, or a character that an attribute name cannot have). [getBaseItemInherited] and
    [localizeInherited] are what [Trait.getBaseItem] and
    [game.i18n.localize] do when they are handed the inherited member of
    that name in place of a string. *)
Record Host : Type := {
  isNumericStr : string -> bool;
  toNumberStr : string -> JsNumber;
  numToString : JsNumber -> string;
  getBaseItem : string -> option ToolIndex;
  getBaseItemInherited : string -> Completion (option ToolIndex);
  simplifyBonus : JsValue -> gmap string JsValue -> JsValue;
  i18n_format : string -> gmap string JsValue -> string;
  i18n_localize : string -> string;
  localizeInherited : string -> Completion string;
  toLowerCase : string -> string;
  replaceFormulaData : string -> gmap string JsValue -> string;
  evaluate : EvalMode -> string -> Completion Evaluation;
  outerHTML : Element -> string;
  datasetRejects : string -> bool
}.

Inductive Warning : Type :=
| SkillNotFound (skill input : JsValue)
| ToolNotFound (tool input : JsValue)
| AbilityNotFound (ability input : JsValue)
| NoAbilityProvided (input : JsValue).

(** Interactions of the enrichers: [console.warn] and the requests to
    evaluate a formula. *)
Inductive Effect : Type :=
| Warned (w : Warning)
| FormulaEvaluated (mode : EvalMode) (formula : string).

Definition M : Type -> Type := Fallible Effect.

(** ToString, as used for property keys and [Array#join]. *)
Definition to_string (host : Host) (v : JsValue) : string :=
  match v with
  | JUndefined => "undefined"
  | JNull => "null"
  | JBool true => "true"
  | JBool false => "false"
  | JNum n => numToString host n
  | JStr s => s
  end.

(** [Number.isNumeric]: [null] and the empty string are not numeric, any
    other value is numeric when unary plus does not give [NaN]. *)
Definition isNumeric (host : Host) (v : JsValue) : bool :=
  match v with
  | JNull => false
  | JUndefined => false
  | JBool _ => true
  | JNum NaN => false
  | JNum (Finite _) => true
  | JStr s => if String.eqb s "" then false else isNumericStr host s
  end.

Definition to_number (host : Host) (v : JsValue) : JsNumber :=
  match v with
  | JStr s => toNumberStr host s
  | _ => to_number_prim v
  end.

(** The binary [+]: concatenation as soon as one operand is a string,
    numeric addition otherwise. *)
Definition js_plus (host : Host) (a b : JsValue) : JsValue :=
  match a, b with
  | JStr _, _ | _, JStr _ => JStr (to_string host a ++ to_string host b)
  | _, _ => JNum (num_add (to_number_prim a) (to_number_prim b))
  end.

(** The attributes [_addDataset] asks the element to carry: every truthy
    property except [input] and [values]. *)
Definition attributes (dataset : gmap string JsValue) : gmap string JsValue :=
  filter (fun kv => (kv.1 ∉ ["input"; "values"]) ∧ truthy (kv.2) = true) dataset.

(** [_addDataset]: [element.dataset[key] = value] throws for a name the
    [dataset] refuses. *)
Definition _addDataset (host : Host) (dataset : gmap string JsValue)
    : Completion (gmap string JsValue) :=
  if decide (map_Forall (fun key _ => datasetRejects host key = false) (attributes dataset))
  then Return (attributes dataset)
  else Throw DOMException.

Definition createPassiveTag (host : Host) (label : JsValue) (dataset : gmap string JsValue)
    : Completion Element :=
  PassiveTag label <$> _addDataset host dataset.

Definition createRollLink (host : Host) (label : JsValue) (dataset : gmap string JsValue)
    : Completion Element :=
  RollLink label <$> _addDataset host dataset.

(** The data attributes of a built link or tag. *)
Definition dataset_of (e : Element) : gmap string JsValue :=
  match e with
  | RollLink _ d | PassiveTag _ d => d
  | Span _ _ => ∅
  end.

Definition is_warning (e : Effect) : bool :=
  match e with Warned _ => true | FormulaEvaluated _ _ => false end.

(** ** [enrichCheck] *)

(** One turn of the loop over [config.values]. *)
Definition classifyCheckValue (rules : Rules) (host : Host) (config : Config)
    (value : string) : Config :=
  if has_key (abilities rules) value then set "ability" (JStr value) config
  else if has_key (skills rules) value then set "skill" (JStr value) config
  else if has_key (tools rules) value then set "tool" (JStr value) config
  else if isNumeric host (JStr value) then set "dc" (JNum (toNumberStr host value)) config
  else set value (JBool true) config.

Definition classifyCheckValues (rules : Rules) (host : Host) (config : Config)
    : Completion Config :=
  words ← iterate (values config) ;
  mret (fold_left (classifyCheckValue rules host) words config).

(** An inherited member has none of the properties of a table entry. *)
Definition inheritedSkill : SkillConfig :=
  {| s_label := JUndefined; s_ability := JUndefined; s_key := JUndefined |}.

Definition inheritedAbility : AbilityConfig :=
  {| a_label := JUndefined; a_key := JUndefined |}.

Definition lookupSkill (rules : Rules) (host : Host) (config : Config) : option SkillConfig :=
  match member (skills rules) (to_string host (get config "skill")) with
  | Some (Own skillConfig) => Some skillConfig
  | Some (Inherited _) => Some inheritedSkill
  | None => None
  end.

(** The skill step: an unknown skill is reported, a known one supplies the
    ability when none has been given, and a full key is replaced by the
    short one. *)
Definition resolveSkill (rules : Rules) (host : Host) (config : Config)
    : M (Config * bool) :=
  let skillConfig := lookupSkill rules host config in
  '(config, invalid) ←
    match truthy (get config "skill"), skillConfig with
    | true, None =>
        log (Warned (SkillNotFound (get config "skill") (get config "input"))) ;;
        mret (config, true)
    | true, Some sc =>
        if negb (truthy (get config "ability"))
        then mret (set "ability" (s_ability sc) config, false)
        else mret (config, false)
    | false, _ => mret (config, false)
    end ;
  match skillConfig with
  | Some sc =>
      if truthy (s_key sc) then mret (set "skill" (s_key sc) config, invalid)
      else mret (config, invalid)
  | None => mret (config, invalid)
  end.

(** [toolUUID ? Trait.getBaseItem(toolUUID, { indexOnly: true }) : null] *)
Definition lookupTool (rules : Rules) (host : Host) (config : Config)
    : Completion (option ToolIndex) :=
  match member (tools rules) (to_string host (get config "tool")) with
  | Some (Own toolUUID) =>
      Return (if truthy (JStr toolUUID) then getBaseItem host toolUUID else None)
  | Some (Inherited name) => getBaseItemInherited host name
  | None => Return None
  end.

Definition resolveTool (config : Config) (toolIndex : option ToolIndex) (invalid : bool)
    : M bool :=
  if truthy (get config "tool") && negb (bool_decide (is_Some toolIndex))
  then log (Warned (ToolNotFound (get config "tool") (get config "input"))) ;; mret true
  else mret invalid.

Definition lookupAbility (rules : Rules) (host : Host) (config : Config) : option AbilityConfig :=
  match member (abilities rules) (to_string host (get config "ability")) with
  | Some (Own abilityConfig) => Some abilityConfig
  | Some (Inherited _) => Some inheritedAbility
  | None => None
  end.

Definition resolveAbility (rules : Rules) (host : Host) (config : Config) (invalid : bool)
    : M (Config * bool) :=
  let abilityConfig := lookupAbility rules host config in
  invalid ←
    match abilityConfig with
    | None =>
        if truthy (get config "ability")
        then log (Warned (AbilityNotFound (get config "ability") (get config "input"))) ;;
             mret true
        else log (Warned (NoAbilityProvided (get config "input"))) ;; mret true
    | Some _ => mret invalid
    end ;
  match abilityConfig with
  | Some ac =>
      if truthy (a_key ac) then mret (set "ability" (a_key ac) config, invalid)
      else mret (config, invalid)
  | None => mret (config, invalid)
  end.

Definition resolveDC (host : Host) (options : EnrichmentOptions) (config : Config) : Config :=
  if truthy (get config "dc") && negb (isNumeric host (get config "dc"))
  then set "dc" (simplifyBonus host (get config "dc") (default ∅ (rollData options))) config
  else config.

Definition is_long (config : Config) : bool :=
  match get config "format" with JStr s => String.eqb s "long" | _ => false end.

Definition checkLabel (host : Host) (config : Config) (skillConfig : option SkillConfig)
    (toolIndex : option ToolIndex) (abilityConfig : option AbilityConfig) : JsValue :=
  let ability := from_option a_label JUndefined abilityConfig in
  let skill := from_option s_label JUndefined skillConfig in
  let tool := from_option t_name JUndefined toolIndex in
  let label :=
    if truthy ability && (truthy skill || truthy tool)
    then JStr (i18n_format host "EDITOR.DND5E.Inline.SpecificCheck"
                 (<["type" := coalesce skill tool]> (<["ability" := ability]> ∅)))
    else ability in
  let longSuffix := if is_long config then "Long" else "Short" in
  if truthy (get config "passive")
  then JStr (i18n_format host ("EDITOR.DND5E.Inline.DCPassive" ++ longSuffix)
               (<["check" := label]> (<["dc" := get config "dc"]> ∅)))
  else
    let label :=
      if truthy (get config "dc")
      then JStr (i18n_format host "EDITOR.DND5E.Inline.DC"
                   (<["check" := label]> (<["dc" := get config "dc"]> ∅)))
      else label in
    JStr (i18n_format host ("EDITOR.DND5E.Inline.Check" ++ longSuffix)
            (<["check" := label]> ∅)).

Definition enrichCheck (rules : Rules) (host : Host) (config : Config)
    (label : JsValue) (options : EnrichmentOptions) : M Enriched :=
  config ← complete (classifyCheckValues rules host config) ;
  let skillConfig := lookupSkill rules host config in
  '(config, invalid) ← resolveSkill rules host config ;
  toolIndex ← complete (lookupTool rules host config) ;
  invalid ← resolveTool config toolIndex invalid ;
  let abilityConfig := lookupAbility rules host config in
  '(config, invalid) ← resolveAbility rules host config invalid ;
  let config := resolveDC host options config in
  if (invalid : bool) then mret (Input (get config "input"))
  else
    let label :=
      if negb (truthy label)
      then checkLabel host config skillConfig toolIndex abilityConfig
      else label in
    if truthy (get config "passive")
    then complete (Built <$> createPassiveTag host label (props config))
    else
      let type :=
        if truthy (get config "skill") then "skill"
        else if truthy (get config "tool") then "tool"
        else "check" in
      complete (Built <$> createRollLink host label (props config ∪ {["type" := JStr type]})).

(** ** [enrichDamage] *)

(** One turn of the loop over [config.values]; the second component is
    [formulaParts]. *)
Definition classifyDamageValue (rules : Rules) (acc : Config * list string)
    (value : string) : Config * list string :=
  let '(config, formulaParts) := acc in
  if has_key (damageTypes rules) value then (set "type" (JStr value) config, formulaParts)
  else if String.eqb value "average" then (set "average" (JBool true) config, formulaParts)
  else (config, (formulaParts ++ [value])%list).

Definition damageFormula (rules : Rules) (host : Host) (config : Config)
    (options : EnrichmentOptions) : Completion Config :=
  let formulaParts :=
    if truthy (get config "formula") then [to_string host (get config "formula")] else [] in
  words ← iterate (values config) ;
  let '(config, formulaParts) :=
    fold_left (classifyDamageValue rules) words (config, formulaParts) in
  mret (set "formula"
          (JStr (replaceFormulaData host (String.concat " " formulaParts)
                   (default ∅ (rollData options))))
          config).

(** Reading the property [total] off what [evaluate] answered: an
    evaluated roll has it, a promise has no such property. *)
Definition evaluation_total (e : Evaluation) : JsValue :=
  match e with
  | Settled roll => JNum (total roll)
  | Pending _ => JUndefined
  end.

(** [await] applied to a value that is not a promise passes it on. *)
Definition await_value (v : JsValue) : JsValue := v.

(** [Math.floor((await minRoll.total + await maxRoll.total) / 2)]: member
    access binds tighter than [await], so [total] is read off what
    [evaluate] answered and the result is awaited. *)
Definition computedAverage (host : Host) (minRoll maxRoll : Evaluation) : JsValue :=
  JNum (num_floor
          (num_div
             (to_number host
                (js_plus host (await_value (evaluation_total minRoll))
                              (await_value (evaluation_total maxRoll))))
             (Finite 2))).

(** [game.i18n.localize(CONFIG.DND5E.damageTypes[config.damageType] ?? "")
    .toLowerCase()] *)
Definition damageTypeLabel (rules : Rules) (host : Host) (config : Config)
    : Completion string :=
  localized ←
    match member (damageTypes rules) (to_string host (get config "damageType")) with
    | Some (Own key) => Return (i18n_localize host key)
    | Some (Inherited name) => localizeInherited host name
    | None => Return (i18n_localize host "")
    end ;
  mret (toLowerCase host localized).

Definition enrichDamage (rules : Rules) (host : Host) (config : Config)
    (label : JsValue) (options : EnrichmentOptions) : M Enriched :=
  config ← complete (damageFormula rules host config options) ;
  if negb (truthy (get config "formula")) then mret Null
  else
    let config := set "damageType" (get config "type") config in
    let config := set "type" (JStr "damage") config in
    if truthy label then complete (Built <$> createRollLink host label (props config))
    else
      let formula := to_string host (get config "formula") in
      link ← complete (createRollLink host (get config "formula") (props config)) ;
      typeLabel ← complete (damageTypeLabel rules host config) ;
      let localizationData : gmap string JsValue :=
        <["type" := JStr typeLabel]> (<["formula" := JStr (outerHTML host link)]> ∅) in
      if truthy (get config "average")
      then
        match get config "average" with
        | JBool true =>
            log (FormulaEvaluated Minimize formula) ;;
            minRoll ← complete (evaluate host Minimize formula) ;
            log (FormulaEvaluated Maximize formula) ;;
            maxRoll ← complete (evaluate host Maximize formula) ;
            mret (Built (Span "EDITOR.DND5E.Inline.DamageLong"
                           (<["average" := computedAverage host minRoll maxRoll]>
                              localizationData)))
        | average =>
            if isNumeric host average
            then mret (Built (Span "EDITOR.DND5E.Inline.DamageLong"
                                (<["average" := average]> localizationData)))
            else mret (Built (Span "EDITOR.DND5E.Inline.DamageLong" localizationData))
        end
      else mret (Built (Span "EDITOR.DND5E.Inline.DamageShort" localizationData)).

(** The average a damage enrichment displays, if it displays one. *)
Definition displayedAverage (r : Enriched) : option JsValue :=
  match r with
  | Built (Span _ localizationData) => localizationData !! "average"
  | _ => None
  end.

(** ** [enrichSave] *)

Definition classifySaveValue (rules : Rules) (host : Host) (config : Config)
    (value : string) : Config :=
  if has_key (abilities rules) value then set "ability" (JStr value) config
  else if isNumeric host (JStr value) then set "dc" (JNum (toNumberStr host value)) config
  else set value (JBool true) config.

Definition classifySaveValues (rules : Rules) (host : Host) (config : Config)
    : Completion Config :=
  words ← iterate (values config) ;
  mret (fold_left (classifySaveValue rules host) words config).

Definition saveLabel (host : Host) (config : Config) (abilityConfig : AbilityConfig) : JsValue :=
  let label := a_label abilityConfig in
  let label :=
    if truthy (get config "dc")
    then JStr (i18n_format host "EDITOR.DND5E.Inline.DC"
                 (<["check" := label]> (<["dc" := get config "dc"]> ∅)))
    else label in
  JStr (i18n_format host
          ("EDITOR.DND5E.Inline.Save" ++ (if is_long config then "Long" else "Short"))
          (<["save" := label]> ∅)).

Definition enrichSave (rules : Rules) (host : Host) (config : Config)
    (label : JsValue) (options : EnrichmentOptions) : M Enriched :=
  config ← complete (classifySaveValues rules host config) ;
  match lookupAbility rules host config with
  | None =>
      log (Warned (AbilityNotFound (get config "ability") (get config "input"))) ;;
      mret (Input (get config "input"))
  | Some abilityConfig =>
      let config :=
        if truthy (a_key abilityConfig) then set "ability" (a_key abilityConfig) config
        else config in
      let config := resolveDC host options config in
      let label := if negb (truthy label) then saveLabel host config abilityConfig else label in
      complete (Built <$> createRollLink host label (props config ∪ {["type" := JStr "save"]}))
  end.

End Enrichers.

(* ===================================================================== *)
(** * Advancement: forward and reverse updates *)
(* ===================================================================== *)

Module Advancement.

(** The argument of [propertyUpdates] and [itemUpdates]. *)
Record UpdateRequest : Type := {
  level : Z;
  updates : option (gmap string JsValue);
  reverse : JsValue
}.

(** [{ add: string[], remove: string[] }] *)
Record ItemUpdates : Type := {
  add : list string;
  remove : list string
}.

(** The overridable part of an advancement type and of its flow. *)
Class AdvancementType (A : Type) : Type := {
  propertyUpdates : A -> UpdateRequest -> gmap string JsValue;
  itemUpdates : A -> UpdateRequest -> ItemUpdates;
  prepareUpdate : A -> option (gmap string JsValue) -> option (gmap string JsValue);
  finalizeUpdate :
    A -> option (gmap string JsValue) -> list string -> option (gmap string JsValue);
  reverseUpdate : A -> gmap string JsValue
}.

(** Raw data of an advancement object. *)
Record AdvancementData : Type := {
  _id : JsValue;
  type : string;
  data_level : JsValue;
  title : JsValue;
  icon : JsValue;
  configuration : gmap string JsValue;
  value : gmap string JsValue
}.

(** The base class [Advancement]; [parent] is the identifier of the owning
    item. *)
Record Advancement : Type := {
  parent : string;
  data : AdvancementData
}.

Definition id (adv : Advancement) : JsValue := _id (data adv).

Definition levels (adv : Advancement) : list JsValue :=
  if truthy (data_level (data adv)) then [data_level (data adv)] else [].

Definition configuredForLevel (adv : Advancement) (level : Z) : bool := true.

(** [Advancement#propertyUpdates], [Advancement#itemUpdates] and the three
    hooks of [AdvancementFlow], as the base classes define them. *)
#[export] Instance Advancement_base : AdvancementType Advancement := {|
  propertyUpdates := fun _ _ => ∅;
  itemUpdates := fun _ _ => {| add := []; remove := [] |};
  prepareUpdate := fun _ formData => formData;
  finalizeUpdate := fun _ update _ => update;
  reverseUpdate := fun _ => ∅
|}.

(** The part of a character that advancement touches: the actor's
    properties by flattened path, and the identifiers of its owned items. *)
Record Character : Type := {
  properties : gmap string JsValue;
  items : list string
}.

(** Merging an update object into stored data: updated keys win. *)
Definition mergeObject (original other : gmap string JsValue) : gmap string JsValue :=
  other ∪ original.

(** Modelled from the spec: the engine step that computes the updates of a
    node for a level and hands them to the document store (the advancement
    manager that drives [propertyUpdates] and [itemUpdates] is not part of
    the sources). The property diff is merged into the actor, the items
    listed under [add] are created and the ones listed under [remove] are
    deleted. *)
Definition computeAndStore {A} `{AdvancementType A} (adv : A) (request : UpdateRequest)
    (c : Character) : Character :=
  let props := propertyUpdates adv request in
  let changes := itemUpdates adv request in
  {| properties := mergeObject (properties c) props;
     items := filter (fun i => i ∉ remove changes) (items c ++ add changes)%list |}.

(** Modelled from the spec: [apply(level)] computes the forward updates and
    stores them. *)
Definition applyLevel {A} `{AdvancementType A} (adv : A) (lvl : Z)
    (delta : option (gmap string JsValue)) (c : Character) : Character :=
  computeAndStore adv {| level := lvl; updates := delta; reverse := JBool false |} c.

(** Modelled from the spec: [reverse(level)] computes the updates with
    [reverse] set and stores them. *)
Definition reverseLevel {A} `{AdvancementType A} (adv : A) (lvl : Z) (c : Character)
    : Character :=
  computeAndStore adv {| level := lvl; updates := None; reverse := JBool true |} c.

(** One update object inverts another on given data when merging the
    first and then the second gives the data back. *)
Definition inverts (fwd bwd data : gmap string JsValue) : Prop :=
  mergeObject (mergeObject data fwd) bwd = data.

End Advancement.

(* ===================================================================== *)
(** * The proficiency cycle element *)
(* ===================================================================== *)

Module ProficiencyCycle.

(** [ElementInternals], as far as [#refreshValue] writes it. *)
Record Internals : Type := {
  ariaValueNow : option JsNumber;
  ariaValueText : JsValue;
  formValue : option JsNumber
}.

(** The custom element: its [type] attribute, the private [#value], the
    [value] attribute of the inner input once [#buildHTML] has created it,
    the internals and the events dispatched so far. *)
Record ProficiencyCycleElement : Type := {
  typeAttribute : option string;
  value : JsNumber;
  innerInput : option JsNumber;
  internals : Internals;
  dispatched : list string
}.

(** State of the element after a call, with the error if the call threw. *)
Definition Outcome : Type := ProficiencyCycleElement * option ErrorKind.

Definition type (el : ProficiencyCycleElement) : string :=
  default "ability" (typeAttribute el).

Definition validValues (el : ProficiencyCycleElement) : list JsNumber :=
  if String.eqb (type el) "ability"
  then [Finite 0; Finite 1]
  else [Finite 0; Finite 1; Finite (1 # 2); Finite 2].

(** [Array#includes] and [Array#indexOf] on numbers. *)
Definition includes (l : list JsNumber) (v : JsNumber) : bool :=
  existsb (num_same_value_zero v) l.

Fixpoint indexOf_from (l : list JsNumber) (v : JsNumber) (i : Z) : Z :=
  match l with
  | [] => (-1)%Z
  | x :: l' => if num_strict_eq x v then i else indexOf_from l' v (i + 1)%Z
  end.

Definition indexOf (l : list JsNumber) (v : JsNumber) : Z := indexOf_from l v 0%Z.

(** [levels[i]] followed by the setter's [Number(...)]: an index outside
    the array reads [undefined], which converts to [NaN]. *)
Definition at_index (l : list JsNumber) (i : Z) : JsNumber :=
  if (i <? 0)%Z then NaN else default NaN (l !! Z.to_nat i).

(** [#refreshValue]; [proficiencyLevels] is [CONFIG.DND5E.proficiencyLevels]. *)
Definition refreshValue (proficiencyLevels : JsNumber -> JsValue)
    (el : ProficiencyCycleElement) : Outcome :=
  match innerInput el with
  | None => (el, Some TypeError)
  | Some _ =>
      ({| typeAttribute := typeAttribute el;
          value := value el;
          innerInput := Some (value el);
          internals :=
            {| ariaValueNow := Some (value el);
               ariaValueText := proficiencyLevels (value el);
               formValue := Some (value el) |};
          dispatched := dispatched el |}, None)
  end.

(** The [value] setter. *)
Definition set_value (proficiencyLevels : JsNumber -> JsValue)
    (el : ProficiencyCycleElement) (v : JsNumber) : Outcome :=
  if negb (includes (validValues el) v)
  then (el, Some (Error "Value must be a valid proficiency multiplier."))
  else
    refreshValue proficiencyLevels
      {| typeAttribute := typeAttribute el;
         value := v;
         innerInput := innerInput el;
         internals := internals el;
         dispatched := dispatched el |}.

Definition dispatchEvent (name : string) (el : ProficiencyCycleElement)
    : ProficiencyCycleElement :=
  {| typeAttribute := typeAttribute el;
     value := value el;
     innerInput := innerInput el;
     internals := internals el;
     dispatched := (dispatched el ++ [name])%list |}.

(** The entry of [levels] one step up or down from [v], wrapping around. *)
Definition neighbour (levels : list JsNumber) (up : bool) (v : JsNumber) : JsNumber :=
  at_index levels
    (Z.rem (indexOf levels v + (if up then 1 else Z.of_nat (length levels) - 1))
           (Z.of_nat (length levels))).

Definition step (proficiencyLevels : JsNumber -> JsValue) (up : bool)
    (el : ProficiencyCycleElement) : Outcome :=
  let levels := validValues el in
  let idx := indexOf levels (value el) in
  let len := Z.of_nat (length levels) in
  let next := at_index levels (Z.rem (idx + (if up then 1 else len - 1)) len) in
  match set_value proficiencyLevels el next with
  | (el', None) => (dispatchEvent "change" el', None)
  | thrown => thrown
  end.

End ProficiencyCycle.

(* ===================================================================== *)
(** * Concrete tables, hosts and inputs *)
(* ===================================================================== *)

Module Examples.

Import Dice.

(** ** Dice *)

(** The default keybindings of the system: Shift, Alt and Control
    fast-forward a d20 roll as normal, advantage and disadvantage; Shift
    and Alt fast-forward a damage roll as normal and critical. *)
Definition bindings (namespace action : string) : list Binding :=
  if String.eqb action "d20RollFastForwardNormal"
  then [ {| key := "ShiftLeft"; modifiers := [] |}; {| key := "ShiftRight"; modifiers := [] |} ]
  else if String.eqb action "d20RollFastForwardAdvantage"
  then [ {| key := "AltLeft"; modifiers := [] |}; {| key := "AltRight"; modifiers := [] |} ]
  else if String.eqb action "d20RollFastForwardDisadvantage"
  then [ {| key := "ControlLeft"; modifiers := [] |}; {| key := "ControlRight"; modifiers := [] |} ]
  else if String.eqb action "damageRollFastForwardNormal"
  then [ {| key := "ShiftLeft"; modifiers := [] |}; {| key := "ShiftRight"; modifiers := [] |} ]
  else if String.eqb action "damageRollFastForwardCritical"
  then [ {| key := "AltLeft"; modifiers := [] |}; {| key := "AltRight"; modifiers := [] |} ]
  else [].

Definition settings (namespace name : string) : JsValue :=
  if String.eqb name "rollMode" then JStr "publicroll" else JBool false.

Definition modifier_keys : ModifierKeys :=
  {| CONTROL := "Control"; SHIFT := "Shift"; ALT := "Alt" |}.

(** No key is held. *)
Definition game_idle : Game :=
  {| MODIFIER_KEYS := modifier_keys;
     keybindings_get := bindings;
     downKeys := ∅;
     settings_get := settings |}.

(** The left Alt key is held. *)
Definition game_alt : Game :=
  {| MODIFIER_KEYS := modifier_keys;
     keybindings_get := bindings;
     downKeys := {["AltLeft"]};
     settings_get := settings |}.

(** The left Control key is held. *)
Definition game_ctrl : Game :=
  {| MODIFIER_KEYS := modifier_keys;
     keybindings_get := bindings;
     downKeys := {["ControlLeft"]};
     settings_get := settings |}.

Definition click_alt : Event :=
  {| ctrlKey := false; metaKey := false; shiftKey := false; altKey := true |}.

Definition click_ctrl : Event :=
  {| ctrlKey := true; metaKey := false; shiftKey := false; altKey := false |}.

Definition click_plain : Event :=
  {| ctrlKey := false; metaKey := false; shiftKey := false; altKey := false |}.

(** A d20 roll request with every optional argument left out. *)
Definition d20_request (event : option Event) (advantage disadvantage fastForward : JsValue)
    : D20RollConfiguration :=
  {| d20_parts := ["@mod"];
     d20_data := {["mod" := JNum (Finite 3)]};
     d20_event := event;
     d20_advantage := advantage;
     d20_disadvantage := disadvantage;
     d20_critical := JUndefined;
     d20_fumble := JUndefined;
     d20_targetValue := JUndefined;
     d20_elvenAccuracy := JUndefined;
     d20_halflingLucky := JUndefined;
     d20_reliableTalent := JUndefined;
     d20_fastForward := fastForward;
     d20_chooseModifier := JUndefined;
     d20_template := JUndefined;
     d20_title := JStr "Ability Check";
     d20_dialogOptions := JUndefined;
     d20_chatMessage := JUndefined;
     d20_messageData := ∅;
     d20_rollMode := JUndefined;
     d20_flavor := JUndefined |}.

(** A damage roll request. *)
Definition damage_request (event : option Event)
    (allowCritical critical fastForward : JsValue) : DamageRollConfiguration :=
  {| dmg_parts := ["2d6"; "@mod"];
     dmg_data := {["mod" := JNum (Finite 3)]};
     dmg_event := event;
     dmg_allowCritical := allowCritical;
     dmg_critical := critical;
     dmg_criticalBonusDice := JUndefined;
     dmg_criticalMultiplier := JUndefined;
     dmg_multiplyNumeric := JUndefined;
     dmg_powerfulCritical := JUndefined;
     dmg_criticalBonusDamage := JUndefined;
     dmg_fastForward := fastForward;
     dmg_template := JUndefined;
     dmg_title := JStr "Damage Roll";
     dmg_dialogOptions := JUndefined;
     dmg_chatMessage := JUndefined;
     dmg_messageData := ∅;
     dmg_rollMode := JUndefined;
     dmg_flavor := JUndefined |}.

(** A host whose dialogs are always dismissed and whose dice all come up
    so that the total is zero. *)
Definition d20_dismissing : D20Host :=
  {| d20_configureDialog := fun _ _ _ => None;
     d20_evaluate := fun roll =>
       {| r_formula := r_formula roll; r_data := r_data roll;
          r_options := r_options roll; r_total := JNum (Finite 0) |} |}.

Definition damage_dismissing : DamageHost :=
  {| dmg_configureDialog := fun _ _ _ => None;
     dmg_evaluate := fun roll =>
       {| dr_formula := dr_formula roll; dr_data := dr_data roll;
          dr_options := dr_options roll; dr_total := JNum (Finite 0) |} |}.

(** ** Enrichers *)

Import Enrichers.

(** The lookup tables: short keys as configured, full names pointing back
    to their short key. *)
Definition abilities_table : gmap string AbilityConfig :=
  {[ "str" := {| a_label := JStr "Strength"; a_key := JUndefined |};
     "dex" := {| a_label := JStr "Dexterity"; a_key := JUndefined |};
     "int" := {| a_label := JStr "Intelligence"; a_key := JUndefined |};
     "strength" := {| a_label := JStr "Strength"; a_key := JStr "str" |};
     "dexterity" := {| a_label := JStr "Dexterity"; a_key := JStr "dex" |};
     "intelligence" := {| a_label := JStr "Intelligence"; a_key := JStr "int" |} ]}.

Definition skills_table : gmap string SkillConfig :=
  {[ "acr" := {| s_label := JStr "Acrobatics"; s_ability := JStr "dex"; s_key := JUndefined |};
     "ath" := {| s_label := JStr "Athletics"; s_ability := JStr "str"; s_key := JUndefined |};
     "acrobatics" :=
       {| s_label := JStr "Acrobatics"; s_ability := JStr "dex"; s_key := JStr "acr" |};
     "athletics" :=
       {| s_label := JStr "Athletics"; s_ability := JStr "str"; s_key := JStr "ath" |} ]}.

Definition rules : Rules :=
  {| abilities := abilities_table;
     skills := skills_table;
     tools := {[ "thief" := "woWZ1sO5IUVGzo58" ]};
     damageTypes :=
       {[ "bludgeoning" := "DND5E.DamageBludgeoning"; "force" := "DND5E.DamageForce" ]} |}.

(** Decimal numerals. *)
Definition digit_value (c : Ascii.ascii) : option Z :=
  let n := Z.of_nat (Ascii.nat_of_ascii c) in
  if (48 <=? n)%Z && (n <=? 57)%Z then Some (n - 48)%Z else None.

Fixpoint digits (s : string) (acc : Z) : option Z :=
  match s with
  | EmptyString => Some acc
  | String c s' =>
      match digit_value c with
      | Some d => digits s' (10 * acc + d)%Z
      | None => None
      end
  end.

Definition parse_numeral (s : string) : option Z :=
  if String.eqb s "" then None else digits s 0%Z.

(** A formula evaluator for a single dice term [NdF] or a numeral: the
    minimised total of [NdF] is [N], the maximised total is [N * F]. *)
Definition dice_total (mode : EvalMode) (formula : string) : option Z :=
  match String.index 0 "d" formula with
  | Some i =>
      match parse_numeral (String.substring 0 i formula),
            parse_numeral (String.substring (S i) (String.length formula - S i) formula) with
      | Some n, Some f => Some (match mode with Minimize => n | Maximize => (n * f)%Z end)
      | _, _ => None
      end
  | None => parse_numeral formula
  end.

(** Any other formula is refused. *)
Definition evaluated (mode : EvalMode) (formula : string) : Completion Roll :=
  match dice_total mode formula with
  | Some n => Return {| total := Finite (inject_Z n) |}
  | None => Throw (Error "Unresolved StringTerm requested for evaluation")
  end.

(** The names the [dataset] of an element refuses, for names written in
    ASCII: a hyphen followed by a lower-case letter, or a character other
    than a letter, a digit, [_], [.], [:] and [-]. *)
Definition name_character (c : Ascii.ascii) : bool :=
  let n := Ascii.nat_of_ascii c in
  ((97 <=? n) && (n <=? 122) || (65 <=? n) && (n <=? 90) || (48 <=? n) && (n <=? 58)
   || (n =? 95) || (n =? 46) || (n =? 45) || (128 <=? n))%nat.

Definition lower_case (c : Ascii.ascii) : bool :=
  let n := Ascii.nat_of_ascii c in ((97 <=? n) && (n <=? 122))%nat.

Fixpoint refused_name (s : string) : bool :=
  match s with
  | EmptyString => false
  | String c rest =>
      negb (name_character c)
      || ((Ascii.nat_of_ascii c =? 45)%nat
          && match rest with String d _ => lower_case d | EmptyString => false end)
      || refused_name rest
  end.

(** A host that evaluates minimised and maximised rolls at once and hands
    back the evaluated roll. *)
Definition host : Host :=
  {| isNumericStr := fun s => bool_decide (is_Some (parse_numeral s));
     toNumberStr := fun s => from_option (fun n => Finite (inject_Z n)) NaN (parse_numeral s);
     numToString := fun n =>
       match n with NaN => "NaN" | Finite q => pretty (Qfloor q) end;
     getBaseItem := fun uuid =>
       if String.eqb uuid "woWZ1sO5IUVGzo58"
       then Some {| t_name := JStr "Thieves' Tools" |}
       else None;
     getBaseItemInherited := fun _ => Throw TypeError;
     simplifyBonus := fun _ _ => JNum (Finite 0);
     i18n_format := fun key _ => key;
     i18n_localize := fun key => key;
     localizeInherited := fun _ => Throw TypeError;
     toLowerCase := fun s => s;
     replaceFormulaData := fun formula _ => formula;
     evaluate := fun mode formula => Settled <$> evaluated mode formula;
     outerHTML := fun _ => "<a class='roll-link'></a>";
     datasetRejects := refused_name |}.

(** The same host, except that every evaluation is answered with a promise
    of the evaluated roll. *)
Definition host_promising : Host :=
  {| isNumericStr := isNumericStr host;
     toNumberStr := toNumberStr host;
     numToString := numToString host;
     getBaseItem := getBaseItem host;
     getBaseItemInherited := getBaseItemInherited host;
     simplifyBonus := simplifyBonus host;
     i18n_format := i18n_format host;
     i18n_localize := i18n_localize host;
     localizeInherited := localizeInherited host;
     toLowerCase := toLowerCase host;
     replaceFormulaData := replaceFormulaData host;
     evaluate := fun mode formula =>
       Return (Pending (match evaluated mode formula with
                        | Return roll => Resolved roll
                        | Throw e => Rejected e
                        end));
     outerHTML := outerHTML host;
     datasetRejects := datasetRejects host |}.

Definition no_options : EnrichmentOptions := {| rollData := None |}.

(** [[[/check skill=acr dc=20]]] *)
Definition check_acrobatics : Config :=
  {| values := Words [];
     props := {[ "skill" := JStr "acr"; "dc" := JNum (Finite 20);
                 "input" := JStr "[[/check skill=acr dc=20]]" ]} |}.

(** [[[/check ability=str skill=acr]]] *)
Definition check_acrobatics_str : Config :=
  {| values := Words [];
     props := {[ "ability" := JStr "str"; "skill" := JStr "acr";
                 "input" := JStr "[[/check ability=str skill=acr]]" ]} |}.

(** [[[/check skill=acr ability=false]]] *)
Definition check_acrobatics_false : Config :=
  {| values := Words [];
     props := {[ "skill" := JStr "acr"; "ability" := JBool false;
                 "input" := JStr "[[/check skill=acr ability=false]]" ]} |}.

(** [[[/check skill=xyz]]]: no such skill. *)
Definition check_unknown_skill : Config :=
  {| values := Words [];
     props := {[ "skill" := JStr "xyz"; "input" := JStr "[[/check skill=xyz]]" ]} |}.

(** [[[/check skill=xyz input]]]: no such skill, and the bare word [input]. *)
Definition check_unknown_skill_input : Config :=
  {| values := Words ["input"];
     props := {[ "skill" := JStr "xyz"; "input" := JStr "[[/check skill=xyz input]]" ]} |}.

(** [[[/save ability=xyz]]]: no such ability. *)
Definition save_unknown_ability : Config :=
  {| values := Words [];
     props := {[ "ability" := JStr "xyz"; "input" := JStr "[[/save ability=xyz]]" ]} |}.

(** [[[/save ability=xyz input]]]: no such ability, and the bare word [input]. *)
Definition save_unknown_ability_input : Config :=
  {| values := Words ["input"];
     props := {[ "ability" := JStr "xyz"; "input" := JStr "[[/save ability=xyz input]]" ]} |}.

(** [[[/damage 2d6 type=bludgeoning average=true]]] *)
Definition damage_2d6_average : Config :=
  {| values := Words ["2d6"];
     props := {[ "type" := JStr "bludgeoning"; "average" := JBool true;
                 "input" := JStr "[[/damage 2d6 type=bludgeoning average=true]]" ]} |}.

(** [[[/damage 8d4dl force average=666]]] *)
Definition damage_fixed_average : Config :=
  {| values := Words ["8d4dl"; "force"];
     props := {[ "average" := JNum (Finite 666);
                 "input" := JStr "[[/damage 8d4dl force average=666]]" ]} |}.


(** ** Advancement and proficiency cycle *)

Definition ability_score_improvement : Advancement.Advancement :=
  {| Advancement.parent := "Item.fighter";
     Advancement.data :=
       {| Advancement._id := JStr "asi4";
          Advancement.type := "Base";
          Advancement.data_level := JNum (Finite 4);
          Advancement.title := JUndefined;
          Advancement.icon := JUndefined;
          Advancement.configuration := ∅;
          Advancement.value := ∅ |} |}.

Definition fighter : Advancement.Character :=
  {| Advancement.properties := {[ "system.abilities.str.value" := JNum (Finite 15) ]};
     Advancement.items := ["Item.longsword"] |}.

(** Modelled from the spec: an advancement type that overrides
    [propertyUpdates] and [itemUpdates] the way the spec describes a
    level-gated rule change (an ability score increase together with a
    feature grant); no subclass of [Advancement] is among the sources. At
    its level the forward updates write the new value of one property and
    list the feature for addition; the reverse updates write the previous
    value and list the feature for removal. At other levels it has no
    updates. *)
Record Improvement : Type := {
  at_level : Z;
  path : string;
  before : JsValue;
  after : JsValue;
  feature : string
}.

#[export] Instance Improvement_type : Advancement.AdvancementType Improvement := {|
  Advancement.propertyUpdates := fun adv request =>
    if bool_decide (Advancement.level request = at_level adv)
    then {[ path adv := if truthy (Advancement.reverse request) then before adv else after adv ]}
    else ∅;
  Advancement.itemUpdates := fun adv request =>
    if bool_decide (Advancement.level request = at_level adv)
    then
      if truthy (Advancement.reverse request)
      then {| Advancement.add := []; Advancement.remove := [feature adv] |}
      else {| Advancement.add := [feature adv]; Advancement.remove := [] |}
    else {| Advancement.add := []; Advancement.remove := [] |};
  Advancement.prepareUpdate := fun _ formData => formData;
  Advancement.finalizeUpdate := fun _ update _ => update;
  Advancement.reverseUpdate := fun _ => ∅
|}.


Definition proficiencyLevels (n : JsNumber) : JsValue :=
  match n with
  | NaN => JUndefined
  | Finite q =>
      if Qeq_bool q 0 then JStr "Not Proficient"
      else if Qeq_bool q 1 then JStr "Proficient"
      else if Qeq_bool q (1 # 2) then JStr "Half Proficient"
      else if Qeq_bool q 2 then JStr "Expertise"
      else JUndefined
  end.

(** A connected skill control showing expertise. *)
Definition skill_control : ProficiencyCycle.ProficiencyCycleElement :=
  {| ProficiencyCycle.typeAttribute := Some "skill";
     ProficiencyCycle.value := Finite 2;
     ProficiencyCycle.innerInput := Some (Finite 2);
     ProficiencyCycle.internals :=
       {| ProficiencyCycle.ariaValueNow := Some (Finite 2);
          ProficiencyCycle.ariaValueText := JStr "Expertise";
          ProficiencyCycle.formValue := Some (Finite 2) |};
     ProficiencyCycle.dispatched := [] |}.

End Examples.

(* ===================================================================== *)
(** * Pointer events on the proficiency cycle element *)
(* ===================================================================== *)

Module ProficiencyEvents.

Import ProficiencyCycle.

(** The fields of the pointer event that [#onClick] reads. *)
Record PointerEvent : Type := {
  ev_type : string;
  ev_button : JsNumber
}.

(** [#onClick]; [disabled] is whether the element carries the [disabled]
    attribute. *)
Definition onClick (proficiencyLevels : JsNumber -> JsValue) (disabled : bool)
    (event : PointerEvent) (el : ProficiencyCycleElement) : Outcome :=
  if disabled then (el, None)
  else step proficiencyLevels
         (String.eqb (ev_type event) "click" && negb (num_strict_eq (ev_button event) (Finite 2)))
         el.

(** Calls of [step] one after the other, as a script would make them: a
    call that throws ends the sequence. *)
Fixpoint steps (proficiencyLevels : JsNumber -> JsValue) (ups : list bool)
    (el : ProficiencyCycleElement) : Outcome :=
  match ups with
  | [] => (el, None)
  | up :: ups' =>
      match step proficiencyLevels up el with
      | (el', None) => steps proficiencyLevels ups' el'
      | thrown => thrown
      end
  end.

End ProficiencyEvents.

(* ===================================================================== *)
(** * Views on the results of the enrichers *)
(* ===================================================================== *)

Module EnricherViews.

Import Enrichers.

(** The type a check link gets when the configuration has none of its own. *)
Definition checkType (config : Config) : string :=
  if truthy (get config "skill") then "skill"
  else if truthy (get config "tool") then "tool"
  else "check".

Definition is_passive_tag (e : Element) : bool :=
  match e with PassiveTag _ _ => true | _ => false end.

Definition is_roll_link (e : Element) : bool :=
  match e with RollLink _ _ => true | _ => false end.

(** The bare words of a damage configuration that go into the formula:
    neither a damage type nor the word [average]. *)
Definition is_formula_word (rules : Rules) (value : string) : bool :=
  negb (has_key (damageTypes rules) value) && negb (String.eqb value "average").


(** The [dataset] of an element takes every attribute the data asks for. *)
Definition accepts (host : Host) (dataset : gmap string JsValue) : Prop :=
  map_Forall (fun key _ => datasetRejects host key = false) (attributes dataset).

(** The [dataset] refuses the name of one of the attributes. *)
Definition refuses (host : Host) (dataset : gmap string JsValue) : Prop :=
  exists (key : string) (value : JsValue),
    attributes dataset !! key = Some value /\ datasetRejects host key = true.

(** The configuration of a damage link after [damageType] and [type] have
    been written. *)
Definition damageConfig (config : Config) : Config :=
  set "type" (JStr "damage") (set "damageType" (get config "type") config).

End EnricherViews.

(* ===================================================================== *)
(** * Parsing the bracket configuration *)
(* ===================================================================== *)

Module Parsing.

Import Stdlib.Strings.Ascii.
Import Enrichers.

(** [String#split] with a separator of one character: the pieces between
    the separators, empty pieces included; the empty string gives one empty
    piece. *)
Fixpoint split_on (sep : Ascii.ascii) (s : string) : list string :=
  match s with
  | EmptyString => [EmptyString]
  | String c rest =>
      if Ascii.eqb c sep then EmptyString :: split_on sep rest
      else
        match split_on sep rest with
        | piece :: pieces => String c piece :: pieces
        | [] => [String c EmptyString]
        end
  end.

(** [const [key, value] = part.split("=")]: the first two pieces, the
    second being [undefined] when there is no ["="]. *)
Definition key_of (part : string) : string := hd "" (split_on "="%char part).

Definition value_of (part : string) : option string := split_on "="%char part !! 1%nat.

(** The value stored for [key=value]: a boolean for "true" and "false" in
    any case, a number for a numeric string, the string itself otherwise. *)
Definition typedValue (host : Host) (value : string) : JsValue :=
  let valueLower := toLowerCase host value in
  if bool_decide (valueLower ∈ ["true"; "false"]) then JBool (String.eqb valueLower "true")
  else if isNumeric host (JStr value) then JNum (toNumberStr host value)
  else JStr value.

(** [config.values.push(key)]: a primitive that has replaced the array has
    no [push]. *)
Definition push (key : string) (config : Config) : Completion Config :=
  match values config with
  | Words words => Return {| values := Words (words ++ [key]); props := props config |}
  | Replaced _ => Throw TypeError
  end.

(** One turn of the loop over the parts. *)
Definition parsePart (host : Host) (config : Config) (part : string) : Completion Config :=
  if negb (truthy (JStr part)) then Return config
  else
    match value_of part with
    | None => push (key_of part) config
    | Some value => Return (set (key_of part) (typedValue host value) config)
    end.

Fixpoint parseParts (host : Host) (parts : list string) (config : Config)
    : Completion Config :=
  match parts with
  | [] => Return config
  | part :: rest =>
      match parsePart host config part with
      | Return config' => parseParts host rest config'
      | Throw e => Throw e
      end
  end.

Definition parseConfig (host : Host) (match_ : string) : Completion Config :=
  parseParts host (split_on " "%char match_) {| values := Words []; props := ∅ |}.

(** The primitive a configuration holds under a key, if it holds one: for
    the key [values], what has replaced the array. *)
Definition stored (config : Config) (key : string) : option JsValue :=
  if String.eqb key "values"
  then match values config with Replaced v => Some v | Words _ => None end
  else props config !! key.

(** A part that is a bare word: not empty and without ["="]. *)
Definition is_bare (part : string) : bool :=
  truthy (JStr part) && bool_decide (value_of part = None).

(** The text a part assigns to [key], if it assigns to it. *)
Definition assigned (key : string) (part : string) : option string :=
  if truthy (JStr part) && String.eqb (key_of part) key then value_of part else None.

(** What [values] holds after the parts, starting from [start]: what the
    last assignment to [values] has put in place of the array, or else
    the array with the bare words pushed. *)
Definition final_values (host : Host) (start : Values) (parts : list string) : Values :=
  match last (omap (assigned "values") parts) with
  | Some v => Replaced (typedValue host v)
  | None =>
      match start with
      | Words words => Words (words ++ List.filter is_bare parts)
      | Replaced x => Replaced x
      end
  end.

(** The array of bare words has been replaced. *)
Definition replaced (v : Values) : bool :=
  match v with Replaced _ => true | Words _ => false end.

(** Some part replaces [values] and a later part is a bare word. *)
Definition overwrites_then_pushes (parts : list string) : Prop :=
  exists (before : list string) (part : string) (after : list string) (word : string),
    parts = (before ++ part :: after)%list
    /\ is_Some (assigned "values" part)
    /\ word ∈ after /\ is_bare word = true.

End Parsing.

(* ===================================================================== *)
(** * Clicking a damage link *)
(* ===================================================================== *)

Module RollLinks.

Import Dice.

(** What [rollDamage] needs besides the dice workflow: [game.i18n.localize]
    (its argument can be [undefined]; [localizeInherited] is what it does
    when it is handed the inherited member of that name in place of a
    string), [CONFIG.DND5E.damageTypes], and the listeners of the
    [dnd5e.preRollDamage] hook, which may change the roll configuration
    they are handed and veto the roll by answering [false]. *)
Record LinkHost : Type := {
  localize : JsValue -> string;
  localizeInherited : string -> Completion string;
  damageTypes : gmap string string;
  preRollDamage : DamageRollConfiguration -> bool * DamageRollConfiguration
}.

(** Interactions of a click: the two hooks with their argument, and in
    between the interactions of the dice workflow. *)
Inductive Effect : Type :=
| PreRollDamage (rollConfig : DamageRollConfiguration)
| Rolling (e : Dice.Effect)
| RollDamage (roll : DamageRoll).

Definition M : Type -> Type := Fallible Effect.


(** [game.i18n.localize(CONFIG.DND5E.damageTypes[damageType] ?? damageType)];
    an absent [data-damage-type] reads as [undefined], which as a key is
    the string "undefined". *)
Definition damageTypeText (host : LinkHost) (damageType : option string)
    : Completion string :=
  match member (damageTypes host) (default "undefined" damageType) with
  | Some (Own label) => Return (localize host (JStr label))
  | Some (Inherited name) => localizeInherited host name
  | None => Return (localize host (from_option JStr JUndefined damageType))
  end.

(** The roll configuration built from the data attributes of the link. An
    absent [data-formula] makes [parts] the array [[undefined]], which
    [Array#join] prints as the empty string. *)
Definition rollConfig (host : LinkHost) (event : Event) (speaker : JsValue)
    (dataset : gmap string string) : Completion DamageRollConfiguration :=
  let formula := dataset !! "formula" in
  let damageType := dataset !! "damageType" in
  let title := localize host (JStr "DND5E.DamageRoll") in
  typeText ← damageTypeText host damageType ;
  mret
    {| dmg_parts := [default "" formula];
       dmg_data := ∅;
       dmg_event := Some event;
       dmg_allowCritical := JUndefined;
       dmg_critical := JUndefined;
       dmg_criticalBonusDice := JUndefined;
       dmg_criticalMultiplier := JUndefined;
       dmg_multiplyNumeric := JUndefined;
       dmg_powerfulCritical := JUndefined;
       dmg_criticalBonusDamage := JUndefined;
       dmg_fastForward := JUndefined;
       dmg_template := JUndefined;
       dmg_title := JStr title;
       dmg_dialogOptions := JUndefined;
       dmg_chatMessage := JUndefined;
       dmg_messageData :=
         {[ "flags.dnd5e.roll.type" := JStr "damage"; "speaker" := speaker ]};
       dmg_rollMode := JUndefined;
       dmg_flavor := JStr (title ++ " (" ++ typeText ++ ")") |}.


End RollLinks.

(* ===================================================================== *)
(** * The group actor sheet: movement and inventory *)
(* ===================================================================== *)

Module GroupSheet.

Import Enrichers.





















End GroupSheet.

(* ===================================================================== *)
(** * Updating the stored data of an advancement *)
(* ===================================================================== *)

Module AdvancementSource.

Import Advancement.

(** [===] on primitive values. *)
Definition strict_eq (a b : JsValue) : bool :=
  match a, b with
  | JUndefined, JUndefined | JNull, JNull => true
  | JBool x, JBool y => Bool.eqb x y
  | JNum x, JNum y => num_strict_eq x y
  | JStr x, JStr y => String.eqb x y
  | _, _ => false
  end.

(** [Array#findIndex]; [None] stands for the answer -1. *)
Fixpoint findIndex {A} (p : A -> bool) (l : list A) : option nat :=
  match l with
  | [] => None
  | x :: rest => if p x then Some 0%nat else S <$> findIndex p rest
  end.

Section UpdateSource.

(** [foundry.utils.mergeObject] on the data of an advancement and an update
    object, and the text of an identifier inside a template string. *)
Context {Updates : Type}.
Context (merge : AdvancementData -> Updates -> AdvancementData).
Context (idText : JsValue -> string).

(** [Advancement#updateSource]; [stored] is the array
    [parent.data.data.advancement]. The result is the advancement and the
    array handed to the update of the parent. *)
Definition updateSource (adv : Advancement) (stored : list AdvancementData)
    (updates : Updates) : Completion (Advancement * list AdvancementData) :=
  match findIndex (fun a => strict_eq (_id a) (id adv)) stored with
  | None =>
      Throw (Error ("Advancement of ID " ++ idText (id adv) ++ " could not be found to update"))
  | Some idx =>
      Return ({| parent := parent adv; data := merge (data adv) updates |},
              alter (fun a => merge a updates) idx stored)
  end.

End UpdateSource.

End AdvancementSource.

(* ===================================================================== *)
(** * Further hosts and inputs *)
(* ===================================================================== *)

Module Scenarios.

Import Dice Examples.


(** A connected ability control that was never given a value. *)
Definition ability_control_unset : ProficiencyCycle.ProficiencyCycleElement :=
  {| ProficiencyCycle.typeAttribute := None;
     ProficiencyCycle.value := NaN;
     ProficiencyCycle.innerInput := Some NaN;
     ProficiencyCycle.internals :=
       {| ProficiencyCycle.ariaValueNow := Some NaN;
          ProficiencyCycle.ariaValueText := JUndefined;
          ProficiencyCycle.formValue := Some NaN |};
     ProficiencyCycle.dispatched := [] |}.

Definition primary_click : ProficiencyEvents.PointerEvent :=
  {| ProficiencyEvents.ev_type := "click"; ProficiencyEvents.ev_button := Finite 0 |}.

Definition context_menu : ProficiencyEvents.PointerEvent :=
  {| ProficiencyEvents.ev_type := "contextmenu"; ProficiencyEvents.ev_button := Finite 2 |}.

(** A host for clicks on links: labels are shown by their key, and the
    only listener of the pre-roll hook lets every roll pass unchanged. *)
Definition link_host : RollLinks.LinkHost :=
  {| RollLinks.localize := fun v => match v with JStr s => s | _ => "undefined" end;
     RollLinks.localizeInherited := fun _ => Throw TypeError;
     RollLinks.damageTypes := Enrichers.damageTypes rules;
     RollLinks.preRollDamage := fun config => (true, config) |}.

End Scenarios.

(* ===================================================================== *)
(** * Properties of the dice configuration *)
(* ===================================================================== *)

Module DiceFacts.

Import Dice Examples.

(** The trace monad only ever appends. *)
Lemma emit_spec {E} (e : E) (t : list E) : emit e t = (tt, (t ++ [e])%list).
Proof. reflexivity. Qed.

(** The mode as a function of the two truth values and the two keys. *)
Lemma advantageMode_cases (game : Game) (event : option Event)
    (advantage disadvantage fastForward : JsValue) :
  advantageMode (_determineAdvantageMode game event advantage disadvantage fastForward) =
  if truthy (param_default advantage (JBool false)) || k_advantage (advantageKeys game event)
  then ADVANTAGE
  else if truthy (param_default disadvantage (JBool false))
          || k_disadvantage (advantageKeys game event)
  then DISADVANTAGE
  else NORMAL.
Proof. reflexivity. Qed.

(** C2. With explicit [advantage = true] and [disadvantage = false],
    [_determineAdvantageMode] answers ADVANTAGE whatever the game state,
    the triggering event (so whatever keys are held, the disadvantage
    fast-forward binding included) and the [fastForward] argument. *)
Theorem explicit_advantage_resolves_to_advantage
    (game : Game) (event : option Event) (fastForward : JsValue) :
  advantageMode (_determineAdvantageMode game event (JBool true) (JBool false) fastForward)
  = ADVANTAGE.
Proof. rewrite advantageMode_cases. reflexivity. Qed.

(** Under the default bindings, a Control-click with Control down presses
    the disadvantage binding, and an explicit advantage still wins. *)
Example control_click_with_explicit_advantage :
  k_disadvantage (advantageKeys game_ctrl (Some click_ctrl)) = true
  /\ _determineAdvantageMode game_ctrl (Some click_ctrl) (JBool true) (JBool false) JUndefined
     = {| isFF := true; advantageMode := ADVANTAGE |}.
Proof. split; vm_compute; reflexivity. Qed.

(** A click with no key down presses nothing and leaves the explicit
    disadvantage in force, with the dialog still to be shown. *)
Example plain_click_with_explicit_disadvantage :
  _determineAdvantageMode game_idle (Some click_plain) (JBool false) (JBool true) JUndefined
  = {| isFF := false; advantageMode := DISADVANTAGE |}.
Proof. vm_compute. reflexivity. Qed.

(** The Alt binding is recognised on an Alt-click while Alt is down. *)
Lemma alt_click_presses_advantage :
  k_advantage (advantageKeys game_alt (Some click_alt)) = true.
Proof. vm_compute. reflexivity. Qed.

(** C3, as stated, fails: with explicit [disadvantage = true] and
    [advantage = false], an Alt-click under the default bindings does not
    resolve to DISADVANTAGE. *)
Lemma explicit_disadvantage_loses_to_advantage_key :
  advantageMode
    (_determineAdvantageMode game_alt (Some click_alt) (JBool false) (JBool true) JUndefined)
  <> DISADVANTAGE.
Proof. vm_compute. discriminate. Qed.

(** C3, amended. With explicit [disadvantage = true] and
    [advantage = false], the mode is DISADVANTAGE exactly when the advantage
    fast-forward binding is not pressed; when it is pressed the mode is
    ADVANTAGE. In particular a call without an event gives DISADVANTAGE. *)
Theorem explicit_disadvantage_unless_advantage_key
    (game : Game) (event : option Event) (fastForward : JsValue) :
  advantageMode (_determineAdvantageMode game event (JBool false) (JBool true) fastForward)
  = (if k_advantage (advantageKeys game event) then ADVANTAGE else DISADVANTAGE)
  /\ advantageMode (_determineAdvantageMode game None (JBool false) (JBool true) fastForward)
     = DISADVANTAGE.
Proof.
  split.
  - rewrite advantageMode_cases. cbn [param_default truthy orb].
    destruct (k_advantage (advantageKeys game event)); reflexivity.
  - reflexivity.
Qed.

(** C4, as stated, fails: with both flags set and no key held the call
    does not throw [InvalidConfiguration]. *)
Lemma both_flags_do_not_throw :
  call_determineAdvantageMode game_idle None (JBool true) (JBool true) JUndefined
  <> Throw InvalidConfiguration.
Proof. discriminate. Qed.

(** C4, amended. With both [advantage = true] and [disadvantage = true]
    the call returns normally, and the mode it returns is ADVANTAGE, for
    every game state, event and [fastForward] argument. *)
Theorem both_flags_resolve_to_advantage
    (game : Game) (event : option Event) (fastForward : JsValue) :
  exists result,
    call_determineAdvantageMode game event (JBool true) (JBool true) fastForward
    = Return result
    /\ advantageMode result = ADVANTAGE.
Proof.
  eexists. split; [reflexivity |].
  rewrite advantageMode_cases. reflexivity.
Qed.

(** The tail shared by both workflows: one evaluation, then at most one
    chat message. *)
Lemma d20_finish_spec (host : D20Host) (cfg : D20RollConfiguration) (roll : D20Roll)
    (t : list Effect) :
  d20_finish host cfg roll t =
  (Some (d20_evaluate host roll),
   (t ++ RollEvaluated ::
      (if truthy (param_default (d20_chatMessage cfg) (JBool true))
       then [MessageCreated (d20_messageData cfg)] else []))%list).
Proof.
  unfold d20_finish, mbind, Trace_bind, mret, Trace_ret. rewrite emit_spec.
  destruct (truthy (param_default (d20_chatMessage cfg) (JBool true))).
  - rewrite emit_spec. rewrite <- app_assoc. reflexivity.
  - reflexivity.
Qed.

Lemma dmg_finish_spec (host : DamageHost) (cfg : DamageRollConfiguration) (roll : DamageRoll)
    (t : list Effect) :
  dmg_finish host cfg roll t =
  (Some (dmg_evaluate host roll),
   (t ++ RollEvaluated ::
      (if truthy (param_default (dmg_chatMessage cfg) (JBool true))
       then [MessageCreated (dmg_messageData cfg)] else []))%list).
Proof.
  unfold dmg_finish, mbind, Trace_bind, mret, Trace_ret. rewrite emit_spec.
  destruct (truthy (param_default (dmg_chatMessage cfg) (JBool true))).
  - rewrite emit_spec. rewrite <- app_assoc. reflexivity.
  - reflexivity.
Qed.

(** A fast-forwarded damage roll never opens the dialog. *)
Lemma damageRoll_fast_forward (game : Game) (host : DamageHost)
    (cfg : DamageRollConfiguration) (t : list Effect) :
  c_isFF (dmg_mode game cfg) = true ->
  damageRoll game host cfg t = dmg_finish host cfg (dmg_construct game cfg) t.
Proof. intros FF. unfold damageRoll. rewrite FF. reflexivity. Qed.

(** The evaluator of the example host keeps the options of the roll. *)
Lemma dismissing_keeps_options (roll : DamageRoll) :
  dr_options (dmg_evaluate damage_dismissing roll) = dr_options roll.
Proof. reflexivity. Qed.

(** C5. The code at the failing inputs: with [allowCritical = false], a
    fast-forwarded damage roll is constructed, evaluated and returned with
    its critical option set, both when [critical = true] is passed
    explicitly and when the critical fast-forward binding (Alt) is held;
    no dialog is shown on the way. *)
Theorem fast_forward_ignores_allowCritical :
  (forall (game : Game) (event : option Event),
     let cfg := damage_request event (JBool false) (JBool true) (JBool true) in
     markedCritical (dmg_construct game cfg) = true
     /\ exists roll,
          damageRoll game damage_dismissing cfg [] =
            (Some roll, [RollEvaluated; MessageCreated ∅])
          /\ markedCritical roll = true)
  /\ (let cfg := damage_request (Some click_alt) (JBool false) JUndefined JUndefined in
      markedCritical (dmg_construct game_alt cfg) = true
      /\ exists roll,
           damageRoll game_alt damage_dismissing cfg [] =
             (Some roll, [RollEvaluated; MessageCreated ∅])
           /\ markedCritical roll = true).
Proof.
  split.
  - intros game event cfg.
    assert (Hc : markedCritical (dmg_construct game cfg) = true).
    { unfold markedCritical, dmg_construct, dmg_mode, _determineCriticalMode; cbn.
      destruct event as [e|]; [destruct (_areKeysPressed game e _) |]; reflexivity. }
    split; [exact Hc |].
    eexists. split.
    + rewrite damageRoll_fast_forward by reflexivity.
      rewrite dmg_finish_spec. reflexivity.
    + unfold markedCritical. rewrite dismissing_keeps_options. exact Hc.
  - cbv zeta. split; [vm_compute; reflexivity |].
    eexists. split.
    + rewrite damageRoll_fast_forward by (vm_compute; reflexivity).
      rewrite dmg_finish_spec. reflexivity.
    + vm_compute. reflexivity.
Qed.

(** A fast-forwarded d20 roll with both flags set goes through: it is
    constructed with advantage, evaluated and posted. *)
Example both_flags_roll_is_evaluated :
  exists roll,
    d20Roll game_idle d20_dismissing (d20_request None (JBool true) (JBool true) (JBool true)) []
    = (Some roll, [RollEvaluated; MessageCreated ∅])
    /\ o_advantageMode (r_options roll) = ADVANTAGE
    /\ r_formula roll = "1d20 + @mod".
Proof. eexists. repeat split; vm_compute; reflexivity. Qed.

(** Every run of [d20Roll] either stops at a dismissed dialog, having
    shown it and done nothing else, or evaluates a roll and returns it. *)
Lemma d20Roll_runs (game : Game) (host : D20Host) (cfg : D20RollConfiguration)
    (t : list Effect) :
  d20Roll game host cfg t = (None, (t ++ [DialogShown])%list)
  \/ exists roll pre post,
       d20Roll game host cfg t =
         (Some (d20_evaluate host roll), (t ++ pre ++ RollEvaluated :: post)%list).
Proof.
  unfold d20Roll. destruct (isFF (d20_mode game cfg)); cbn [negb].
  - right. rewrite d20_finish_spec. eexists _, [], _. reflexivity.
  - unfold mbind, Trace_bind. rewrite emit_spec.
    destruct (d20_configureDialog host _ _ _) as [configured|].
    + right. rewrite d20_finish_spec. rewrite <- app_assoc.
      eexists _, [DialogShown], _. reflexivity.
    + left. reflexivity.
Qed.

Lemma damageRoll_runs (game : Game) (host : DamageHost) (cfg : DamageRollConfiguration)
    (t : list Effect) :
  damageRoll game host cfg t = (None, (t ++ [DialogShown])%list)
  \/ exists roll pre post,
       damageRoll game host cfg t =
         (Some (dmg_evaluate host roll), (t ++ pre ++ RollEvaluated :: post)%list).
Proof.
  unfold damageRoll. destruct (c_isFF (dmg_mode game cfg)); cbn [negb].
  - right. rewrite dmg_finish_spec. eexists _, [], _. reflexivity.
  - unfold mbind, Trace_bind. rewrite emit_spec.
    destruct (dmg_configureDialog host _ _ _) as [configured|].
    + right. rewrite dmg_finish_spec. rewrite <- app_assoc.
      eexists _, [DialogShown], _. reflexivity.
    + left. reflexivity.
Qed.

Lemma evaluated_iff_returned {R} (result : option R) (added : list Effect) :
  match result with
  | None => added = [DialogShown]
  | Some _ => exists pre post, added = (pre ++ RollEvaluated :: post)%list
  end ->
  RollEvaluated ∈ added <-> result <> None.
Proof.
  destruct result as [r|].
  - intros (pre & post & ->). split; [discriminate |]. intros _.
    apply elem_of_app. right. left.
  - intros ->. split; [| congruence].
    intros Hin. apply list_elem_of_singleton in Hin. discriminate.
Qed.

(** C6. A [d20Roll] or [damageRoll] that is not fast-forwarded and whose
    configuration dialog resolves to [null] returns [null], and the only
    interaction it has had is showing the dialog: no evaluation, no chat
    message. And [null] tells a cancelled roll from an evaluated one in
    both directions, for every run of either workflow: a run evaluates the
    roll exactly when it returns one, a run that returns [null] has done
    nothing but show the dialog, and a returned roll is an evaluated roll,
    whatever its total. *)
Theorem dismissed_dialog_returns_null :
  (forall (game : Game) (host : D20Host) (cfg : D20RollConfiguration) (t : list Effect),
     isFF (d20_mode game cfg) = false ->
     d20_configureDialog host (d20_dialogConfig game cfg) (d20_dialogOptions cfg)
       (d20_construct game cfg) = None ->
     d20Roll game host cfg t = (None, (t ++ [DialogShown])%list))
  /\ (forall (game : Game) (host : DamageHost) (cfg : DamageRollConfiguration)
        (t : list Effect),
        c_isFF (dmg_mode game cfg) = false ->
        dmg_configureDialog host (dmg_dialogConfig game cfg) (dmg_dialogOptions cfg)
          (dmg_construct game cfg) = None ->
        damageRoll game host cfg t = (None, (t ++ [DialogShown])%list))
  /\ (forall (game : Game) (host : D20Host) (cfg : D20RollConfiguration) (t : list Effect),
        exists added,
          (d20Roll game host cfg t).2 = (t ++ added)%list
          /\ (RollEvaluated ∈ added <-> (d20Roll game host cfg t).1 <> None)
          /\ match (d20Roll game host cfg t).1 with
             | None => added = [DialogShown]
             | Some result =>
                 (exists roll, result = d20_evaluate host roll)
                 /\ exists pre post, added = (pre ++ RollEvaluated :: post)%list
             end)
  /\ (forall (game : Game) (host : DamageHost) (cfg : DamageRollConfiguration)
        (t : list Effect),
        exists added,
          (damageRoll game host cfg t).2 = (t ++ added)%list
          /\ (RollEvaluated ∈ added <-> (damageRoll game host cfg t).1 <> None)
          /\ match (damageRoll game host cfg t).1 with
             | None => added = [DialogShown]
             | Some result =>
                 (exists roll, result = dmg_evaluate host roll)
                 /\ exists pre post, added = (pre ++ RollEvaluated :: post)%list
             end).
Proof.
  split; [| split; [| split]].
  - intros game host cfg t FF Hnull. unfold d20Roll. rewrite FF. cbn [negb].
    unfold mbind, Trace_bind. rewrite emit_spec, Hnull. reflexivity.
  - intros game host cfg t FF Hnull. unfold damageRoll. rewrite FF. cbn [negb].
    unfold mbind, Trace_bind. rewrite emit_spec, Hnull. reflexivity.
  - intros game host cfg t.
    destruct (d20Roll_runs game host cfg t) as [-> | (roll & pre & post & ->)]; cbn [fst snd].
    + exists [DialogShown]. split; [reflexivity |]. split; [| reflexivity].
      apply (evaluated_iff_returned (R := D20Roll) None). reflexivity.
    + exists (pre ++ RollEvaluated :: post)%list. split; [reflexivity |]. split.
      * apply (evaluated_iff_returned (Some (d20_evaluate host roll))). eauto.
      * eauto.
  - intros game host cfg t.
    destruct (damageRoll_runs game host cfg t) as [-> | (roll & pre & post & ->)];
      cbn [fst snd].
    + exists [DialogShown]. split; [reflexivity |]. split; [| reflexivity].
      apply (evaluated_iff_returned (R := DamageRoll) None). reflexivity.
    + exists (pre ++ RollEvaluated :: post)%list. split; [reflexivity |]. split.
      * apply (evaluated_iff_returned (Some (dmg_evaluate host roll))). eauto.
      * eauto.
Qed.

(** The premises of C6 hold for a plain request under a host that
    dismisses every dialog; the rolls this host evaluates have total 0. *)
Lemma dismissed_dialog_returns_null_witness :
  d20Roll game_idle d20_dismissing (d20_request None JUndefined JUndefined JUndefined) []
    = (None, [DialogShown])
  /\ damageRoll game_idle damage_dismissing
       (damage_request None JUndefined JUndefined JUndefined) []
     = (None, [DialogShown]).
Proof.
  split.
  - apply (proj1 dismissed_dialog_returns_null game_idle d20_dismissing
             (d20_request None JUndefined JUndefined JUndefined) []);
      reflexivity.
  - apply (proj1 (proj2 dismissed_dialog_returns_null) game_idle damage_dismissing
             (damage_request None JUndefined JUndefined JUndefined) []);
      reflexivity.
Defined.

End DiceFacts.

(* ===================================================================== *)
(** * Properties of the enrichers *)
(* ===================================================================== *)

Module EnricherFacts.

Import Enrichers EnricherViews Examples.

(** *** Reading and writing properties *)

Lemma get_set_eq (k : string) (v : JsValue) (config : Config) :
  k <> "__proto__" -> k <> "values" -> get (set k v config) k = v.
Proof.
  intros Hp Hv. unfold set.
  apply String.eqb_neq in Hp. apply String.eqb_neq in Hv. rewrite Hp, Hv.
  unfold get, prop; cbn. rewrite lookup_insert_eq. reflexivity.
Qed.

Lemma set_lookup_ne (k k' : string) (v : JsValue) (config : Config) :
  k <> k' -> props (set k v config) !! k' = props config !! k'.
Proof.
  intros Hne. unfold set.
  destruct (String.eqb k "__proto__"); [reflexivity |].
  destruct (String.eqb k "values"); [reflexivity |].
  cbn. apply lookup_insert_ne. exact Hne.
Qed.

Lemma get_set_ne (k k' : string) (v : JsValue) (config : Config) :
  k <> k' -> get (set k v config) k' = get config k'.
Proof. intros Hne. unfold get, prop. rewrite set_lookup_ne by exact Hne. reflexivity. Qed.

Lemma get_Some (config : Config) (k : string) (v : JsValue) :
  get config k = v -> truthy v = true -> props config !! k = Some v.
Proof.
  unfold get, prop. destruct (props config !! k) as [w|]; cbn.
  - intros ->. reflexivity.
  - intros <-. discriminate.
Qed.

Lemma truthy_get (c : Config) (k : string) :
  truthy (get c k) = true <-> exists v, props c !! k = Some v /\ truthy v = true.
Proof.
  unfold get, prop. destruct (props c !! k) as [x|]; cbn.
  - split; [eauto | intros (v & [= <-] & Hv); exact Hv].
  - split; [discriminate | intros (v & [=] & _)].
Qed.

Lemma log_spec (e : Effect) (t : list Effect) : log e t = (Return tt, (t ++ [e])%list).
Proof. reflexivity. Qed.

(** *** Data attributes *)

Lemma attributes_Some (d : gmap string JsValue) (k : string) (v : JsValue) :
  attributes d !! k = Some v <->
  d !! k = Some v /\ k <> "input" /\ k <> "values" /\ truthy v = true.
Proof.
  unfold attributes. rewrite map_lookup_filter_Some. cbn.
  rewrite !not_elem_of_cons. split.
  - intros (Hk & (Hi & Hv & _) & Ht). auto.
  - intros (Hk & Hi & Hv & Ht). repeat split; auto. apply not_elem_of_nil.
Qed.

Lemma attribute_present (d : gmap string JsValue) (c : Config) (k : string) :
  k <> "input" -> k <> "values" -> props c !! k = d !! k ->
  bool_decide (is_Some (attributes d !! k)) = truthy (get c k).
Proof.
  intros Hi Hv Hk. destruct (truthy (get c k)) eqn:Ht.
  - apply bool_decide_eq_true_2. apply truthy_get in Ht as (v & Hp & Htv).
    exists v. apply attributes_Some. rewrite <- Hk. auto.
  - apply bool_decide_eq_false_2. intros [v Hd]. apply attributes_Some in Hd as (Hd & _ & _ & Htv).
    assert (truthy (get c k) = true) by (apply truthy_get; exists v; rewrite Hk; auto).
    congruence.
Qed.

(** The names that make [_addDataset] throw: the names of the attributes
    that the [dataset] refuses. *)
Lemma addDataset_cases (h : Host) (d : gmap string JsValue) :
  (_addDataset h d = Return (attributes d)
   /\ forall k v, attributes d !! k = Some v -> datasetRejects h k = false)
  \/ (_addDataset h d = Throw DOMException
      /\ exists k v, attributes d !! k = Some v /\ datasetRejects h k = true).
Proof.
  unfold _addDataset.
  destruct (decide (map_Forall _ (attributes d))) as [Hall | Hnot].
  - left. split; [reflexivity |]. intros k v Hk. exact (Hall k v Hk).
  - right. split; [reflexivity |].
    apply map_not_Forall in Hnot; [| apply _].
    destruct Hnot as (k & v & Hk & Hr). exists k, v. split; [exact Hk |].
    destruct (datasetRejects h k); [reflexivity | contradiction].
Qed.

Lemma addDataset_Return (h : Host) (d a : gmap string JsValue) :
  _addDataset h d = Return a ->
  a = attributes d /\ forall k v, a !! k = Some v -> datasetRejects h k = false.
Proof.
  destruct (addDataset_cases h d) as [[-> Hok] | [-> _]]; [| discriminate].
  intros [= <-]. auto.
Qed.

Lemma accepts_or_refuses (h : Host) (d : gmap string JsValue) :
  (accepts h d /\ _addDataset h d = Return (attributes d))
  \/ (refuses h d /\ _addDataset h d = Throw DOMException).
Proof.
  destruct (addDataset_cases h d) as [[E Hok] | [E Hbad]].
  - left. split; [| exact E]. intros k v Hk. exact (Hok k v Hk).
  - right. split; [exact Hbad | exact E].
Qed.

Lemma accepts_not_refuses (h : Host) (d : gmap string JsValue) :
  accepts h d -> ~ refuses h d.
Proof.
  intros Hok (k & v & Hk & Hr). specialize (Hok k v Hk). cbn in Hok. congruence.
Qed.

(** A link is built exactly when the [dataset] takes every attribute;
    otherwise the call throws. *)
Lemma createRollLink_cases (h : Host) (l : JsValue) (d : gmap string JsValue) :
  (accepts h d /\ createRollLink h l d = Return (RollLink l (attributes d)))
  \/ (refuses h d /\ createRollLink h l d = Throw DOMException).
Proof.
  unfold createRollLink.
  destruct (accepts_or_refuses h d) as [[H ->] | [H ->]]; [left | right]; split; auto.
Qed.

Lemma createPassiveTag_cases (h : Host) (l : JsValue) (d : gmap string JsValue) :
  (accepts h d /\ createPassiveTag h l d = Return (PassiveTag l (attributes d)))
  \/ (refuses h d /\ createPassiveTag h l d = Throw DOMException).
Proof.
  unfold createPassiveTag.
  destruct (accepts_or_refuses h d) as [[H ->] | [H ->]]; [left | right]; split; auto.
Qed.

(** *** The steps of [enrichCheck] *)

Section Steps.

Context (rs : Rules) (h : Host).

Lemma resolveSkill_spec (c : Config) (t : list Effect) :
  resolveSkill rs h c t =
  match truthy (get c "skill"), lookupSkill rs h c with
  | true, None =>
      (Return (c, true),
       (t ++ [Warned (SkillNotFound (get c "skill") (get c "input"))])%list)
  | true, Some sc =>
      let c1 := if truthy (get c "ability") then c else set "ability" (s_ability sc) c in
      (Return (if truthy (s_key sc) then set "skill" (s_key sc) c1 else c1, false), t)
  | false, Some sc =>
      (Return (if truthy (s_key sc) then set "skill" (s_key sc) c else c, false), t)
  | false, None => (Return (c, false), t)
  end.
Proof.
  unfold resolveSkill, mbind, Fallible_bind, mret, Fallible_ret.
  destruct (truthy (get c "skill")), (lookupSkill rs h c) as [sc|];
    try destruct (truthy (get c "ability")); cbn [negb];
    try destruct (truthy (s_key sc)); reflexivity.
Qed.

Lemma resolveTool_spec (c : Config) (toolIndex : option ToolIndex) (invalid : bool)
    (t : list Effect) :
  resolveTool c toolIndex invalid t =
  if truthy (get c "tool") && negb (bool_decide (is_Some toolIndex))
  then (Return true, (t ++ [Warned (ToolNotFound (get c "tool") (get c "input"))])%list)
  else (Return invalid, t).
Proof.
  unfold resolveTool.
  destruct (truthy (get c "tool") && negb (bool_decide (is_Some toolIndex))); reflexivity.
Qed.

Lemma resolveAbility_spec (c : Config) (invalid : bool) (t : list Effect) :
  resolveAbility rs h c invalid t =
  match lookupAbility rs h c with
  | Some ac =>
      (Return (if truthy (a_key ac) then set "ability" (a_key ac) c else c, invalid), t)
  | None =>
      (Return (c, true),
       (t ++ [Warned (if truthy (get c "ability")
                      then AbilityNotFound (get c "ability") (get c "input")
                      else NoAbilityProvided (get c "input"))])%list)
  end.
Proof.
  unfold resolveAbility, mbind, Fallible_bind, mret, Fallible_ret.
  destruct (lookupAbility rs h c) as [ac|].
  - destruct (truthy (a_key ac)); reflexivity.
  - destruct (truthy (get c "ability")); reflexivity.
Qed.

(** Lookups only depend on the property they read. *)
Lemma lookupTool_ext (c c' : Config) :
  get c' "tool" = get c "tool" -> lookupTool rs h c' = lookupTool rs h c.
Proof. intros E. unfold lookupTool. rewrite E. reflexivity. Qed.

Lemma lookupAbility_ext (c c' : Config) :
  get c' "ability" = get c "ability" -> lookupAbility rs h c' = lookupAbility rs h c.
Proof. intros E. unfold lookupAbility. rewrite E. reflexivity. Qed.

Lemma resolveDC_other (options : EnrichmentOptions) (c : Config) (k : string) :
  k <> "dc" -> get (resolveDC h options c) k = get c k.
Proof.
  intros Hk. unfold resolveDC.
  destruct (truthy (get c "dc") && negb (isNumeric h (get c "dc"))); [| reflexivity].
  apply get_set_ne. congruence.
Qed.

Lemma resolveDC_props (options : EnrichmentOptions) (c : Config) (k : string) :
  k <> "dc" -> props (resolveDC h options c) !! k = props c !! k.
Proof.
  intros Hk. unfold resolveDC.
  destruct (truthy (get c "dc") && negb (isNumeric h (get c "dc"))); [| reflexivity].
  apply set_lookup_ne. congruence.
Qed.

(** What the skill step hands on: the configuration, whether it has
    reported an unknown skill, and the log. *)
Lemma resolveSkill_result (c : Config) (t : list Effect) :
  exists (c1 : Config) (invalid : bool),
    resolveSkill rs h c t =
      (Return (c1, invalid),
       if invalid then (t ++ [Warned (SkillNotFound (get c "skill") (get c "input"))])%list
       else t)
    /\ (invalid = true <-> truthy (get c "skill") = true /\ lookupSkill rs h c = None)
    /\ get c1 "ability" =
         match truthy (get c "skill"), lookupSkill rs h c, truthy (get c "ability") with
         | true, Some sc, false => s_ability sc
         | _, _, _ => get c "ability"
         end
    /\ (forall k, k <> "ability" -> k <> "skill" -> props c1 !! k = props c !! k).
Proof.
  rewrite resolveSkill_spec.
  destruct (truthy (get c "skill")) eqn:Hs, (lookupSkill rs h c) as [sc|] eqn:Hl.
  - destruct (truthy (get c "ability")) eqn:Ha; cbv zeta;
      destruct (truthy (s_key sc)); eexists _, false;
      (split; [reflexivity |]); (split; [split; [discriminate | intros [_ ?]; discriminate] |]);
      (split; [rewrite ?get_set_ne, ?get_set_eq by discriminate; reflexivity |]);
      intros k Hka Hks; rewrite ?set_lookup_ne by congruence; reflexivity.
  - exists c, true. split; [reflexivity |]. split; [tauto |]. split; [reflexivity |].
    intros; reflexivity.
  - destruct (truthy (s_key sc)); eexists _, false;
      (split; [reflexivity |]); (split; [split; [discriminate | intros [? _]; discriminate] |]);
      (split; [rewrite ?get_set_ne by discriminate; reflexivity |]);
      intros k Hka Hks; rewrite ?set_lookup_ne by congruence; reflexivity.
  - exists c, false. split; [reflexivity |].
    split; [split; [discriminate | intros [? _]; discriminate] |].
    split; [reflexivity |]. intros; reflexivity.
Qed.

Lemma props_get (c c' : Config) (k : string) :
  props c' !! k = props c !! k -> get c' k = get c k.
Proof. intros E. unfold get, prop. rewrite E. reflexivity. Qed.

End Steps.

Section CheckOutcome.

Context (rs : Rules) (h : Host).

Lemma iterate_throws (v : Values) (e : ErrorKind) : iterate v = Throw e -> e = TypeError.
Proof. destruct v as [ws | []]; cbn; congruence. Qed.

Lemma classifyCheckValues_cases (config : Config) :
  match iterate (values config) with
  | Return words =>
      classifyCheckValues rs h config =
        Return (fold_left (classifyCheckValue rs h) words config)
  | Throw e => classifyCheckValues rs h config = Throw TypeError /\ e = TypeError
  end.
Proof.
  unfold classifyCheckValues. destruct (iterate (values config)) as [words | e] eqn:E.
  - reflexivity.
  - apply iterate_throws in E as ->. split; reflexivity.
Qed.

Lemma classifySaveValues_cases (config : Config) :
  match iterate (values config) with
  | Return words =>
      classifySaveValues rs h config =
        Return (fold_left (classifySaveValue rs h) words config)
  | Throw e => classifySaveValues rs h config = Throw TypeError /\ e = TypeError
  end.
Proof.
  unfold classifySaveValues. destruct (iterate (values config)) as [words | e] eqn:E.
  - reflexivity.
  - apply iterate_throws in E as ->. split; reflexivity.
Qed.

(** Values that cannot be iterated end the enrichment before anything is
    logged. *)
Lemma enrichCheck_not_iterable (config : Config) (label : JsValue)
    (options : EnrichmentOptions) (t : list Effect) (e : ErrorKind) :
  classifyCheckValues rs h config = Throw e ->
  e = TypeError /\ enrichCheck rs h config label options t = (Throw TypeError, t).
Proof.
  intros E. pose proof (classifyCheckValues_cases config) as H.
  destruct (iterate (values config)); [congruence |]. destruct H as [H _].
  assert (e = TypeError) as -> by congruence. split; [reflexivity |].
  unfold enrichCheck, mbind, Fallible_bind, complete. rewrite E. reflexivity.
Qed.

(** Every run of [enrichCheck] on values that can be iterated. The skill
    step comes first; a tool found among the inherited members is handed
    to [Trait.getBaseItem], which may throw; then either something has
    been warned about and [config.input] comes back, or nothing has and
    the element is asked for, from the resolved configuration, which
    differs from the classified one in [ability], [skill] and [dc] at
    most. *)
Lemma enrichCheck_cases (config : Config) (label : JsValue) (options : EnrichmentOptions)
    (t : list Effect) (c : Config) :
  classifyCheckValues rs h config = Return c ->
  exists (c1 : Config) (invalid : bool) (t1 : list Effect),
    resolveSkill rs h c t = (Return (c1, invalid), t1)
    /\ match lookupTool rs h c with
       | Throw e => enrichCheck rs h config label options t = (Throw e, t1)
       | Return toolIndex =>
           match lookupAbility rs h c1 with
           | Some ac =>
               if invalid || truthy (get c "tool") && negb (bool_decide (is_Some toolIndex))
               then
                 exists ws,
                   enrichCheck rs h config label options t =
                     (Return (Input (get c "input")), (t ++ ws)%list)
                   /\ ws <> [] /\ forallb is_warning ws = true
               else
                 exists c' l,
                   enrichCheck rs h config label options t =
                     (Built <$> (if truthy (get c' "passive")
                                 then createPassiveTag h l (props c')
                                 else createRollLink h l
                                        (props c' ∪ {["type" := JStr (checkType c')]})), t)
                   /\ (truthy label = true -> l = label)
                   /\ get c' "ability" =
                        (if truthy (a_key ac) then a_key ac else get c1 "ability")
                   /\ (forall k, k <> "ability" -> k <> "skill" -> k <> "dc" ->
                       props c' !! k = props c !! k)
           | None =>
               exists ws,
                 enrichCheck rs h config label options t =
                   (Return (Input (get c "input")), (t ++ ws)%list)
                 /\ ws <> [] /\ forallb is_warning ws = true
           end
       end.
Proof.
  intros Hc.
  remember (enrichCheck rs h config label options t) as result eqn:Hres.
  unfold enrichCheck in Hres. rewrite Hc in Hres.
  unfold mbind, Fallible_bind, complete in Hres.
  destruct (resolveSkill_result rs h c t) as (c1 & inv1 & Hrun & Hinv & Hab & Hprops).
  exists c1, inv1. eexists. split; [exact Hrun |].
  rewrite Hrun in Hres.
  assert (Hto : get c1 "tool" = get c "tool") by (apply props_get, Hprops; discriminate).
  assert (Hin : get c1 "input" = get c "input") by (apply props_get, Hprops; discriminate).
  rewrite (lookupTool_ext rs h c c1 Hto) in Hres.
  destruct (lookupTool rs h c) as [toolIndex | e]; [| exact Hres].
  rewrite resolveTool_spec, Hto, Hin in Hres.
  assert (Hdc : forall c3 : Config,
             get c3 "input" = get c1 "input" ->
             get (resolveDC h options c3) "input" = get c "input").
  { intros c3 E. rewrite resolveDC_other by discriminate. congruence. }
  assert (Hkey : forall ac : AbilityConfig,
             get (if truthy (a_key ac) then set "ability" (a_key ac) c1 else c1) "input"
             = get c1 "input").
  { intros ac. destruct (truthy (a_key ac)); [apply get_set_ne; discriminate | reflexivity]. }
  destruct (truthy (get c "tool") && negb (bool_decide (is_Some toolIndex))) eqn:Htool;
    rewrite resolveAbility_spec in Hres;
    destruct (lookupAbility rs h c1) as [ac|]; destruct inv1; cbn [orb];
    cbv beta iota zeta in Hres; rewrite ?Hdc in Hres by (apply Hkey || reflexivity).
  all: try (eexists; split; [rewrite <- ?(assoc_L (++)) in Hres; exact Hres |];
            split; [cbn; discriminate | reflexivity]).
  set (c3 := if truthy (a_key ac) then set "ability" (a_key ac) c1 else c1) in *.
  assert (Hother : forall k, k <> "ability" -> k <> "skill" -> k <> "dc" ->
                     props (resolveDC h options c3) !! k = props c !! k).
  { intros k Ha Hs Hd. rewrite resolveDC_props by exact Hd. subst c3.
    destruct (truthy (a_key ac)); rewrite ?set_lookup_ne by congruence; apply Hprops; assumption. }
  assert (Hability : get (resolveDC h options c3) "ability" =
                       (if truthy (a_key ac) then a_key ac else get c1 "ability")).
  { rewrite resolveDC_other by discriminate. subst c3.
    destruct (truthy (a_key ac)); [apply get_set_eq; discriminate | reflexivity]. }
  exists (resolveDC h options c3).
  destruct (truthy label) eqn:Hl; cbn [negb] in Hres.
  - exists label. unfold checkType.
    split; [| split; [reflexivity | split; [exact Hability | exact Hother]]].
    rewrite Hres. destruct (truthy (get (resolveDC h options c3) "passive")); reflexivity.
  - eexists. unfold checkType.
    split; [| split; [discriminate | split; [exact Hability | exact Hother]]].
    rewrite Hres. destruct (truthy (get (resolveDC h options c3) "passive")); reflexivity.
Qed.

End CheckOutcome.

(** *** Unknown references *)

Section Unknown.

Context (rs : Rules) (h : Host).

(** A check that refers to a skill, tool or ability that the tables do
    not have, not even as an inherited member, warns and hands back
    [config.input]. *)
Lemma unknown_check_reference_returns_input (config : Config) (label : JsValue)
    (options : EnrichmentOptions) (t : list Effect) (c : Config)
    (toolIndex : option ToolIndex) :
  classifyCheckValues rs h config = Return c ->
  lookupTool rs h c = Return toolIndex ->
  (truthy (get c "skill") = true /\ lookupSkill rs h c = None)
  \/ (truthy (get c "tool") = true /\ toolIndex = None)
  \/ (truthy (get c "ability") = true /\ lookupAbility rs h c = None) ->
  exists ws,
    enrichCheck rs h config label options t = (Return (Input (get c "input")), (t ++ ws)%list)
    /\ ws <> [] /\ forallb is_warning ws = true.
Proof.
  intros Hc Htool Hbad.
  destruct (enrichCheck_cases rs h config label options t c Hc)
    as (c1 & inv1 & t1 & Hrun & Hcases).
  destruct (resolveSkill_result rs h c t) as (c1' & inv1' & Hrun' & Hinv & Hab & _).
  rewrite Hrun in Hrun'. injection Hrun' as <- <- _.
  rewrite Htool in Hcases.
  destruct (lookupAbility rs h c1) as [ac|] eqn:Hac; [| exact Hcases].
  destruct (inv1 || truthy (get c "tool") && negb (bool_decide (is_Some toolIndex))) eqn:Hinvalid;
    [exact Hcases |].
  exfalso. apply orb_false_iff in Hinvalid as [-> Htoolok].
  destruct Hbad as [Hbad | [[Ht ->] | [Ha Hn]]].
  - apply Hinv in Hbad. discriminate.
  - rewrite Ht in Htoolok. discriminate.
  - rewrite Ha in Hab.
    assert (E : get c1 "ability" = get c "ability").
    { rewrite Hab. destruct (truthy (get c "skill")), (lookupSkill rs h c); reflexivity. }
    rewrite (lookupAbility_ext rs h c c1 E) in Hac. congruence.
Qed.

Lemma classifyCheckValue_other (c : Config) (value k : string) :
  k <> "ability" -> k <> "skill" -> k <> "tool" -> k <> "dc" -> k <> value ->
  get (classifyCheckValue rs h c value) k = get c k.
Proof.
  intros. unfold classifyCheckValue.
  repeat case_match; apply get_set_ne; congruence.
Qed.

Lemma classifySaveValue_other (c : Config) (value k : string) :
  k <> "ability" -> k <> "dc" -> k <> value ->
  get (classifySaveValue rs h c value) k = get c k.
Proof.
  intros. unfold classifySaveValue.
  repeat case_match; apply get_set_ne; congruence.
Qed.

Lemma fold_classifyCheck_other (vs : list string) (c : Config) (k : string) :
  k <> "ability" -> k <> "skill" -> k <> "tool" -> k <> "dc" -> k ∉ vs ->
  get (fold_left (classifyCheckValue rs h) vs c) k = get c k.
Proof.
  intros Ha Hs Ht Hd. revert c.
  induction vs as [|v vs IH]; intros c Hk; [reflexivity |].
  apply not_elem_of_cons in Hk as [Hv Hvs]. cbn [fold_left].
  rewrite IH by exact Hvs. apply classifyCheckValue_other; congruence.
Qed.

Lemma fold_classifySave_other (vs : list string) (c : Config) (k : string) :
  k <> "ability" -> k <> "dc" -> k ∉ vs ->
  get (fold_left (classifySaveValue rs h) vs c) k = get c k.
Proof.
  intros Ha Hd. revert c.
  induction vs as [|v vs IH]; intros c Hk; [reflexivity |].
  apply not_elem_of_cons in Hk as [Hv Hvs]. cbn [fold_left].
  rewrite IH by exact Hvs. apply classifySaveValue_other; congruence.
Qed.

(** A save whose ability the table does not have, not even as an
    inherited member, warns and hands back [config.input]. *)
Lemma unknown_save_reference_returns_input (config : Config) (label : JsValue)
    (options : EnrichmentOptions) (t : list Effect) (c : Config) :
  classifySaveValues rs h config = Return c ->
  lookupAbility rs h c = None ->
  enrichSave rs h config label options t =
    (Return (Input (get c "input")),
     (t ++ [Warned (AbilityNotFound (get c "ability") (get c "input"))])%list).
Proof.
  intros Hc Hnone. unfold enrichSave, mbind, Fallible_bind, complete.
  rewrite Hc, Hnone. reflexivity.
Qed.

(** [config.input] survives the classification of the values unless the
    bare word [input] is among them. *)
Lemma classified_input_unchanged (config : Config) (words : list string) :
  iterate (values config) = Return words ->
  "input" ∉ words ->
  (exists c, classifyCheckValues rs h config = Return c
             /\ get c "input" = get config "input")
  /\ (exists c, classifySaveValues rs h config = Return c
                /\ get c "input" = get config "input").
Proof.
  intros Hwords Hin. split.
  - pose proof (classifyCheckValues_cases rs h config) as H. rewrite Hwords in H.
    eexists. split; [exact H |].
    apply fold_classifyCheck_other; [discriminate.. | exact Hin].
  - pose proof (classifySaveValues_cases rs h config) as H. rewrite Hwords in H.
    eexists. split; [exact H |].
    apply fold_classifySave_other; [discriminate.. | exact Hin].
Qed.

End Unknown.

(** *** Known skills *)

Lemma attributes_lookup (d : gmap string JsValue) (k : string) (v : JsValue) :
  k <> "input" -> k <> "values" -> d !! k = Some v ->
  attributes d !! k = (if truthy v then Some v else None).
Proof.
  intros Hi Hv Hk. destruct (truthy v) eqn:Ht.
  - apply attributes_Some. auto.
  - destruct (attributes d !! k) as [w|] eqn:E; [| reflexivity].
    apply attributes_Some in E as (E & _ & _ & Hw). congruence.
Qed.

Lemma attributes_absent (d : gmap string JsValue) (k : string) :
  d !! k = None -> attributes d !! k = None.
Proof.
  intros Hk. destruct (attributes d !! k) as [w|] eqn:E; [| reflexivity].
  apply attributes_Some in E as (E & _). congruence.
Qed.

(** The attribute a link or tag gets for a property of the configuration
    it is built from. *)
Lemma attribute_of_property (c : Config) (k : string) :
  k <> "input" -> k <> "values" ->
  attributes (props c) !! k = (if truthy (get c k) then Some (get c k) else None).
Proof.
  intros Hi Hv. unfold get, prop. destruct (props c !! k) as [v|] eqn:E; cbn [default].
  - apply attributes_lookup; assumption.
  - cbn. apply attributes_absent. exact E.
Qed.

Lemma attribute_beside_type (c : Config) (k : string) (w : JsValue) :
  k <> "input" -> k <> "values" -> k <> "type" ->
  attributes (props c ∪ {["type" := w]}) !! k
  = (if truthy (get c k) then Some (get c k) else None).
Proof.
  intros Hi Hv Ht. rewrite <- attribute_of_property by assumption.
  destruct (props c !! k) as [v|] eqn:E.
  - rewrite (attributes_lookup (props c) k v), (attributes_lookup (props c ∪ _) k v);
      try assumption; [reflexivity |].
    apply lookup_union_Some_l. exact E.
  - rewrite !attributes_absent; [reflexivity | exact E |].
    apply lookup_union_None. split; [exact E | apply lookup_singleton_ne; congruence].
Qed.

(** C8, as stated, fails: [[[/check skill=acr ability=false]]] supplies an
    ability, and the link is built with the default ability of the skill
    in its place. *)
Lemma supplied_false_ability_is_overridden :
  props check_acrobatics_false !! "ability" = Some (JBool false)
  /\ exists (l : JsValue) (d : gmap string JsValue),
       enrichCheck rules host check_acrobatics_false JUndefined no_options [] =
         (Return (Built (RollLink l d)), [])
       /\ d !! "ability" = Some (JStr "dex")
       /\ d !! "ability" <> Some (JBool false).
Proof.
  split; [vm_compute; reflexivity |].
  eexists _, _. split; [vm_compute; reflexivity |].
  split; [vm_compute; reflexivity | vm_compute; discriminate].
Qed.

(** C8, amended. Take a check whose classified configuration names a skill
    that the skills table has. The skill step reports nothing and leaves
    as ability the supplied one when that is truthy, and the [ability]
    configured for the skill otherwise: a truthy supplied ability is never
    replaced, a falsy one ([false], 0, the empty string) counts as none.
    What follows depends on the tool and on the ability table. If the tool
    is an inherited member on which [Trait.getBaseItem] throws, so does
    the enricher. If the tool or the ability is unknown, warnings are
    logged and [config.input] comes back. Otherwise the element is asked
    for with that ability as its [ability] attribute, under the short key
    when the table entry names one and without the attribute when the
    value is falsy: it is built when the [dataset] takes all attribute
    names, and the enricher throws when it refuses one. *)
Theorem skill_supplies_default_ability (rs : Rules) (h : Host) (config : Config)
    (label : JsValue) (options : EnrichmentOptions) (c : Config) (sc : SkillConfig) :
  classifyCheckValues rs h config = Return c ->
  truthy (get c "skill") = true ->
  lookupSkill rs h c = Some sc ->
  let a := if truthy (get c "ability") then get c "ability" else s_ability sc in
  forall t : list Effect,
    exists c1 : Config,
      resolveSkill rs h c t = (Return (c1, false), t)
      /\ get c1 "ability" = a
      /\ match lookupTool rs h c, lookupAbility rs h c1 with
         | Throw e, _ => enrichCheck rs h config label options t = (Throw e, t)
         | Return toolIndex, Some ac =>
             if truthy (get c "tool") && negb (bool_decide (is_Some toolIndex))
             then
               exists ws,
                 enrichCheck rs h config label options t =
                   (Return (Input (get c "input")), (t ++ ws)%list)
                 /\ ws <> []
             else
               let a' := if truthy (a_key ac) then a_key ac else a in
               exists (l : JsValue) (d : gmap string JsValue),
                 attributes d !! "ability" = (if truthy a' then Some a' else None)
                 /\ ((accepts h d
                      /\ exists e,
                           enrichCheck rs h config label options t = (Return (Built e), t)
                           /\ dataset_of e = attributes d)
                     \/ (refuses h d
                         /\ enrichCheck rs h config label options t = (Throw DOMException, t)))
         | Return _, None =>
             exists ws,
               enrichCheck rs h config label options t =
                 (Return (Input (get c "input")), (t ++ ws)%list)
               /\ ws <> []
         end.
Proof.
  intros Hc Hskill Hlookup a t.
  destruct (enrichCheck_cases rs h config label options t c Hc)
    as (c1 & inv1 & t1 & Hrun & Hcases).
  destruct (resolveSkill_result rs h c t) as (c1' & inv1' & Hrun' & Hinv & Hab & _).
  rewrite Hrun in Hrun'. injection Hrun' as <- <- Ht1.
  assert (inv1 = false) as ->.
  { destruct inv1; [| reflexivity]. destruct Hinv as [Hinv _].
    destruct (Hinv eq_refl) as [_ Hnone]. congruence. }
  subst t1. rewrite Hskill, Hlookup in Hab.
  assert (Hab' : get c1 "ability" = a).
  { rewrite Hab. subst a. destruct (truthy (get c "ability")); reflexivity. }
  exists c1. split; [exact Hrun |]. split; [exact Hab' |].
  destruct (lookupTool rs h c) as [toolIndex | e]; [| exact Hcases].
  destruct (lookupAbility rs h c1) as [ac|].
  2: { destruct Hcases as (ws & Hr & Hne & _). eauto. }
  cbn [orb] in Hcases.
  destruct (truthy (get c "tool") && negb (bool_decide (is_Some toolIndex))).
  { destruct Hcases as (ws & Hr & Hne & _). eauto. }
  destruct Hcases as (c' & l & Hr & _ & Hability & _). rewrite Hab' in Hability.
  cbv zeta. rewrite <- Hability.
  destruct (truthy (get c' "passive")).
  - exists l, (props c'). split; [apply attribute_of_property; discriminate |].
    rewrite Hr. destruct (createPassiveTag_cases h l (props c')) as [[Hok ->] | [Hbad ->]].
    + left. split; [exact Hok |]. eexists. split; reflexivity.
    + right. split; [exact Hbad | reflexivity].
  - exists l, (props c' ∪ {["type" := JStr (checkType c')]}).
    split; [apply attribute_beside_type; discriminate |].
    rewrite Hr. destruct (createRollLink_cases h l (props c' ∪ {["type" := JStr (checkType c')]}))
      as [[Hok ->] | [Hbad ->]].
    + left. split; [exact Hok |]. eexists. split; reflexivity.
    + right. split; [exact Hbad | reflexivity].
Qed.

(** The premises of C8 hold for [[[/check skill=acr dc=20]]]: the skill
    step supplies "dex", and the link carries it. *)
Lemma skill_supplies_default_ability_witness :
  exists c1 : Config,
    resolveSkill rules host check_acrobatics [] = (Return (c1, false), [])
    /\ get c1 "ability" = JStr "dex"
    /\ exists (l : JsValue) (d : gmap string JsValue),
         attributes d !! "ability" = Some (JStr "dex")
         /\ ((accepts host d
              /\ exists e,
                   enrichCheck rules host check_acrobatics JUndefined no_options [] =
                     (Return (Built e), [])
                   /\ dataset_of e = attributes d)
             \/ (refuses host d
                 /\ enrichCheck rules host check_acrobatics JUndefined no_options [] =
                      (Throw DOMException, []))).
Proof.
  pose (sc := {| s_label := JStr "Acrobatics"; s_ability := JStr "dex"; s_key := JUndefined |}).
  destruct (skill_supplies_default_ability rules host check_acrobatics JUndefined no_options
              check_acrobatics sc eq_refl eq_refl eq_refl [])
    as (c1 & Hrun & Hab & Hrest).
  exists c1. split; [exact Hrun |]. split; [exact Hab |].
  assert (Hability : lookupAbility rules host c1 =
                       Some {| a_label := JStr "Dexterity"; a_key := JUndefined |}).
  { unfold lookupAbility. rewrite Hab. vm_compute. reflexivity. }
  rewrite Hability in Hrest. exact Hrest.
Defined.

(** [[[/check ability=str skill=acr]]] keeps the supplied strength. *)
Example explicit_strength_is_kept :
  exists label dataset,
    enrichCheck rules host check_acrobatics_str JUndefined no_options [] =
      (Return (Built (RollLink label dataset)), [])
    /\ dataset !! "ability" = Some (JStr "str")
    /\ dataset !! "skill" = Some (JStr "acr")
    /\ dataset !! "type" = Some (JStr "skill").
Proof. eexists _, _. repeat split; vm_compute; reflexivity. Qed.

(** C9. The code at the failing inputs [[[/check skill=xyz input]]] and
    [[[/save ability=xyz input]]]: the unknown key is reported, but the bare
    word [input] has been stored as a flag over the saved text, so the
    enricher hands back [true] and not the text it was given. *)
Theorem bare_input_word_replaces_returned_text :
  enrichCheck rules host check_unknown_skill_input JUndefined no_options [] =
    (Return (Input (JBool true)),
     [Warned (SkillNotFound (JStr "xyz") (JBool true));
      Warned (NoAbilityProvided (JBool true))])
  /\ get check_unknown_skill_input "input" = JStr "[[/check skill=xyz input]]"
  /\ enrichSave rules host save_unknown_ability_input JUndefined no_options [] =
       (Return (Input (JBool true)), [Warned (AbilityNotFound (JStr "xyz") (JBool true))])
  /\ get save_unknown_ability_input "input" = JStr "[[/save ability=xyz input]]".
Proof. repeat split; vm_compute; reflexivity. Qed.

(** Without the bare word the same references give the text back. *)
Lemma unknown_skill_returns_text :
  enrichCheck rules host check_unknown_skill JUndefined no_options [] =
    (Return (Input (JStr "[[/check skill=xyz]]")),
     [Warned (SkillNotFound (JStr "xyz") (JStr "[[/check skill=xyz]]"));
      Warned (NoAbilityProvided (JStr "[[/check skill=xyz]]"))])
  /\ enrichSave rules host save_unknown_ability JUndefined no_options [] =
       (Return (Input (JStr "[[/save ability=xyz]]")),
        [Warned (AbilityNotFound (JStr "xyz") (JStr "[[/save ability=xyz]]"))]).
Proof. split; vm_compute; reflexivity. Qed.

(** *** The average of a damage link *)

Section Damage.

Context (rs : Rules) (h : Host).

Lemma damageConfig_other (c : Config) (k : string) :
  k <> "type" -> k <> "damageType" -> get (damageConfig c) k = get c k.
Proof. intros Ht Hd. unfold damageConfig. rewrite !get_set_ne by congruence. reflexivity. Qed.

(** Every run of [enrichDamage] on values that can be iterated: nothing
    for an empty formula; with a label the link; without one the link and
    the localised type are asked for first, and either may throw; then
    [average = true] asks for the two evaluations, each of which may
    throw, any other truthy average gives the long form, showing the
    average when it is numeric, and a falsy one gives the short form. *)
Lemma enrichDamage_cases (config : Config) (label : JsValue) (options : EnrichmentOptions)
    (t : list Effect) (c : Config) :
  damageFormula rs h config options = Return c ->
  let formula := to_string h (get c "formula") in
  enrichDamage rs h config label options t =
    if negb (truthy (get c "formula")) then (Return Null, t)
    else if truthy label
    then (Built <$> createRollLink h label (props (damageConfig c)), t)
    else
      match createRollLink h (get c "formula") (props (damageConfig c)) with
      | Throw e => (Throw e, t)
      | Return link =>
          match damageTypeLabel rs h (damageConfig c) with
          | Throw e => (Throw e, t)
          | Return typeLabel =>
              let localizationData : gmap string JsValue :=
                <["type" := JStr typeLabel]> (<["formula" := JStr (outerHTML h link)]> ∅) in
              match get c "average" with
              | JBool true =>
                  match evaluate h Minimize formula with
                  | Throw e => (Throw e, (t ++ [FormulaEvaluated Minimize formula])%list)
                  | Return minRoll =>
                      match evaluate h Maximize formula with
                      | Throw e =>
                          (Throw e,
                           (t ++ [FormulaEvaluated Minimize formula;
                                  FormulaEvaluated Maximize formula])%list)
                      | Return maxRoll =>
                          (Return (Built (Span "EDITOR.DND5E.Inline.DamageLong"
                                            (<["average" := computedAverage h minRoll maxRoll]>
                                               localizationData))),
                           (t ++ [FormulaEvaluated Minimize formula;
                                  FormulaEvaluated Maximize formula])%list)
                      end
                  end
              | average =>
                  (Return (Built (Span (if truthy average
                                        then "EDITOR.DND5E.Inline.DamageLong"
                                        else "EDITOR.DND5E.Inline.DamageShort")
                                    (if truthy average && isNumeric h average
                                     then <["average" := average]> localizationData
                                     else localizationData))), t)
              end
          end
      end.
Proof.
  intros Hc formula. unfold enrichDamage. rewrite Hc.
  unfold mbind at 1, Fallible_bind at 1, complete at 1.
  destruct (truthy (get c "formula")); cbn [negb]; [| reflexivity].
  fold (damageConfig c).
  destruct (truthy label); [reflexivity |].
  rewrite !damageConfig_other by discriminate. fold formula.
  unfold mbind at 1, Fallible_bind at 1, complete at 1.
  destruct (createRollLink h (get c "formula") (props (damageConfig c))) as [link | e];
    [| reflexivity].
  unfold mbind at 1, Fallible_bind at 1, complete at 1.
  destruct (damageTypeLabel rs h (damageConfig c)) as [typeLabel | e]; [| reflexivity].
  cbv zeta.
  destruct (get c "average") as [| |[|]|n|s]; try reflexivity.
  - unfold mbind, Fallible_bind, complete, log, mret, Fallible_ret.
    destruct (evaluate h Minimize formula) as [minRoll | e]; [| reflexivity].
    destruct (evaluate h Maximize formula) as [maxRoll | e];
      cbn [truthy]; rewrite <- (assoc_L (++)); reflexivity.
  - destruct (truthy (JNum n)); cbn [andb]; [| reflexivity].
    destruct (isNumeric h (JNum n)); reflexivity.
  - destruct (truthy (JStr s)); cbn [andb]; [| reflexivity].
    destruct (isNumeric h (JStr s)); reflexivity.
Qed.



End Damage.




(** On a host that answers with promises the same enrichment displays
    [NaN]. *)
Lemma promised_totals_give_NaN :
  exists r,
    enrichDamage rules host_promising damage_2d6_average JUndefined no_options [] =
      (Return r, [FormulaEvaluated Minimize "2d6"; FormulaEvaluated Maximize "2d6"])
    /\ displayedAverage r = Some (JNum NaN).
Proof. eexists. split; vm_compute; reflexivity. Qed.

End EnricherFacts.

(* ===================================================================== *)
(** * Properties of the advancement updates *)
(* ===================================================================== *)

Module AdvancementFacts.

Import Advancement Examples.

Lemma filter_keeps_all (P : string -> Prop) `{forall i, Decision (P i)} (l : list string) :
  (forall i, i ∈ l -> P i) -> filter P l = l.
Proof.
  induction l as [|x l IH]; intros Hall; [reflexivity |].
  rewrite filter_cons_True by (apply Hall; left).
  f_equal. apply IH. intros i Hi. apply Hall. right. exact Hi.
Qed.

Lemma filter_drops_all (P : string -> Prop) `{forall i, Decision (P i)} (l : list string) :
  (forall i, i ∈ l -> ~ P i) -> filter P l = [].
Proof.
  induction l as [|x l IH]; intros Hnone; [reflexivity |].
  rewrite filter_cons_False by (apply Hnone; left).
  apply IH. intros i Hi. apply Hnone. right. exact Hi.
Qed.

(** Removing from the owned items what has just been added gives the
    owned items back, provided none of the additions was owned already. *)
Lemma remove_added (owned added : list string) :
  (forall i, i ∈ added -> i ∉ owned) ->
  filter (fun i => i ∉ added) (owned ++ added)%list = owned.
Proof.
  intros Hfresh. rewrite filter_app.
  rewrite (filter_drops_all (fun i => i ∉ added) added) by (intros i Hi Hn; exact (Hn Hi)).
  rewrite app_nil_r. apply filter_keeps_all. intros i Hi Ha. exact (Hfresh i Ha Hi).
Qed.

(** For any advancement type: if at this character the reverse property
    updates undo the forward ones, the forward step only adds items the
    character does not own, and the reverse step removes exactly those,
    then reversing after applying restores the character. *)
Lemma reverse_after_apply {A} `{AdvancementType A} (adv : A) (lvl : Z)
    (delta : option (gmap string JsValue)) (c : Character) :
  let fwd := {| level := lvl; updates := delta; reverse := JBool false |} in
  let bwd := {| level := lvl; updates := None; reverse := JBool true |} in
  inverts (propertyUpdates adv fwd) (propertyUpdates adv bwd) (properties c) ->
  remove (itemUpdates adv fwd) = [] ->
  add (itemUpdates adv bwd) = [] ->
  remove (itemUpdates adv bwd) = add (itemUpdates adv fwd) ->
  (forall i, i ∈ add (itemUpdates adv fwd) -> i ∉ items c) ->
  reverseLevel adv lvl (applyLevel adv lvl delta c) = c.
Proof.
  intros fwd bwd Hinv Hrf Hab Hrb Hfresh.
  unfold reverseLevel, applyLevel, computeAndStore. fold fwd bwd. cbn [properties items].
  rewrite Hrf, Hab, Hrb. unfold inverts in Hinv. rewrite Hinv.
  rewrite app_nil_r.
  rewrite (filter_keeps_all (fun i => i ∉ []) (items c ++ add (itemUpdates adv fwd))%list)
    by (intros i _; apply not_elem_of_nil).
  rewrite remove_added by exact Hfresh. destruct c; reflexivity.
Qed.


(** An improvement changes a character it applies to, and reversing it
    restores every character that has the previous value at its path and
    does not own the feature yet. *)
Lemma improvement_round_trip (adv : Improvement) (lvl : Z)
    (delta : option (gmap string JsValue)) (c : Character) :
  properties c !! path adv = Some (before adv) ->
  feature adv ∉ items c ->
  reverseLevel adv lvl (applyLevel adv lvl delta c) = c
  /\ (lvl = at_level adv ->
      properties (applyLevel adv lvl delta c) !! path adv = Some (after adv)
      /\ feature adv ∈ items (applyLevel adv lvl delta c)).
Proof.
  intros Hpath Hfresh. split.
  - apply reverse_after_apply; cbn; destruct (bool_decide (lvl = at_level adv)); cbn;
      try reflexivity.
    + unfold inverts, mergeObject. apply map_eq. intros k.
      destruct (decide (k = path adv)) as [-> | Hne].
      * rewrite (lookup_union_Some_l _ _ _ (before adv)); [symmetry; exact Hpath |].
        apply lookup_singleton_eq.
      * rewrite !lookup_union_r by (apply lookup_singleton_ne; congruence). reflexivity.
    + unfold inverts, mergeObject. rewrite !(left_id_L ∅ (∪)). reflexivity.
    + intros i Hi. apply list_elem_of_singleton in Hi as ->. exact Hfresh.
    + intros i Hi. exfalso. exact (not_elem_of_nil i Hi).
  - intros ->. unfold applyLevel, computeAndStore. cbn.
    rewrite bool_decide_eq_true_2 by reflexivity. cbn. split.
    + unfold mergeObject. apply lookup_union_Some_l. apply lookup_singleton_eq.
    + apply list_elem_of_filter. split; [apply not_elem_of_nil |].
      apply elem_of_app. right. left.
Qed.



(** Evaluated on the examples: the fighter comes back unchanged from the
    base class as well. *)
Lemma fighter_round_trip :
  reverseLevel ability_score_improvement 4 (applyLevel ability_score_improvement 4 None fighter)
  = fighter.
Proof. vm_compute. reflexivity. Qed.

End AdvancementFacts.

(* ===================================================================== *)
(** * Properties of the proficiency cycle *)
(* ===================================================================== *)

Module ProficiencyFacts.

Import ProficiencyCycle Examples.

Lemma Qeq_bool_right (a q r : Q) : (q == r)%Q -> Qeq_bool a q = Qeq_bool a r.
Proof. intros E. rewrite E. reflexivity. Qed.

Lemma Qeq_bool_left (a q r : Q) : (q == r)%Q -> Qeq_bool q a = Qeq_bool r a.
Proof. intros E. rewrite E. reflexivity. Qed.

Lemma includes_cases (l : list JsNumber) (v : JsNumber) :
  includes l v = true -> exists x, In x l /\ num_same_value_zero v x = true.
Proof. unfold includes. intros H. apply existsb_exists in H. exact H. Qed.

Lemma valid_value_cases (el : ProficiencyCycleElement) :
  includes (validValues el) (value el) = true ->
  exists q r, value el = Finite q /\ (q == r)%Q /\ In (Finite r) (validValues el).
Proof.
  intros H. apply includes_cases in H as (x & Hin & Heq).
  destruct (value el) as [|q] eqn:Hv, x as [|r]; cbn in Heq; try discriminate.
  - exfalso. unfold validValues in Hin. destruct (String.eqb _ _); cbn in Hin; intuition discriminate.
  - exists q, r. split; [reflexivity |]. split; [apply Qeq_bool_iff; exact Heq | exact Hin].
Qed.

Lemma indexOf_from_congr (l : list JsNumber) (q r : Q) (i : Z) :
  (q == r)%Q -> indexOf_from l (Finite q) i = indexOf_from l (Finite r) i.
Proof.
  intros E. revert i. induction l as [|x l IH]; intros i; [reflexivity |].
  cbn [indexOf_from]. rewrite IH.
  destruct x as [|a]; cbn [num_strict_eq]; [reflexivity |].
  rewrite (Qeq_bool_right a q r E). reflexivity.
Qed.

Lemma indexOf_congr (l : list JsNumber) (q r : Q) :
  (q == r)%Q -> indexOf l (Finite q) = indexOf l (Finite r).
Proof. apply indexOf_from_congr. Qed.

Lemma neighbour_congr (levels : list JsNumber) (up : bool) (q r : Q) :
  (q == r)%Q -> neighbour levels up (Finite q) = neighbour levels up (Finite r).
Proof. intros E. unfold neighbour. rewrite (indexOf_congr levels q r E). reflexivity. Qed.

(** On both lists every valid value has valid neighbours, and going up and
    then down comes back. *)
Lemma neighbour_valid (el : ProficiencyCycleElement) (up : bool) (r : Q) :
  In (Finite r) (validValues el) ->
  includes (validValues el) (neighbour (validValues el) up (Finite r)) = true.
Proof.
  unfold validValues. destruct (String.eqb (type el) "ability"); cbn [In]; intros Hin;
    repeat (destruct Hin as [Hin | Hin]; [injection Hin as <- |]); try contradiction;
    destruct up; vm_compute; reflexivity.
Qed.

Lemma neighbour_up_down (el : ProficiencyCycleElement) (r : Q) :
  In (Finite r) (validValues el) ->
  neighbour (validValues el) false (neighbour (validValues el) true (Finite r)) = Finite r.
Proof.
  unfold validValues. destruct (String.eqb (type el) "ability"); cbn [In]; intros Hin;
    repeat (destruct Hin as [Hin | Hin]; [injection Hin as <- |]); try contradiction;
    vm_compute; reflexivity.
Qed.

Lemma validValues_type (el el' : ProficiencyCycleElement) :
  typeAttribute el' = typeAttribute el -> validValues el' = validValues el.
Proof. intros E. unfold validValues, type. rewrite E. reflexivity. Qed.

Lemma step_spec (pl : JsNumber -> JsValue) (up : bool) (el : ProficiencyCycleElement) :
  includes (validValues el) (value el) = true ->
  typeAttribute (step pl up el).1 = typeAttribute el
  /\ innerInput (step pl up el).1 =
       match innerInput el with Some _ => Some (value (step pl up el).1) | None => None end
  /\ (step pl up el).2 = match innerInput el with Some _ => None | None => Some TypeError end
  /\ value (step pl up el).1 = neighbour (validValues el) up (value el).
Proof.
  intros Hvalid.
  destruct (valid_value_cases el Hvalid) as (q & r & Hv & Hq & Hin).
  pose proof (neighbour_valid el up r Hin) as Hn.
  rewrite <- (neighbour_congr _ up q r Hq), <- Hv in Hn.
  unfold step, set_value. fold (neighbour (validValues el) up (value el)).
  rewrite Hn. cbn [negb]. unfold refreshValue; cbn.
  destruct (innerInput el); cbn; repeat split; reflexivity.
Qed.

(** C10. For an element whose value is in the list of valid values of its
    type, [step(true)] followed by [step(false)] leaves the original value;
    every single step, up or down, leaves a value of that list; on a
    connected element neither call throws; and the steps wrap around: up
    from the last entry gives the first, down from the first gives the
    last. *)
Theorem step_up_then_down_restores (pl : JsNumber -> JsValue) (el : ProficiencyCycleElement) :
  includes (validValues el) (value el) = true ->
  num_same_value_zero (value (step pl false (step pl true el).1).1) (value el) = true
  /\ (forall up : bool, includes (validValues (step pl up el).1) (value (step pl up el).1) = true)
  /\ (innerInput el <> None ->
      (step pl true el).2 = None /\ (step pl false (step pl true el).1).2 = None)
  /\ (num_same_value_zero (value el) (List.last (validValues el) NaN) = true ->
      value (step pl true el).1 = hd NaN (validValues el))
  /\ (num_same_value_zero (value el) (hd NaN (validValues el)) = true ->
      value (step pl false el).1 = List.last (validValues el) NaN).
Proof.
  intros Hvalid.
  destruct (valid_value_cases el Hvalid) as (q & r & Hv & Hq & Hin).
  assert (Hstays : forall up : bool,
             includes (validValues (step pl up el).1) (value (step pl up el).1) = true).
  { intros up. destruct (step_spec pl up el Hvalid) as (Hty & _ & _ & Hval).
    rewrite (validValues_type _ _ Hty), Hval, Hv, (neighbour_congr _ up q r Hq).
    apply neighbour_valid. exact Hin. }
  destruct (step_spec pl true el Hvalid) as (Hty1 & Hin1 & Hthrow1 & Hval1).
  destruct (step_spec pl false _ (Hstays true)) as (_ & _ & Hthrow2 & Hval2).
  rewrite (validValues_type _ _ Hty1) in Hval2.
  split; [| split; [| split; [| split]]].
  - rewrite Hval2, Hval1, Hv, (neighbour_congr _ true q r Hq), (neighbour_up_down el r Hin).
    cbn. apply Qeq_bool_iff. symmetry. exact Hq.
  - exact Hstays.
  - intros Hconn. destruct (innerInput el) as [i|]; [| congruence].
    rewrite Hin1 in Hthrow2. split; assumption.
  - intros Hlast. rewrite Hval1, Hv. rewrite Hv in Hlast.
    unfold validValues in *. destruct (String.eqb (type el) "ability"); cbn in Hlast;
      apply Qeq_bool_iff in Hlast; rewrite (neighbour_congr _ true _ _ Hlast);
      vm_compute; reflexivity.
  - intros Hfirst. destruct (step_spec pl false el Hvalid) as (_ & _ & _ & Hval).
    rewrite Hval, Hv. rewrite Hv in Hfirst.
    unfold validValues in *. destruct (String.eqb (type el) "ability"); cbn in Hfirst;
      apply Qeq_bool_iff in Hfirst; rewrite (neighbour_congr _ false _ _ Hfirst);
      vm_compute; reflexivity.
Qed.

(** The premise of C10 holds for a connected skill control showing
    expertise: up wraps to 0, down comes back to 2, and nothing throws. *)
Lemma step_up_then_down_restores_witness :
  includes (validValues skill_control) (value skill_control) = true
  /\ num_same_value_zero
       (value (step proficiencyLevels false (step proficiencyLevels true skill_control).1).1)
       (value skill_control) = true
  /\ value (step proficiencyLevels true skill_control).1 = Finite 0.
Proof.
  assert (Hvalid : includes (validValues skill_control) (value skill_control) = true)
    by (vm_compute; reflexivity).
  split; [exact Hvalid |].
  split.
  - exact (proj1 (step_up_then_down_restores proficiencyLevels skill_control Hvalid)).
  - vm_compute. reflexivity.
Defined.

End ProficiencyFacts.

(* ===================================================================== *)
(** * Properties of the roll workflows *)
(* ===================================================================== *)

Module DiceWorkflowFacts.

Import Dice Examples Scenarios DiceFacts.

(** What a run adds to the log, by fast-forward flag and dialog answer. *)
Lemma d20Roll_spec (game : Game) (host : D20Host) (cfg : D20RollConfiguration)
    (t : list Effect) :
  d20Roll game host cfg t =
  if isFF (d20_mode game cfg)
  then d20_finish host cfg
         (d20_setRollMode (d20_construct game cfg)
            (coalesce (d20_rollMode cfg) (d20_defaultRollMode game cfg))) t
  else
    match d20_configureDialog host (d20_dialogConfig game cfg) (d20_dialogOptions cfg)
            (d20_construct game cfg) with
    | None => (None, (t ++ [DialogShown])%list)
    | Some configured => d20_finish host cfg configured (t ++ [DialogShown])%list
    end.
Proof.
  unfold d20Roll. destruct (isFF (d20_mode game cfg)); cbn [negb]; [reflexivity |].
  unfold mbind, Trace_bind. rewrite emit_spec.
  destruct (d20_configureDialog host _ _ _); reflexivity.
Qed.

Lemma damageRoll_spec (game : Game) (host : DamageHost) (cfg : DamageRollConfiguration)
    (t : list Effect) :
  damageRoll game host cfg t =
  if c_isFF (dmg_mode game cfg)
  then dmg_finish host cfg (dmg_construct game cfg) t
  else
    match dmg_configureDialog host (dmg_dialogConfig game cfg) (dmg_dialogOptions cfg)
            (dmg_construct game cfg) with
    | None => (None, (t ++ [DialogShown])%list)
    | Some configured => dmg_finish host cfg configured (t ++ [DialogShown])%list
    end.
Proof.
  unfold damageRoll. destruct (c_isFF (dmg_mode game cfg)); cbn [negb]; [reflexivity |].
  unfold mbind, Trace_bind. rewrite emit_spec.
  destruct (dmg_configureDialog host _ _ _); reflexivity.
Qed.

Lemma d20Roll_trace (game : Game) (host : D20Host) (cfg : D20RollConfiguration) :
  (run (d20Roll game host cfg)).2 =
    ((if isFF (d20_mode game cfg) then [] else [DialogShown])
     ++ match (run (d20Roll game host cfg)).1 with
        | None => []
        | Some _ =>
            RollEvaluated ::
              (if truthy (param_default (d20_chatMessage cfg) (JBool true))
               then [MessageCreated (d20_messageData cfg)] else [])
        end)%list.
Proof.
  unfold run. rewrite d20Roll_spec. destruct (isFF (d20_mode game cfg)).
  - rewrite d20_finish_spec. reflexivity.
  - destruct (d20_configureDialog host _ _ _); [rewrite d20_finish_spec |]; reflexivity.
Qed.

Lemma damageRoll_trace (game : Game) (host : DamageHost) (cfg : DamageRollConfiguration) :
  (run (damageRoll game host cfg)).2 =
    ((if c_isFF (dmg_mode game cfg) then [] else [DialogShown])
     ++ match (run (damageRoll game host cfg)).1 with
        | None => []
        | Some _ =>
            RollEvaluated ::
              (if truthy (param_default (dmg_chatMessage cfg) (JBool true))
               then [MessageCreated (dmg_messageData cfg)] else [])
        end)%list.
Proof.
  unfold run. rewrite damageRoll_spec. destruct (c_isFF (dmg_mode game cfg)).
  - rewrite dmg_finish_spec. reflexivity.
  - destruct (dmg_configureDialog host _ _ _); [rewrite dmg_finish_spec |]; reflexivity.
Qed.

(** The fast-forward flag in terms of the arguments. *)
Lemma isFF_cases (game : Game) (event : option Event)
    (advantage disadvantage fastForward : JsValue) :
  isFF (_determineAdvantageMode game event advantage disadvantage fastForward) =
    (if nullish fastForward
     then k_normal (advantageKeys game event) || k_advantage (advantageKeys game event)
          || k_disadvantage (advantageKeys game event)
     else truthy fastForward).
Proof.
  unfold _determineAdvantageMode, coalesce; cbn [isFF].
  destruct (nullish fastForward); [| reflexivity]. cbn [truthy existsb].
  rewrite orb_false_r, orb_assoc. reflexivity.
Qed.

Lemma c_isFF_cases (game : Game) (event : option Event) (critical fastForward : JsValue) :
  c_isFF (_determineCriticalMode game event critical fastForward) =
    (if nullish fastForward
     then c_normal (criticalKeys game event) || c_critical (criticalKeys game event)
     else truthy fastForward).
Proof.
  unfold _determineCriticalMode, coalesce; cbn [c_isFF].
  destruct (nullish fastForward); [| reflexivity]. cbn [truthy existsb].
  rewrite orb_false_r. reflexivity.
Qed.

Lemma dialog_in_trace (ff : bool) (rest : list Effect) :
  DialogShown ∉ rest ->
  DialogShown ∈ ((if ff then [] else [DialogShown]) ++ rest)%list <-> ff = false.
Proof.
  intros Hrest. destruct ff; cbn.
  - split; [intros H; contradiction | discriminate].
  - split; [reflexivity | intros _; left].
Qed.

Lemma no_dialog_after (chat : bool) (md : gmap string JsValue) :
  DialogShown ∉ RollEvaluated :: (if chat then [MessageCreated md] else []).
Proof.
  destruct chat; rewrite ?not_elem_of_cons; repeat split;
    try discriminate; apply not_elem_of_nil.
Qed.

(** X1. The configuration dialog of [d20Roll] and [damageRoll] is shown
    exactly when the roll is not fast-forwarded: a [fastForward] argument
    other than [null] and [undefined] decides alone by its truth value, and
    without one the dialog is skipped exactly when one of the fast-forward
    bindings of the workflow is pressed on the event. *)
Theorem dialog_shown_unless_fast_forward :
  (forall (game : Game) (host : D20Host) (cfg : D20RollConfiguration),
     let keys := advantageKeys game (d20_event cfg) in
     DialogShown ∈ (run (d20Roll game host cfg)).2 <->
     (if nullish (d20_fastForward cfg)
      then k_normal keys || k_advantage keys || k_disadvantage keys
      else truthy (d20_fastForward cfg)) = false)
  /\ (forall (game : Game) (host : DamageHost) (cfg : DamageRollConfiguration),
        let keys := criticalKeys game (dmg_event cfg) in
        DialogShown ∈ (run (damageRoll game host cfg)).2 <->
        (if nullish (dmg_fastForward cfg)
         then c_normal keys || c_critical keys
         else truthy (dmg_fastForward cfg)) = false).
Proof.
  split; intros game host cfg keys.
  - rewrite d20Roll_trace. unfold keys, d20_mode at 1. rewrite isFF_cases.
    apply dialog_in_trace.
    destruct (run (d20Roll game host cfg)).1; [apply no_dialog_after | apply not_elem_of_nil].
  - rewrite damageRoll_trace. unfold keys, dmg_mode at 1. rewrite c_isFF_cases.
    apply dialog_in_trace.
    destruct (run (damageRoll game host cfg)).1; [apply no_dialog_after | apply not_elem_of_nil].
Qed.

(** X2. The interactions of a roll come in a fixed order and at most once
    each: the dialog unless fast-forwarded, then, when a roll is returned,
    one evaluation, then one chat message carrying [messageData] exactly
    when [chatMessage] is truthy (it defaults to [true]). A run that
    returns [null] has neither evaluated nor posted. *)
Theorem roll_interactions_in_order :
  (forall (game : Game) (host : D20Host) (cfg : D20RollConfiguration),
     (run (d20Roll game host cfg)).2 =
       ((if isFF (d20_mode game cfg) then [] else [DialogShown])
        ++ match (run (d20Roll game host cfg)).1 with
           | None => []
           | Some _ =>
               RollEvaluated ::
                 (if truthy (param_default (d20_chatMessage cfg) (JBool true))
                  then [MessageCreated (d20_messageData cfg)] else [])
           end)%list)
  /\ (forall (game : Game) (host : DamageHost) (cfg : DamageRollConfiguration),
        (run (damageRoll game host cfg)).2 =
          ((if c_isFF (dmg_mode game cfg) then [] else [DialogShown])
           ++ match (run (damageRoll game host cfg)).1 with
              | None => []
              | Some _ =>
                  RollEvaluated ::
                    (if truthy (param_default (dmg_chatMessage cfg) (JBool true))
                     then [MessageCreated (dmg_messageData cfg)] else [])
              end)%list).
Proof. split; [apply d20Roll_trace | apply damageRoll_trace]. Qed.

(** X3. What [d20Roll] does to the roll data: the entry [mod] becomes
    ["@mod"] exactly when the modifier is to be chosen in a dialog that will
    be shown, [abilityCheckBonus] is rewritten then but never introduced,
    every other entry is passed on as it is, and a fast-forwarded roll gets
    the data untouched. *)
Theorem roll_data_only_rewrites_modifier_entries (game : Game) (cfg : D20RollConfiguration) :
  let choose := truthy (param_default (d20_chooseModifier cfg) (JBool false))
                && negb (isFF (d20_mode game cfg)) in
  (forall k : string, k <> "mod" -> k <> "abilityCheckBonus" ->
     d20_rollData game cfg !! k = d20_data cfg !! k)
  /\ d20_rollData game cfg !! "mod" =
       (if choose then Some (JStr "@mod") else d20_data cfg !! "mod")
  /\ d20_rollData game cfg !! "abilityCheckBonus" =
       (if choose then (fun _ => JStr "@abilityCheckBonus") <$> d20_data cfg !! "abilityCheckBonus"
        else d20_data cfg !! "abilityCheckBonus")
  /\ (isFF (d20_mode game cfg) = true -> d20_rollData game cfg = d20_data cfg).
Proof.
  intros choose. unfold d20_rollData. fold choose.
  destruct choose eqn:Hchoose; [| repeat split].
  assert (FF : isFF (d20_mode game cfg) = false).
  { subst choose. apply andb_true_iff in Hchoose as [_ H]. apply negb_true_iff in H. exact H. }
  cbv zeta. case_bool_decide as Hb.
  - destruct Hb as [v Hb]. rewrite Hb. repeat split.
    + intros k Hm Ha. rewrite !lookup_insert_ne by congruence. reflexivity.
    + rewrite lookup_insert_ne by discriminate. apply lookup_insert_eq.
    + apply lookup_insert_eq.
    + rewrite FF. discriminate.
  - assert (Hn : d20_data cfg !! "abilityCheckBonus" = None).
    { destruct (d20_data cfg !! "abilityCheckBonus") eqn:E; [| reflexivity].
      exfalso. apply Hb. eauto. }
    rewrite Hn. repeat split.
    + intros k Hm Ha. rewrite lookup_insert_ne by congruence. reflexivity.
    + apply lookup_insert_eq.
    + rewrite lookup_insert_ne by discriminate. exact Hn.
    + rewrite FF. discriminate.
Qed.






Lemma no_down_key_no_binding (game : Game) (event : Event) (action : string) :
  downKeys game = ∅ -> _areKeysPressed game event action = false.
Proof.
  intros Hdown. unfold _areKeysPressed. rewrite Hdown.
  induction (keybindings_get game "dnd5e" action) as [|b bs IH]; [reflexivity |].
  cbn [existsb]. rewrite bool_decide_eq_false_2 by apply not_elem_of_empty. exact IH.
Qed.

(** X6. While no key is held down, modifier flags on the event are
    irrelevant: the advantage mode follows the explicit flags alone
    (advantage first, then disadvantage, else NORMAL), the critical intent
    is the explicit flag, and a roll is fast-forwarded only by a truthy
    [fastForward] argument. *)
Theorem no_key_down_explicit_flags_alone (game : Game) (event : option Event)
    (advantage disadvantage critical fastForward : JsValue) :
  downKeys game = ∅ ->
  _determineAdvantageMode game event advantage disadvantage fastForward =
    {| isFF := truthy (coalesce fastForward (JBool false));
       advantageMode :=
         if truthy (param_default advantage (JBool false)) then ADVANTAGE
         else if truthy (param_default disadvantage (JBool false)) then DISADVANTAGE
         else NORMAL |}
  /\ _determineCriticalMode game event critical fastForward =
       {| c_isFF := truthy (coalesce fastForward (JBool false));
          isCritical := param_default critical (JBool false) |}.
Proof.
  intros Hdown.
  assert (Ha : advantageKeys game event =
               {| k_normal := false; k_advantage := false; k_disadvantage := false |}).
  { unfold advantageKeys. destruct event as [e|]; [| reflexivity].
    rewrite !no_down_key_no_binding by exact Hdown. reflexivity. }
  assert (Hc : criticalKeys game event = {| c_normal := false; c_critical := false |}).
  { unfold criticalKeys. destruct event as [e|]; [| reflexivity].
    rewrite !no_down_key_no_binding by exact Hdown. reflexivity. }
  split.
  - unfold _determineAdvantageMode. rewrite Ha. cbn. rewrite !orb_false_r. reflexivity.
  - unfold _determineCriticalMode. rewrite Hc. reflexivity.
Qed.

Lemma no_key_down_explicit_flags_alone_witness :
  _determineAdvantageMode game_idle (Some click_ctrl) JUndefined (JBool true) JUndefined =
    {| isFF := false; advantageMode := DISADVANTAGE |}.
Proof.
  exact (proj1 (no_key_down_explicit_flags_alone game_idle (Some click_ctrl)
                  JUndefined (JBool true) JUndefined JUndefined eq_refl)).
Defined.

End DiceWorkflowFacts.


(* ===================================================================== *)
(** * Properties of the pointer events of the proficiency cycle *)
(* ===================================================================== *)

Module ProficiencyEventFacts.

Import ProficiencyCycle ProficiencyEvents ProficiencyFacts Examples Scenarios.

Lemma step_lands_valid (pl : JsNumber -> JsValue) (up : bool) (el : ProficiencyCycleElement) :
  includes (validValues el) (value (step pl up el).1) = true
  /\ typeAttribute (step pl up el).1 = typeAttribute el
  /\ innerInput (step pl up el).1 =
       match innerInput el with Some _ => Some (value (step pl up el).1) | None => None end
  /\ (step pl up el).2 = match innerInput el with Some _ => None | None => Some TypeError end
  /\ value (step pl up el).1 = neighbour (validValues el) up (value el)
  /\ dispatched (step pl up el).1 =
       match innerInput el with
       | Some _ => (dispatched el ++ ["change"])%list
       | None => dispatched el
       end.
Proof.
  assert (Hn : includes (validValues el) (neighbour (validValues el) up (value el)) = true).
  { unfold validValues, neighbour, indexOf, indexOf_from, num_strict_eq.
    destruct (String.eqb (type el) "ability"), (value el) as [|q], up;
      try (vm_compute; reflexivity);
      destruct (Qeq_bool 0 q), (Qeq_bool 1 q);
      try (vm_compute; reflexivity);
      destruct (Qeq_bool (1 # 2) q), (Qeq_bool 2 q); vm_compute; reflexivity. }
  unfold step, set_value. fold (neighbour (validValues el) up (value el)).
  rewrite Hn. cbn [negb]. unfold refreshValue; cbn.
  destruct (innerInput el); cbn; repeat split; exact Hn.
Qed.

Lemma Qeq_bool_sym (a b : Q) : Qeq_bool a b = Qeq_bool b a.
Proof.
  destruct (Qeq_bool a b) eqn:E1, (Qeq_bool b a) eqn:E2; try reflexivity.
  - apply Qeq_bool_iff in E1. symmetry in E1. apply Qeq_bool_iff in E1. congruence.
  - apply Qeq_bool_iff in E2. symmetry in E2. apply Qeq_bool_iff in E2. congruence.
Qed.

(** X7. After a step the value is always one of the valid values of the
    type, whatever it was before. From a value outside the list (one that
    came in through the [value] attribute, [NaN] included), stepping up
    lands on 0 and stepping down lands on the entry before the last: 0 for
    an ability control, 0.5 for a skill control. *)
Theorem step_always_lands_on_a_valid_value (pl : JsNumber -> JsValue)
    (el : ProficiencyCycleElement) :
  (forall up : bool,
     includes (validValues (step pl up el).1) (value (step pl up el).1) = true)
  /\ (includes (validValues el) (value el) = false ->
      value (step pl true el).1 = Finite 0
      /\ value (step pl false el).1 =
           (if String.eqb (type el) "ability" then Finite 0 else Finite (1 # 2))).
Proof.
  split.
  - intros up. destruct (step_lands_valid pl up el) as (Hv & Hty & _).
    rewrite (validValues_type _ _ Hty). exact Hv.
  - intros Hinvalid.
    destruct (step_lands_valid pl true el) as (_ & _ & _ & _ & -> & _).
    destruct (step_lands_valid pl false el) as (_ & _ & _ & _ & -> & _).
    revert Hinvalid.
    unfold validValues, neighbour, indexOf, indexOf_from, num_strict_eq, includes.
    destruct (String.eqb (type el) "ability"), (value el) as [|q];
      cbn [existsb num_same_value_zero]; intros Hinvalid;
      try (split; vm_compute; reflexivity);
      rewrite !(Qeq_bool_sym q) in Hinvalid;
      repeat (apply orb_false_iff in Hinvalid as [? Hinvalid]);
      repeat match goal with H : Qeq_bool _ q = false |- _ => rewrite H; clear H end;
      split; vm_compute; reflexivity.
Qed.

Lemma step_always_lands_on_a_valid_value_witness :
  value (step proficiencyLevels true ability_control_unset).1 = Finite 0
  /\ value (step proficiencyLevels false ability_control_unset).1 = Finite 0.
Proof.
  exact (proj2 (step_always_lands_on_a_valid_value proficiencyLevels ability_control_unset)
           eq_refl).
Defined.

Lemma steps_connected (pl : JsNumber -> JsValue) (up : bool) (ups : list bool)
    (el : ProficiencyCycleElement) :
  innerInput el <> None ->
  steps pl (up :: ups) el = steps pl ups (step pl up el).1
  /\ innerInput (step pl up el).1 <> None.
Proof.
  intros Hconn. destruct (step_lands_valid pl up el) as (_ & _ & Hin & Hthrow & _).
  destruct (innerInput el) as [i|]; [| congruence].
  cbn [steps]. destruct (step pl up el) as [el' thrown]. cbn [fst snd] in *.
  subst thrown. split; [reflexivity | congruence].
Qed.

Lemma steps_spec (pl : JsNumber -> JsValue) (ups : list bool) :
  forall el : ProficiencyCycleElement,
    innerInput el <> None ->
    (steps pl ups el).2 = None
    /\ value (steps pl ups el).1 =
         fold_left (fun v up => neighbour (validValues el) up v) ups (value el).
Proof.
  induction ups as [|up ups IH]; intros el Hconn; [split; reflexivity |].
  destruct (steps_connected pl up ups el Hconn) as [-> Hconn'].
  destruct (IH _ Hconn') as [Hthrow Hval].
  destruct (step_lands_valid pl up el) as (_ & Hty & _ & _ & Hstep & _).
  split; [exact Hthrow |].
  rewrite Hval, (validValues_type _ _ Hty), Hstep. reflexivity.
Qed.

(** X8. On a connected control with a valid value the steps form a cycle:
    as many steps in one direction as the type has valid values (2 for an
    ability, 4 for a skill) end on the value they started from, a step down
    followed by a step up does too, and none of these calls throws. *)
Theorem steps_go_round (pl : JsNumber -> JsValue) (el : ProficiencyCycleElement) :
  includes (validValues el) (value el) = true ->
  innerInput el <> None ->
  forall ups : list bool,
    ups = repeat true (length (validValues el))
    \/ ups = repeat false (length (validValues el))
    \/ ups = [false; true] ->
    (steps pl ups el).2 = None
    /\ num_same_value_zero (value (steps pl ups el).1) (value el) = true.
Proof.
  intros Hvalid Hconn ups Hups.
  destruct (steps_spec pl ups el Hconn) as [Hthrow Hval].
  split; [exact Hthrow |]. rewrite Hval. clear Hthrow Hval.
  destruct (valid_value_cases el Hvalid) as (q & r & Hv & Hq & Hin).
  rewrite Hv.
  assert (Hback : forall x : JsNumber,
             x = Finite r -> num_same_value_zero x (Finite q) = true).
  { intros x ->. cbn. apply Qeq_bool_iff. symmetry. exact Hq. }
  revert Hin Hups. unfold validValues.
  destruct (String.eqb (type el) "ability"); cbn [In length repeat]; intros Hin Hups;
    repeat (destruct Hin as [Hin | Hin]; [injection Hin as <- |]); try contradiction;
    destruct Hups as [-> | [-> | ->]];
    cbn [fold_left]; rewrite (neighbour_congr _ _ q _ Hq);
    apply Hback; vm_compute; reflexivity.
Qed.

Lemma steps_go_round_witness :
  (steps proficiencyLevels [true; true; true; true] skill_control).2 = None
  /\ num_same_value_zero
       (value (steps proficiencyLevels [true; true; true; true] skill_control).1)
       (value skill_control) = true.
Proof.
  apply (steps_go_round proficiencyLevels skill_control);
    [vm_compute; reflexivity | discriminate | left; reflexivity].
Defined.

(** X9. A successful assignment to [value], and so a successful step, leaves
    the inner input, the ARIA value and the form value all equal to the
    stored value; an assignment of a number outside the valid list throws
    and changes nothing; an assignment on an element whose inner input has
    not been built stores the value and then throws a [TypeError]. No
    assignment changes the type or dispatches an event. *)
Theorem setter_keeps_mirrors_in_step (pl : JsNumber -> JsValue)
    (el : ProficiencyCycleElement) (v : JsNumber) :
  let r := set_value pl el v in
  typeAttribute r.1 = typeAttribute el
  /\ dispatched r.1 = dispatched el
  /\ (includes (validValues el) v = false ->
      r = (el, Some (Error "Value must be a valid proficiency multiplier.")))
  /\ (includes (validValues el) v = true ->
      value r.1 = v
      /\ match innerInput el with
         | Some _ =>
             r.2 = None
             /\ innerInput r.1 = Some v
             /\ ariaValueNow (internals r.1) = Some v
             /\ ariaValueText (internals r.1) = pl v
             /\ formValue (internals r.1) = Some v
         | None => r.2 = Some TypeError /\ internals r.1 = internals el
         end).
Proof.
  intros r. subst r. unfold set_value, refreshValue.
  destruct (includes (validValues el) v); cbn [negb].
  - destruct (innerInput el) eqn:Hi; cbn; rewrite ?Hi;
      repeat split; try discriminate; intros _; repeat split.
  - repeat split; discriminate.
Qed.

Lemma setter_keeps_mirrors_in_step_witness :
  value (set_value proficiencyLevels skill_control (Finite (1 # 2))).1 = Finite (1 # 2)
  /\ innerInput (set_value proficiencyLevels skill_control (Finite (1 # 2))).1
     = Some (Finite (1 # 2))
  /\ set_value proficiencyLevels skill_control (Finite 3) =
       (skill_control, Some (Error "Value must be a valid proficiency multiplier.")).
Proof.
  destruct (setter_keeps_mirrors_in_step proficiencyLevels skill_control (Finite (1 # 2)))
    as (_ & _ & _ & Hvalid).
  destruct (Hvalid eq_refl) as (Hvalue & _ & Hinner & _).
  destruct (setter_keeps_mirrors_in_step proficiencyLevels skill_control (Finite 3))
    as (_ & _ & Hinvalid & _).
  split; [exact Hvalue | split; [exact Hinner | exact (Hinvalid eq_refl)]].
Defined.

(** X10. A disabled control ignores clicks: the element is unchanged and
    nothing is dispatched. On an enabled, connected control with a valid
    value, a primary-button click followed by a context-menu click brings
    the value back, with one [change] event dispatched by each. *)
Theorem click_then_context_menu_restores (pl : JsNumber -> JsValue)
    (el : ProficiencyCycleElement) (click menu : PointerEvent) :
  (onClick pl true click el = (el, None))
  /\ (includes (validValues el) (value el) = true ->
      innerInput el <> None ->
      ev_type click = "click" -> num_strict_eq (ev_button click) (Finite 2) = false ->
      ev_type menu = "contextmenu" ->
      let after := (onClick pl false menu (onClick pl false click el).1).1 in
      num_same_value_zero (value after) (value el) = true
      /\ dispatched after = (dispatched el ++ ["change"; "change"])%list).
Proof.
  split; [reflexivity |].
  intros Hvalid Hconn Hclick Hbutton Hmenu after. subst after.
  unfold onClick. rewrite Hclick, Hbutton, Hmenu.
  change (String.eqb "click" "click") with true.
  change (String.eqb "contextmenu" "click") with false.
  cbn [andb negb].
  destruct (steps_spec pl [true; false] el Hconn) as [_ Hval].
  destruct (steps_connected pl true [false] el Hconn) as [Hs Hconn1].
  rewrite Hs in Hval.
  destruct (steps_connected pl false [] _ Hconn1) as [Hs2 _].
  rewrite Hs2 in Hval. cbn [steps fst] in Hval.
  split.
  - rewrite Hval.
    destruct (valid_value_cases el Hvalid) as (q & r & Hv & Hq & Hin).
    rewrite Hv. cbn [fold_left]. rewrite (neighbour_congr _ _ q _ Hq).
    rewrite (neighbour_up_down el r Hin). cbn. apply Qeq_bool_iff. symmetry. exact Hq.
  - destruct (step_lands_valid pl true el) as (_ & _ & _ & _ & _ & Hd1).
    destruct (step_lands_valid pl false (step pl true el).1) as (_ & _ & _ & _ & _ & Hd2).
    rewrite Hd2.
    destruct (innerInput (step pl true el).1); [| congruence].
    rewrite Hd1. destruct (innerInput el); [| congruence].
    rewrite <- app_assoc. reflexivity.
Qed.

Lemma click_then_context_menu_restores_witness :
  let after :=
    (onClick proficiencyLevels false context_menu
       (onClick proficiencyLevels false primary_click skill_control).1).1 in
  num_same_value_zero (value after) (value skill_control) = true
  /\ dispatched after = ["change"; "change"].
Proof.
  apply (proj2 (click_then_context_menu_restores proficiencyLevels skill_control
                  primary_click context_menu));
    [reflexivity | discriminate | reflexivity | reflexivity | reflexivity].
Defined.

End ProficiencyEventFacts.

(* ===================================================================== *)
(** * What the enrichers build *)
(* ===================================================================== *)

Module EnricherOutcomes.

Import Enrichers EnricherViews Examples EnricherFacts.

(** The names the [dataset] can refuse when a check element is asked for:
    the name of a truthy property of the classified configuration, or one
    of the four attributes the enricher writes itself. *)
Lemma refused_check_attribute (h : Host) (c c' : Config) (w : JsValue) :
  (forall k, k <> "ability" -> k <> "skill" -> k <> "dc" -> props c' !! k = props c !! k) ->
  refuses h (props c') \/ refuses h (props c' ∪ {["type" := w]}) ->
  exists k,
    datasetRejects h k = true
    /\ (k ∈ ["ability"; "skill"; "dc"; "type"] \/ truthy (get c k) = true).
Proof.
  intros Hother Hbad.
  assert (Hk : exists k v, datasetRejects h k = true /\ truthy v = true
                           /\ (k = "type" \/ props c' !! k = Some v)).
  { destruct Hbad as [(k & v & Hk & Hr) | (k & v & Hk & Hr)];
      apply attributes_Some in Hk as (Hk & _ & _ & Hv); exists k, v.
    - auto.
    - destruct (decide (k = "type")) as [-> | Hne]; [auto |].
      apply lookup_union_Some_raw in Hk as [Hk | [_ Hk]]; [auto |].
      rewrite lookup_singleton_ne in Hk by congruence. discriminate. }
  destruct Hk as (k & v & Hr & Hv & Hk). exists k. split; [exact Hr |].
  destruct (decide (k ∈ ["ability"; "skill"; "dc"; "type"])) as [Hin | Hnot]; [left; exact Hin |].
  right. rewrite !not_elem_of_cons in Hnot. destruct Hnot as (Ha & Hs & Hd & Ht & _).
  destruct Hk as [-> | Hk]; [congruence |].
  apply truthy_get. exists v. rewrite <- Hother by assumption. auto.
Qed.

(** X11. Every run of [enrichCheck]. When [config.values] cannot be
    iterated it throws a [TypeError] before anything is logged. Otherwise
    it logs warnings only, and it ends in one of four ways, never in
    [null]: an element is built and nothing has been logged, the element
    being a passive tag exactly when the classified configuration has a
    truthy [passive]; or [config.input] is handed back and at least one
    warning has been logged; or [Trait.getBaseItem] has thrown on a tool
    that names an inherited member of the tool table; or nothing has been
    logged and the [dataset] of the element has refused the name of an
    attribute, which is the name of a truthy property of the classified
    configuration or one of [ability], [skill], [dc] and [type]. *)
Theorem check_is_built_or_warned (rs : Rules) (h : Host) (config : Config)
    (label : JsValue) (options : EnrichmentOptions) (t : list Effect) :
  match classifyCheckValues rs h config with
  | Throw e =>
      e = TypeError /\ enrichCheck rs h config label options t = (Throw TypeError, t)
  | Return c =>
      exists ws,
        (enrichCheck rs h config label options t).2 = (t ++ ws)%list
        /\ forallb is_warning ws = true
        /\ match (enrichCheck rs h config label options t).1 with
           | Return (Built e) =>
               ws = []
               /\ is_passive_tag e = truthy (get c "passive")
               /\ is_roll_link e = negb (truthy (get c "passive"))
           | Return (Input v) => v = get c "input" /\ ws <> []
           | Return Null => False
           | Throw e =>
               lookupTool rs h c = Throw e
               \/ (e = DOMException /\ ws = []
                   /\ exists k,
                        datasetRejects h k = true
                        /\ (k ∈ ["ability"; "skill"; "dc"; "type"]
                            \/ truthy (get c k) = true))
           end
  end.
Proof.
  destruct (classifyCheckValues rs h config) as [c | e] eqn:Hc.
  2: { exact (enrichCheck_not_iterable rs h config label options t e Hc). }
  destruct (enrichCheck_cases rs h config label options t c Hc)
    as (c1 & inv1 & t1 & Hrun & Hcases).
  destruct (resolveSkill_result rs h c t) as (c1' & inv1' & Hrun' & _).
  rewrite Hrun in Hrun'. injection Hrun' as <- <- Ht1.
  assert (Hinput : (exists ws,
                      enrichCheck rs h config label options t =
                        (Return (Input (get c "input")), (t ++ ws)%list)
                      /\ ws <> [] /\ forallb is_warning ws = true) ->
                   exists ws,
                     (enrichCheck rs h config label options t).2 = (t ++ ws)%list
                     /\ forallb is_warning ws = true
                     /\ match (enrichCheck rs h config label options t).1 with
                        | Return (Built e) =>
                            ws = []
                            /\ is_passive_tag e = truthy (get c "passive")
                            /\ is_roll_link e = negb (truthy (get c "passive"))
                        | Return (Input v) => v = get c "input" /\ ws <> []
                        | Return Null => False
                        | Throw e =>
                            lookupTool rs h c = Throw e
                            \/ (e = DOMException /\ ws = []
                                /\ exists k,
                                     datasetRejects h k = true
                                     /\ (k ∈ ["ability"; "skill"; "dc"; "type"]
                                         \/ truthy (get c k) = true))
                        end).
  { intros (ws & -> & Hne & Hw). exists ws. cbn [fst snd]. auto. }
  destruct (lookupTool rs h c) as [toolIndex | e] eqn:Htool.
  2: { rewrite Hcases. cbn [fst snd]. subst t1.
       destruct inv1; eexists; (split; [reflexivity || (symmetry; apply app_nil_r) |]);
         (split; [reflexivity |]); left; reflexivity. }
  destruct (lookupAbility rs h c1) as [ac|]; [| exact (Hinput Hcases)].
  destruct (inv1 || truthy (get c "tool") && negb (bool_decide (is_Some toolIndex)));
    [exact (Hinput Hcases) |].
  destruct Hcases as (c' & l & -> & _ & _ & Hother).
  assert (Hp : get c' "passive" = get c "passive") by (apply props_get, Hother; discriminate).
  exists []. cbn [fst snd]. split; [symmetry; apply app_nil_r |]. split; [reflexivity |].
  rewrite <- Hp.
  destruct (truthy (get c' "passive")).
  - destruct (createPassiveTag_cases h l (props c')) as [[_ ->] | [Hbad ->]]; cbn.
    + auto.
    + right. split; [reflexivity |]. split; [reflexivity |].
      apply (refused_check_attribute h c c' JUndefined Hother). left. exact Hbad.
  - destruct (createRollLink_cases h l (props c' ∪ {["type" := JStr (checkType c')]}))
      as [[_ ->] | [Hbad ->]]; cbn.
    + auto.
    + right. split; [reflexivity |]. split; [reflexivity |].
      apply (refused_check_attribute h c c' (JStr (checkType c')) Hother). right. exact Hbad.
Qed.

(** A run of [enrichCheck] that builds an element: the classified
    configuration, the resolved one, and the data the element carries. *)
Lemma built_check (rs : Rules) (h : Host) (config : Config) (label : JsValue)
    (options : EnrichmentOptions) (t t' : list Effect) (e : Element) :
  enrichCheck rs h config label options t = (Return (Built e), t') ->
  exists c c' l,
    classifyCheckValues rs h config = Return c
    /\ (forall k, k <> "ability" -> k <> "skill" -> k <> "dc" -> props c' !! k = props c !! k)
    /\ ((truthy (get c' "passive") = true /\ e = PassiveTag l (attributes (props c')))
        \/ (truthy (get c' "passive") = false
            /\ e = RollLink l (attributes (props c' ∪ {["type" := JStr (checkType c')]})))).
Proof.
  intros Hbuilt.
  destruct (classifyCheckValues rs h config) as [c | err] eqn:Hc.
  2: { destruct (enrichCheck_not_iterable rs h config label options t err Hc) as [_ Hr].
       congruence. }
  destruct (enrichCheck_cases rs h config label options t c Hc)
    as (c1 & inv1 & t1 & Hrun & Hcases).
  destruct (lookupTool rs h c) as [toolIndex | err]; [| congruence].
  assert (Hinput : ~ exists ws,
                       enrichCheck rs h config label options t =
                         (Return (Input (get c "input")), (t ++ ws)%list)
                       /\ ws <> [] /\ forallb is_warning ws = true).
  { intros (ws & Hr & _). congruence. }
  destruct (lookupAbility rs h c1) as [ac|]; [| contradiction].
  destruct (inv1 || truthy (get c "tool") && negb (bool_decide (is_Some toolIndex)));
    [contradiction |].
  destruct Hcases as (c' & l & Hr & _ & _ & Hother). rewrite Hr in Hbuilt.
  exists c, c', l. split; [reflexivity |]. split; [exact Hother |].
  destruct (truthy (get c' "passive")).
  - left. split; [reflexivity |].
    destruct (createPassiveTag_cases h l (props c')) as [[_ E] | [_ E]];
      rewrite E in Hbuilt; cbn in Hbuilt; congruence.
  - right. split; [reflexivity |].
    destruct (createRollLink_cases h l (props c' ∪ {["type" := JStr (checkType c')]}))
      as [[_ E] | [_ E]]; rewrite E in Hbuilt; cbn in Hbuilt; congruence.
Qed.

(** X12. The [type] attribute of a check link agrees with its other
    attributes: when the classified configuration has no [type] property
    of its own, the link is of type "skill" exactly when it carries a
    [skill] attribute, otherwise "tool" when it carries a [tool]
    attribute, otherwise "check". A [type] property of the configuration
    takes its place when truthy and removes the attribute when falsy. *)
Theorem check_link_type_matches_attributes (rs : Rules) (h : Host) (config : Config)
    (label : JsValue) (options : EnrichmentOptions) (t t' : list Effect)
    (l : JsValue) (d : gmap string JsValue) :
  enrichCheck rs h config label options t = (Return (Built (RollLink l d)), t') ->
  exists c,
    classifyCheckValues rs h config = Return c
    /\ d !! "type" =
         match props c !! "type" with
         | None =>
             Some (JStr (if bool_decide (is_Some (d !! "skill")) then "skill"
                         else if bool_decide (is_Some (d !! "tool")) then "tool"
                         else "check"))
         | Some v => if truthy v then Some v else None
         end.
Proof.
  intros Hrun.
  destruct (built_check rs h config label options t t' _ Hrun)
    as (c & c' & l' & Hc & Hother & [[_ [=]] | [_ [= -> ->]]]).
  exists c. split; [exact Hc |].
  specialize (Hother "type" ltac:(discriminate) ltac:(discriminate) ltac:(discriminate)).
  destruct (props c !! "type") as [v|] eqn:Hty.
  - apply attributes_lookup; try discriminate. apply lookup_union_Some_l. exact Hother.
  - rewrite !(attribute_present _ c') by
      (try discriminate; symmetry; apply lookup_union_l; apply lookup_singleton_ne; discriminate).
    apply attributes_Some. repeat split; try discriminate.
    + rewrite lookup_union_r by exact Hother. unfold checkType. apply lookup_singleton_eq.
    + unfold checkType. destruct (truthy (get c' "skill")), (truthy (get c' "tool")); reflexivity.
Qed.

Lemma check_link_type_matches_attributes_witness :
  let d : gmap string JsValue :=
    {[ "skill" := JStr "acr"; "dc" := JNum (Finite 20); "ability" := JStr "dex";
       "type" := JStr "skill" ]} in
  enrichCheck rules host check_acrobatics JUndefined no_options [] =
    (Return (Built (RollLink (JStr "EDITOR.DND5E.Inline.CheckShort") d)), [])
  /\ exists c,
       classifyCheckValues rules host check_acrobatics = Return c
       /\ d !! "type" =
            match props c !! "type" with
            | None =>
                Some (JStr (if bool_decide (is_Some (d !! "skill")) then "skill"
                            else if bool_decide (is_Some (d !! "tool")) then "tool"
                            else "check"))
            | Some v => if truthy v then Some v else None
            end.
Proof.
  intros d.
  assert (Hrun : enrichCheck rules host check_acrobatics JUndefined no_options [] =
                   (Return (Built (RollLink (JStr "EDITOR.DND5E.Inline.CheckShort") d)), []))
    by (vm_compute; reflexivity).
  split; [exact Hrun |].
  exact (check_link_type_matches_attributes rules host check_acrobatics JUndefined
           no_options [] [] _ d Hrun).
Defined.

(** X13. No element an enricher builds carries the matched text or the
    bare words as an attribute, and none carries an attribute with a falsy
    value: a link or tag never has an [input] or [values] attribute, and
    every attribute it has is truthy. *)
Theorem links_carry_only_truthy_attributes (rs : Rules) (h : Host) (config : Config)
    (label : JsValue) (options : EnrichmentOptions) (t : list Effect) (e : Element) :
  (enrichCheck rs h config label options t).1 = Return (Built e)
  \/ (enrichSave rs h config label options t).1 = Return (Built e)
  \/ (enrichDamage rs h config label options t).1 = Return (Built e) ->
  forall (k : string) (v : JsValue),
    dataset_of e !! k = Some v -> k <> "input" /\ k <> "values" /\ truthy v = true.
Proof.
  intros Hbuilt k v Hk.
  assert (Hadd : forall d : gmap string JsValue,
             attributes d !! k = Some v -> k <> "input" /\ k <> "values" /\ truthy v = true).
  { intros d Hd. apply attributes_Some in Hd as (_ & Hi & Hv & Ht). auto. }
  assert (Hlink : forall (l : JsValue) (d : gmap string JsValue),
             Built <$> createRollLink h l d = Return (Built e) ->
             k <> "input" /\ k <> "values" /\ truthy v = true).
  { intros l d Hl. destruct (createRollLink_cases h l d) as [[_ E] | [_ E]];
      rewrite E in Hl; cbn in Hl; [| discriminate].
    injection Hl as <-. exact (Hadd _ Hk). }
  destruct Hbuilt as [Hb | [Hb | Hb]].
  - destruct (enrichCheck rs h config label options t) as [r t'] eqn:Hrun.
    cbn [fst] in Hb. subst r.
    destruct (built_check rs h config label options t t' e Hrun)
      as (c & c' & l & _ & _ & [[_ ->] | [_ ->]]); exact (Hadd _ Hk).
  - unfold enrichSave, mbind, Fallible_bind, complete in Hb.
    destruct (classifySaveValues rs h config) as [c | err]; [| discriminate].
    destruct (lookupAbility rs h c); [| discriminate].
    cbn [fst] in Hb. exact (Hlink _ _ Hb).
  - destruct (damageFormula rs h config options) as [c | err] eqn:Hc.
    2: { unfold enrichDamage, mbind, Fallible_bind, complete in Hb. rewrite Hc in Hb.
         discriminate. }
    rewrite (enrichDamage_cases rs h config label options t c Hc) in Hb.
    destruct (truthy (get c "formula")); [| discriminate]. cbn [negb] in Hb.
    destruct (truthy label).
    + cbn [fst] in Hb. exact (Hlink _ _ Hb).
    + assert (Hspan : dataset_of e = ∅).
      { revert Hb. repeat case_match; cbn [fst]; try discriminate; intros [= <-]; reflexivity. }
      rewrite Hspan in Hk. rewrite lookup_empty in Hk. discriminate.
Qed.

Lemma links_carry_only_truthy_attributes_witness :
  "dc" <> "input" /\ "dc" <> "values" /\ truthy (JNum (Finite 20)) = true.
Proof.
  apply (links_carry_only_truthy_attributes rules host check_acrobatics JUndefined no_options []
           (RollLink (JStr "EDITOR.DND5E.Inline.CheckShort")
              {[ "skill" := JStr "acr"; "dc" := JNum (Finite 20); "ability" := JStr "dex";
                 "type" := JStr "skill" ]}));
    [left; vm_compute; reflexivity | vm_compute; reflexivity].
Defined.

(** What [enrichCheck] hands back in place of an element is
    [config.input] of the classified configuration, never [null]. *)
Lemma unbuilt_check (rs : Rules) (h : Host) (config : Config) (label : JsValue)
    (options : EnrichmentOptions) (t : list Effect) (c : Config) :
  classifyCheckValues rs h config = Return c ->
  match (enrichCheck rs h config label options t).1 with
  | Return (Input v) => v = get c "input"
  | Return Null => False
  | _ => True
  end.
Proof.
  intros Hc.
  destruct (enrichCheck_cases rs h config label options t c Hc)
    as (c1 & inv1 & t1 & Hrun & Hcases).
  assert (Hinput : (exists ws,
                      enrichCheck rs h config label options t =
                        (Return (Input (get c "input")), (t ++ ws)%list)
                      /\ ws <> [] /\ forallb is_warning ws = true) ->
                   match (enrichCheck rs h config label options t).1 with
                   | Return (Input v) => v = get c "input"
                   | Return Null => False
                   | _ => True
                   end).
  { intros (ws & -> & _). reflexivity. }
  destruct (lookupTool rs h c) as [toolIndex | err]; [| rewrite Hcases; exact I].
  destruct (lookupAbility rs h c1) as [ac|]; [| exact (Hinput Hcases)].
  destruct (inv1 || truthy (get c "tool") && negb (bool_decide (is_Some toolIndex)));
    [exact (Hinput Hcases) |].
  destruct Hcases as (c' & l & -> & _). cbn [fst].
  destruct (truthy (get c' "passive"));
    [destruct (createPassiveTag h _ _) | destruct (createRollLink h _ _)]; exact I.
Qed.

(** X14. As long as the bare word [input] is not among the values, an
    enrichment that builds nothing hands back exactly the matched text:
    what [enrichCheck] and [enrichSave] return in place of an element is
    the [input] property the configuration came with, and it is never
    [null]. *)
Theorem failed_enrichment_returns_matched_text (rs : Rules) (h : Host) (config : Config)
    (label : JsValue) (options : EnrichmentOptions) (t : list Effect) :
  (forall words, iterate (values config) = Return words -> "input" ∉ words) ->
  match (enrichCheck rs h config label options t).1 with
  | Return (Built _) => True
  | Return (Input v) => v = get config "input"
  | Return Null => False
  | Throw _ => True
  end
  /\ match (enrichSave rs h config label options t).1 with
     | Return (Built _) => True
     | Return (Input v) => v = get config "input"
     | Return Null => False
     | Throw _ => True
     end.
Proof.
  intros Hin.
  destruct (iterate (values config)) as [words | err] eqn:Hwords.
  2: { pose proof (classifyCheckValues_cases rs h config) as Hcheck.
       pose proof (classifySaveValues_cases rs h config) as Hsave.
       rewrite Hwords in Hcheck, Hsave. destruct Hcheck as [Hcheck _], Hsave as [Hsave _].
       destruct (enrichCheck_not_iterable rs h config label options t _ Hcheck) as [_ ->].
       unfold enrichSave, mbind, Fallible_bind, complete. rewrite Hsave. split; exact I. }
  destruct (classified_input_unchanged rs h config words Hwords (Hin words eq_refl))
    as [(c & Hc & Hcheck) (c' & Hc' & Hsave)].
  split.
  - pose proof (unbuilt_check rs h config label options t c Hc) as Hcore.
    destruct (enrichCheck rs h config label options t) as [[[v | e |] | err] t'];
      cbn [fst] in *; try exact I; [| contradiction].
    rewrite <- Hcheck. exact Hcore.
  - unfold enrichSave, mbind, Fallible_bind, complete. rewrite Hc'.
    destruct (lookupAbility rs h c'); cbn [fst].
    + destruct (createRollLink h _ _); exact I.
    + exact Hsave.
Qed.

Lemma failed_enrichment_returns_matched_text_witness :
  match (enrichCheck rules host check_unknown_skill JUndefined no_options []).1 with
  | Return (Built _) => True
  | Return (Input v) => v = JStr "[[/check skill=xyz]]"
  | Return Null => False
  | Throw _ => True
  end
  /\ match (enrichSave rules host check_unknown_skill JUndefined no_options []).1 with
     | Return (Built _) => True
     | Return (Input v) => v = JStr "[[/check skill=xyz]]"
     | Return Null => False
     | Throw _ => True
     end.
Proof.
  apply (failed_enrichment_returns_matched_text rules host check_unknown_skill JUndefined
           no_options []).
  intros words [= <-]. apply not_elem_of_nil.
Defined.

(** *** Saves *)

Lemma lookupAbility_is_member (rs : Rules) (h : Host) (c : Config) :
  is_Some (lookupAbility rs h c)
  <-> has_key (abilities rs) (to_string h (get c "ability")) = true.
Proof.
  unfold lookupAbility, member, has_key, has_own.
  destruct (abilities rs !! to_string h (get c "ability")) as [ac|] eqn:E.
  - rewrite bool_decide_eq_true_2 by eauto. cbn. split; eauto.
  - rewrite (bool_decide_eq_false_2 (is_Some None)) by (intros [? ?]; discriminate).
    cbn [orb]. destruct (bool_decide (_ ∈ objectPrototypeKeys)); split; eauto.
    + intros [? ?]; discriminate.
    + discriminate.
Qed.

(** X15. Every run of [enrichSave]. When [config.values] cannot be
    iterated it throws a [TypeError] before anything is logged. Otherwise
    the ability of the classified configuration decides. When the ability
    table has it, as an entry or as an inherited member, nothing is
    logged and a link is asked for that has a given label as it is and
    that carries the ability, under the short key when the table entry
    names one; the link is built when the [dataset] takes all attribute
    names, and the enricher throws when it refuses one. When the table
    does not have it, one warning is logged and [config.input] is handed
    back. *)
Theorem save_link_iff_ability_known (rs : Rules) (h : Host) (config : Config)
    (label : JsValue) (options : EnrichmentOptions) (t : list Effect) :
  match classifySaveValues rs h config with
  | Throw e =>
      e = TypeError /\ enrichSave rs h config label options t = (Throw TypeError, t)
  | Return c =>
      (is_Some (lookupAbility rs h c)
       <-> has_key (abilities rs) (to_string h (get c "ability")) = true)
      /\ match lookupAbility rs h c with
         | Some ac =>
             let a := if truthy (a_key ac) then a_key ac else get c "ability" in
             exists (l : JsValue) (d : gmap string JsValue),
               (truthy label = true -> l = label)
               /\ attributes d !! "ability" = (if truthy a then Some a else None)
               /\ (forall k, k <> "ability" -> k <> "dc" -> k <> "type" ->
                   d !! k = props c !! k)
               /\ ((accepts h d
                    /\ enrichSave rs h config label options t =
                         (Return (Built (RollLink l (attributes d))), t))
                   \/ (refuses h d
                       /\ enrichSave rs h config label options t = (Throw DOMException, t)))
         | None =>
             enrichSave rs h config label options t =
               (Return (Input (get c "input")),
                (t ++ [Warned (AbilityNotFound (get c "ability") (get c "input"))])%list)
         end
  end.
Proof.
  pose proof (classifySaveValues_cases rs h config) as Hcases.
  destruct (classifySaveValues rs h config) as [c | e] eqn:Hc.
  2: { destruct (iterate (values config)); [discriminate |]. destruct Hcases as [[= ->] _].
       split; [reflexivity |]. unfold enrichSave, mbind, Fallible_bind, complete.
       rewrite Hc. reflexivity. }
  clear Hcases. split; [apply lookupAbility_is_member |].
  destruct (lookupAbility rs h c) as [ac|] eqn:Hac.
  2: { exact (unknown_save_reference_returns_input rs h config label options t c Hc Hac). }
  unfold enrichSave, mbind, Fallible_bind, complete. rewrite Hc, Hac.
  set (c1 := if truthy (a_key ac) then set "ability" (a_key ac) c else c).
  set (a := if truthy (a_key ac) then a_key ac else get c "ability").
  assert (Ha : get (resolveDC h options c1) "ability" = a).
  { rewrite resolveDC_other by discriminate. subst c1 a.
    destruct (truthy (a_key ac)); [apply get_set_eq; discriminate | reflexivity]. }
  cbv zeta.
  set (l := if negb (truthy label) then saveLabel h (resolveDC h options c1) ac else label).
  exists l, (props (resolveDC h options c1) ∪ {["type" := JStr "save"]}).
  split; [| split; [| split]].
  - intros Hl. subst l. rewrite Hl. reflexivity.
  - rewrite attribute_beside_type by discriminate. rewrite Ha. reflexivity.
  - intros k Hka Hkd Hkt.
    rewrite lookup_union_l by (apply lookup_singleton_ne; congruence).
    rewrite resolveDC_props by exact Hkd. subst c1.
    destruct (truthy (a_key ac)); [apply set_lookup_ne; congruence | reflexivity].
  - destruct (createRollLink_cases h l
                (props (resolveDC h options c1) ∪ {["type" := JStr "save"]}))
      as [[Hok ->] | [Hbad ->]]; [left | right]; split; auto.
Qed.

(** [[[/save constructor]]]{Label}: the word names an inherited member of
    the ability table, so a link is built and nothing is warned about. *)
Example inherited_member_counts_as_ability :
  exists d,
    enrichSave rules host
      {| values := Words ["constructor"]; props := {[ "input" := JStr "[[/save constructor]]" ]} |}
      (JStr "Label") no_options [] = (Return (Built (RollLink (JStr "Label") d)), [])
    /\ d !! "ability" = Some (JStr "constructor").
Proof. eexists. split; vm_compute; reflexivity. Qed.

(** [[[/check dex foo-bar]]]{Label}: the flag [foo-bar] is not a name the
    [dataset] takes. *)
Example refused_flag_throws :
  enrichCheck rules host
    {| values := Words ["dex"; "foo-bar"];
       props := {[ "input" := JStr "[[/check dex foo-bar]]" ]} |}
    (JStr "Label") no_options [] = (Throw DOMException, []).
Proof. vm_compute. reflexivity. Qed.

(** *** Damage *)

Lemma from_option_last_cons {A B} (f : A -> B) (d : B) (x : A) (l : list A) :
  from_option f (f x) (last l) = from_option f d (last (x :: l)).
Proof.
  destruct l as [|y l]; [reflexivity |].
  change (last (x :: y :: l)) with (last (y :: l)).
  destruct (last (y :: l)) eqn:E; [reflexivity |].
  apply last_None in E. discriminate.
Qed.

Lemma classifyDamageValue_eq (rs : Rules) (c : Config) (parts : list string) (v : string) :
  classifyDamageValue rs (c, parts) v =
    if has_key (damageTypes rs) v then (set "type" (JStr v) c, parts)
    else if String.eqb v "average" then (set "average" (JBool true) c, parts)
    else (c, (parts ++ [v])%list).
Proof. reflexivity. Qed.

Lemma set_values (k : string) (v : JsValue) (c : Config) :
  k <> "values" -> values (set k v c) = values c.
Proof.
  intros Hk. unfold set. destruct (String.eqb k "__proto__"); [reflexivity |].
  apply String.eqb_neq in Hk. rewrite Hk. reflexivity.
Qed.

Lemma fold_classifyDamage (rs : Rules) (vs : list string) :
  forall (c : Config) (parts : list string),
    let r := fold_left (classifyDamageValue rs) vs (c, parts) in
    r.2 = (parts ++ List.filter (is_formula_word rs) vs)%list
    /\ get r.1 "type" =
         from_option JStr (get c "type") (last (List.filter (has_key (damageTypes rs)) vs))
    /\ get r.1 "average" =
         (if existsb (fun v => negb (has_key (damageTypes rs) v) && String.eqb v "average") vs
          then JBool true else get c "average")
    /\ (forall k, k <> "type" -> k <> "average" -> props r.1 !! k = props c !! k)
    /\ values r.1 = values c.
Proof.
  induction vs as [|v vs IH]; intros c parts.
  - cbn. rewrite app_nil_r. repeat split.
  - cbn [fold_left]. rewrite classifyDamageValue_eq. unfold is_formula_word.
    cbn [List.filter existsb].
    destruct (has_key (damageTypes rs) v) eqn:Hdt; cbn [negb andb orb].
    + destruct (IH (set "type" (JStr v) c) parts) as (Hp & Hty & Hav & Hk & Hvs).
      cbv zeta in *. rewrite Hp, Hty, Hav, Hvs. split; [reflexivity |]. split; [| split; [| split]].
      * rewrite get_set_eq by discriminate. apply from_option_last_cons.
      * rewrite get_set_ne by discriminate. reflexivity.
      * intros k Ht Ha. rewrite Hk by assumption. apply set_lookup_ne. congruence.
      * apply set_values. discriminate.
    + destruct (String.eqb v "average") eqn:Hav0; cbn [negb].
      * destruct (IH (set "average" (JBool true) c) parts) as (Hp & Hty & Hav & Hk & Hvs).
        cbv zeta in *. rewrite Hp, Hty, Hav, Hvs. split; [reflexivity |].
        split; [| split; [| split]].
        -- rewrite get_set_ne by discriminate. reflexivity.
        -- rewrite get_set_eq by discriminate. destruct (existsb _ vs); reflexivity.
        -- intros k Ht Ha. rewrite Hk by assumption. apply set_lookup_ne. congruence.
        -- apply set_values. discriminate.
      * destruct (IH c (parts ++ [v])%list) as (Hp & Hty & Hav & Hk & Hvs).
        cbv zeta in *. rewrite Hp, Hty, Hav, Hvs, <- (assoc_L (++)).
        split; [reflexivity |]. split; [reflexivity |]. split; [reflexivity |].
        split; [exact Hk | reflexivity].
Qed.

(** X18. How [enrichDamage] sorts the bare words. When [config.values]
    cannot be iterated a [TypeError] is thrown. Otherwise the last word
    that is in the damage type table, own entry or inherited member,
    becomes the type (the [type] property stays when there is none), the
    word [average] turns the average on, and all other words, in their
    order and after an explicit [formula] property, are joined by single
    spaces into the formula that data replacement is applied to. No other
    property of the configuration changes. *)
Theorem damage_words_are_sorted (rs : Rules) (h : Host) (config : Config)
    (options : EnrichmentOptions) :
  match iterate (values config) with
  | Throw e => e = TypeError /\ damageFormula rs h config options = Throw TypeError
  | Return words =>
      let explicit :=
        if truthy (get config "formula") then [to_string h (get config "formula")] else [] in
      exists c,
        damageFormula rs h config options = Return c
        /\ get c "formula" =
             JStr (replaceFormulaData h
                     (String.concat " " (explicit ++ List.filter (is_formula_word rs) words))
                     (default ∅ (rollData options)))
        /\ get c "type" =
             from_option JStr (get config "type")
               (last (List.filter (has_key (damageTypes rs)) words))
        /\ get c "average" =
             (if existsb (fun v => negb (has_key (damageTypes rs) v) && String.eqb v "average")
                   words
              then JBool true else get config "average")
        /\ (forall k, k <> "type" -> k <> "average" -> k <> "formula" ->
            props c !! k = props config !! k)
        /\ values c = values config
  end.
Proof.
  unfold damageFormula.
  destruct (iterate (values config)) as [words | e] eqn:Hwords.
  2: { apply iterate_throws in Hwords as ->. split; reflexivity. }
  set (explicit := if truthy (get config "formula")
                  then [to_string h (get config "formula")] else []).
  cbn [mbind Completion_bind].
  destruct (fold_classifyDamage rs words config explicit) as (Hp & Hty & Hav & Hk & Hvs).
  cbv zeta in *.
  destruct (fold_left (classifyDamageValue rs) words (config, explicit)) as [c1 parts].
  cbn [fst snd] in *. subst parts.
  eexists. split; [reflexivity |].
  rewrite get_set_eq, !get_set_ne by discriminate.
  split; [reflexivity |]. split; [exact Hty |]. split; [exact Hav |]. split.
  - intros k Ht Ha Hf. rewrite set_lookup_ne by congruence. apply Hk; assumption.
  - rewrite set_values by discriminate. exact Hvs.
Qed.

(** [[[/damage 2d6 constructor]]]: the word names an inherited member of
    the damage type table and is taken for the type, not for a part of
    the formula. *)
Example inherited_member_counts_as_damage_type :
  exists c,
    damageFormula rules host {| values := Words ["2d6"; "constructor"]; props := ∅ |} no_options
      = Return c
    /\ get c "formula" = JStr "2d6"
    /\ get c "type" = JStr "constructor".
Proof. eexists. repeat split; vm_compute; reflexivity. Qed.

Lemma damageFormula_throws (rs : Rules) (h : Host) (config : Config)
    (options : EnrichmentOptions) (e : ErrorKind) :
  damageFormula rs h config options = Throw e -> e = TypeError.
Proof.
  unfold damageFormula. destruct (iterate (values config)) as [words | e'] eqn:Hwords.
  - cbn [mbind Completion_bind]. destruct (fold_left _ _ _). discriminate.
  - apply iterate_throws in Hwords as ->. intros [= <-]. reflexivity.
Qed.

(** X16. [enrichDamage] never warns. When [config.values] cannot be
    iterated it throws a [TypeError] before anything is logged. Otherwise
    it asks for the formula to be evaluated only when there is a formula,
    no label, the link and the localised type have been obtained without
    a throw, and [average] is exactly [true]: then it asks for the minimum
    of the final formula and, unless that evaluation throws, for the
    maximum. It hands back [null] exactly when the formula is empty after
    data replacement. *)
Theorem damage_evaluates_only_for_average_true (rs : Rules) (h : Host) (config : Config)
    (label : JsValue) (options : EnrichmentOptions) (t : list Effect) :
  match damageFormula rs h config options with
  | Throw e =>
      e = TypeError /\ enrichDamage rs h config label options t = (Throw TypeError, t)
  | Return c =>
      let formula := to_string h (get c "formula") in
      (enrichDamage rs h config label options t).2 =
        (t ++ (if truthy (get c "formula") && negb (truthy label)
               then
                 match createRollLink h (get c "formula") (props (damageConfig c)),
                       damageTypeLabel rs h (damageConfig c),
                       get c "average" with
                 | Return _, Return _, JBool true =>
                     FormulaEvaluated Minimize formula ::
                     match evaluate h Minimize formula with
                     | Return _ => [FormulaEvaluated Maximize formula]
                     | Throw _ => []
                     end
                 | _, _, _ => []
                 end
               else []))%list
      /\ ((enrichDamage rs h config label options t).1 = Return Null
          <-> truthy (get c "formula") = false)
  end.
Proof.
  destruct (damageFormula rs h config options) as [c | e] eqn:Hc.
  2: { apply damageFormula_throws in Hc as Hty. subst e. split; [reflexivity |].
       unfold enrichDamage, mbind, Fallible_bind, complete. rewrite Hc. reflexivity. }
  intros formula. rewrite (enrichDamage_cases rs h config label options t c Hc).
  cbv zeta. fold formula.
  destruct (truthy (get c "formula")) eqn:Hf; cbn [negb andb].
  2: { rewrite app_nil_r. split; [reflexivity | split; reflexivity]. }
  destruct (truthy label); cbn [negb].
  { rewrite app_nil_r. split; [reflexivity |].
    destruct (createRollLink h label _); split; discriminate. }
  destruct (createRollLink h (get c "formula") (props (damageConfig c))) as [link | e].
  2: { rewrite app_nil_r. split; [reflexivity | split; discriminate]. }
  destruct (damageTypeLabel rs h (damageConfig c)) as [typeLabel | e].
  2: { rewrite app_nil_r. split; [reflexivity | split; discriminate]. }
  destruct (get c "average") as [| |[|]|n|s].
  1-2, 4-6: rewrite app_nil_r; split; [reflexivity | split; discriminate].
  destruct (evaluate h Minimize formula) as [minRoll | e].
  2: { split; [reflexivity | split; discriminate]. }
  destruct (evaluate h Maximize formula) as [maxRoll | e];
    (split; [reflexivity | split; discriminate]).
Qed.



(** The attributes a damage link is asked to carry. *)
Lemma damage_link_attributes (c : Config) :
  truthy (get c "formula") = true ->
  attributes (props (damageConfig c)) !! "type" = Some (JStr "damage")
  /\ attributes (props (damageConfig c)) !! "formula" = Some (get c "formula")
  /\ attributes (props (damageConfig c)) !! "damageType"
     = (if truthy (get c "type") then Some (get c "type") else None).
Proof.
  intros Hf. split; [| split].
  - rewrite attribute_of_property by discriminate. unfold damageConfig.
    rewrite get_set_eq by discriminate. reflexivity.
  - rewrite attribute_of_property by discriminate.
    rewrite damageConfig_other by discriminate. rewrite Hf. reflexivity.
  - rewrite attribute_of_property by discriminate. unfold damageConfig.
    rewrite get_set_ne, get_set_eq by discriminate. reflexivity.
Qed.

(** A run of [enrichDamage] that builds a link: there was a label and a
    formula, and the link carries the attributes of the configuration. *)
Lemma built_damage_link (rs : Rules) (h : Host) (config : Config) (label : JsValue)
    (options : EnrichmentOptions) (t t' : list Effect) (l : JsValue)
    (d : gmap string JsValue) :
  enrichDamage rs h config label options t = (Return (Built (RollLink l d)), t') ->
  exists c,
    damageFormula rs h config options = Return c
    /\ truthy (get c "formula") = true
    /\ truthy label = true
    /\ l = label /\ d = attributes (props (damageConfig c)) /\ t' = t.
Proof.
  intros Hrun.
  destruct (damageFormula rs h config options) as [c | err] eqn:Hc.
  2: { unfold enrichDamage, mbind, Fallible_bind, complete in Hrun. rewrite Hc in Hrun.
       discriminate. }
  rewrite (enrichDamage_cases rs h config label options t c Hc) in Hrun.
  exists c. split; [reflexivity |].
  destruct (truthy (get c "formula")); [| discriminate]. cbn [negb] in Hrun.
  split; [reflexivity |].
  destruct (truthy label).
  - split; [reflexivity |].
    destruct (createRollLink_cases h label (props (damageConfig c))) as [[_ E] | [_ E]];
      rewrite E in Hrun; cbn in Hrun; [| discriminate].
    injection Hrun as <- <- <-. auto.
  - exfalso. revert Hrun. repeat case_match; discriminate.
Qed.

(** X19. With a label and a non-empty formula [enrichDamage] logs nothing
    and asks for a link with that label, of type "damage", carrying the
    formula and, as [damageType], the type the words were sorted into,
    besides the other truthy properties of the configuration. The link is
    built when the [dataset] takes all attribute names, and the enricher
    throws when it refuses one. *)
Theorem labelled_damage_link (rs : Rules) (h : Host) (config : Config)
    (label : JsValue) (options : EnrichmentOptions) (t : list Effect) (c : Config) :
  damageFormula rs h config options = Return c ->
  truthy (get c "formula") = true ->
  truthy label = true ->
  exists d : gmap string JsValue,
    attributes d !! "type" = Some (JStr "damage")
    /\ attributes d !! "formula" = Some (get c "formula")
    /\ attributes d !! "damageType" = (if truthy (get c "type") then Some (get c "type") else None)
    /\ (forall k, k <> "type" -> k <> "damageType" -> d !! k = props c !! k)
    /\ ((accepts h d
         /\ enrichDamage rs h config label options t =
              (Return (Built (RollLink label (attributes d))), t))
        \/ (refuses h d
            /\ enrichDamage rs h config label options t = (Throw DOMException, t))).
Proof.
  intros Hc Hf Hl. rewrite (enrichDamage_cases rs h config label options t c Hc).
  rewrite Hf, Hl. cbn [negb].
  destruct (damage_link_attributes c Hf) as (Hty & Hformula & Hdt).
  exists (props (damageConfig c)). split; [exact Hty |]. split; [exact Hformula |].
  split; [exact Hdt |]. split.
  - intros k Ht Hd. unfold damageConfig. rewrite !set_lookup_ne by congruence. reflexivity.
  - destruct (createRollLink_cases h label (props (damageConfig c)))
      as [[Hok ->] | [Hbad ->]]; [left | right]; split; auto.
Qed.

Lemma labelled_damage_link_witness :
  exists d : gmap string JsValue,
    attributes d !! "type" = Some (JStr "damage")
    /\ attributes d !! "formula" = Some (JStr "8d4dl")
    /\ attributes d !! "damageType" = Some (JStr "force")
    /\ enrichDamage rules host damage_fixed_average (JStr "Magic Missile") no_options [] =
         (Return (Built (RollLink (JStr "Magic Missile") (attributes d))), []).
Proof.
  destruct (labelled_damage_link rules host damage_fixed_average (JStr "Magic Missile")
              no_options [] _ eq_refl eq_refl eq_refl)
    as (d & Hty & Hf & Hdt & _ & [[_ Hrun] | [_ Hrun]]).
  - exists d. repeat split; [exact Hty | exact Hf | exact Hdt | exact Hrun].
  - vm_compute in Hrun. discriminate.
Defined.

(** [[[/damage 2d6 a-b=1]]]{Label}: the property [a-b] is not a name the
    [dataset] takes. *)
Example refused_property_throws :
  enrichDamage rules host
    {| values := Words ["2d6"]; props := {[ "a-b" := JNum (Finite 1) ]} |}
    (JStr "Label") no_options [] = (Throw DOMException, []).
Proof. vm_compute. reflexivity. Qed.

End EnricherOutcomes.

(* ===================================================================== *)
(** * Properties of the configuration parser *)
(* ===================================================================== *)

Module ParsingFacts.

Import Stdlib.Strings.Ascii.
Import Enrichers Parsing Examples EnricherOutcomes.

Lemma split_on_nonempty (sep : ascii) (s : string) : split_on sep s <> [].
Proof.
  destruct s as [|c rest]; cbn [split_on]; [discriminate |].
  destruct (Ascii.eqb c sep); [discriminate |].
  destruct (split_on sep rest); discriminate.
Qed.

Lemma split_on_app (sep : ascii) (a b : string) :
  split_on sep (a ++ String sep b) = (split_on sep a ++ split_on sep b)%list.
Proof.
  induction a as [|c a IH]; simpl.
  - rewrite Ascii.eqb_refl. reflexivity.
  - destruct (Ascii.eqb c sep); [rewrite IH; reflexivity |].
    rewrite IH. pose proof (split_on_nonempty sep a) as Hne.
    destruct (split_on sep a) as [|piece pieces]; [contradiction | reflexivity].
Qed.

(** A piece without a second piece is the whole string. *)
Lemma split_on_single (sep : ascii) (s : string) :
  split_on sep s !! 1%nat = None -> split_on sep s = [s].
Proof.
  induction s as [|c rest IH]; cbn [split_on]; [reflexivity |].
  destruct (Ascii.eqb c sep).
  - cbn. pose proof (split_on_nonempty sep rest) as Hne.
    destruct (split_on sep rest); [contradiction | discriminate].
  - pose proof (split_on_nonempty sep rest) as Hne.
    destruct (split_on sep rest) as [|piece pieces] eqn:E; [contradiction |].
    intros Hnone. injection (IH Hnone) as -> ->. reflexivity.
Qed.

Lemma bare_key (part : string) : value_of part = None -> key_of part = part.
Proof. intros H. unfold key_of. rewrite (split_on_single _ _ H). reflexivity. Qed.

Lemma parsePart_empty (h : Host) (c : Config) : parsePart h c "" = Return c.
Proof. reflexivity. Qed.

Lemma parseParts_app (h : Host) (l1 l2 : list string) :
  forall c : Config,
    parseParts h (l1 ++ l2) c =
      match parseParts h l1 c with
      | Return c' => parseParts h l2 c'
      | Throw e => Throw e
      end.
Proof.
  induction l1 as [|p l1 IH]; intros c; cbn; [reflexivity |].
  destruct (parsePart h c p); [apply IH | reflexivity].
Qed.

(** What one part does. *)
Lemma parsePart_cases (h : Host) (c : Config) (part : string) :
  (truthy (JStr part) = false /\ parsePart h c part = Return c)
  \/ (is_bare part = true /\ parsePart h c part = push part c)
  \/ (exists v, truthy (JStr part) = true /\ value_of part = Some v
                /\ parsePart h c part = Return (set (key_of part) (typedValue h v) c)).
Proof.
  unfold parsePart, is_bare. destruct (truthy (JStr part)); cbn [negb andb]; [| left; auto].
  destruct (value_of part) as [v|] eqn:Hv.
  - right; right. exists v. auto.
  - right; left. rewrite (bare_key part Hv), bool_decide_eq_true_2 by reflexivity. auto.
Qed.

Lemma set_lookup (key k : string) (v : JsValue) (c : Config) :
  props (set key v c) !! k =
    if String.eqb key "__proto__" || String.eqb key "values" then props c !! k
    else if String.eqb key k then Some v else props c !! k.
Proof.
  unfold set. destruct (String.eqb key "__proto__"); [reflexivity |].
  destruct (String.eqb key "values"); [reflexivity |]. cbn [orb props].
  destruct (String.eqb key k) eqn:E.
  - apply String.eqb_eq in E as ->. apply lookup_insert_eq.
  - apply String.eqb_neq in E. apply lookup_insert_ne. exact E.
Qed.

Lemma set_values_cases (key : string) (v : JsValue) (c : Config) :
  values (set key v c) = if String.eqb key "values" then Replaced v else values c.
Proof.
  unfold set. destruct (String.eqb key "__proto__") eqn:E.
  - apply String.eqb_eq in E as ->. reflexivity.
  - destruct (String.eqb key "values"); reflexivity.
Qed.

Lemma omap_cons {A B} (f : A -> option B) (x : A) (l : list A) :
  omap f (x :: l) = match f x with Some y => y :: omap f l | None => omap f l end.
Proof. reflexivity. Qed.

Lemma assigned_cases (k part : string) :
  assigned k part =
    if truthy (JStr part) && String.eqb (key_of part) k then value_of part else None.
Proof. reflexivity. Qed.

Lemma last_cons_cases {A} (x : A) (l : list A) :
  last (x :: l) = match last l with Some y => Some y | None => Some x end.
Proof.
  destruct l as [|y l]; [reflexivity |].
  change (last (x :: y :: l)) with (last (y :: l)).
  destruct (last (y :: l)) eqn:E; [reflexivity |].
  apply last_None in E. discriminate.
Qed.

Lemma parseParts_Return (h : Host) (parts : list string) :
  forall c c' : Config,
    parseParts h parts c = Return c' ->
    values c' = final_values h (values c) parts
    /\ props c' !! "__proto__" = props c !! "__proto__"
    /\ props c' !! "values" = props c !! "values"
    /\ (forall k, k <> "__proto__" -> k <> "values" ->
        props c' !! k =
          from_option (fun v => Some (typedValue h v)) (props c !! k)
            (last (omap (assigned k) parts))).
Proof.
  unfold final_values.
  induction parts as [|p parts IH]; intros c c' Hrun.
  - injection Hrun as <-. cbn. destruct (values c); rewrite ?app_nil_r; auto.
  - cbn [parseParts] in Hrun. cbn [List.filter].
    destruct (parsePart_cases h c p) as [[Ht Hp] | [[Hb Hp] | (v & Ht & Hv & Hp)]];
      rewrite Hp in Hrun.
    + destruct (IH _ _ Hrun) as (Hvals & Hproto & Hown & Hprops).
      assert (Hb : is_bare p = false) by (unfold is_bare; rewrite Ht; reflexivity).
      rewrite Hb, omap_cons, assigned_cases, Ht. cbn [andb].
      split; [exact Hvals |]. split; [exact Hproto |]. split; [exact Hown |].
      intros k Hk Hkv. rewrite omap_cons, assigned_cases, Ht. cbn [andb]. apply Hprops; assumption.
    + assert (Hnone : forall k, assigned k p = None).
      { intros k. rewrite assigned_cases.
        unfold is_bare in Hb. apply andb_true_iff in Hb as [_ Hb].
        apply bool_decide_eq_true in Hb. rewrite Hb. destruct (_ && _); reflexivity. }
      unfold push in Hrun. destruct (values c) as [words | x] eqn:Hc; [| discriminate].
      destruct (IH _ _ Hrun) as (Hvals & Hproto & Hown & Hprops). cbn [values props] in *.
      rewrite Hb, omap_cons, Hnone.
      split; [rewrite Hvals, <- (assoc_L (++)); reflexivity |].
      split; [exact Hproto |]. split; [exact Hown |].
      intros k Hk Hkv. rewrite omap_cons, Hnone. apply Hprops; assumption.
    + destruct (IH _ _ Hrun) as (Hvals & Hproto & Hown & Hprops).
      assert (Hb : is_bare p = false).
      { unfold is_bare. rewrite Ht, Hv. reflexivity. }
      rewrite Hb, omap_cons, assigned_cases, Ht, Hv. cbn [andb].
      split; [| split; [| split]].
      * rewrite Hvals, set_values_cases.
        destruct (String.eqb (key_of p) "values"); [| reflexivity].
        rewrite last_cons_cases. destruct (last _); reflexivity.
      * rewrite Hproto, set_lookup.
        destruct (String.eqb (key_of p) "__proto__") eqn:E; [reflexivity |].
        destruct (String.eqb (key_of p) "values"); reflexivity.
      * rewrite Hown, set_lookup.
        destruct (String.eqb (key_of p) "__proto__"); [reflexivity |].
        destruct (String.eqb (key_of p) "values"); reflexivity.
      * intros k Hk Hkv.
        rewrite (Hprops k Hk Hkv), set_lookup, omap_cons, assigned_cases, Ht, Hv.
        cbn [andb].
        destruct (String.eqb (key_of p) k) eqn:Ek.
        -- apply String.eqb_eq in Ek. rewrite Ek.
           apply String.eqb_neq in Hk, Hkv. rewrite Hk, Hkv. cbn [orb].
           apply (from_option_last_cons (fun v => Some (typedValue h v))).
        -- destruct (String.eqb (key_of p) "__proto__" || String.eqb (key_of p) "values");
             reflexivity.
Qed.

Lemma set_keeps_replaced (key : string) (v : JsValue) (c : Config) :
  replaced (values (set key v c)) = replaced (values c) || String.eqb key "values".
Proof.
  rewrite set_values_cases. destruct (String.eqb key "values").
  - rewrite orb_true_r. reflexivity.
  - rewrite orb_false_r. reflexivity.
Qed.

Lemma assigned_values (part : string) :
  is_Some (assigned "values" part) <->
  truthy (JStr part) = true /\ key_of part = "values" /\ is_Some (value_of part).
Proof.
  rewrite assigned_cases. destruct (truthy (JStr part)); cbn [andb].
  - destruct (String.eqb (key_of part) "values") eqn:E.
    + apply String.eqb_eq in E. split; [auto | intros (_ & _ & H); exact H].
    + apply String.eqb_neq in E. split; [intros [? [=]] | intros (_ & H & _); contradiction].
  - split; [intros [? [=]] | intros ([=] & _)].
Qed.

Lemma parseParts_overwritten (h : Host) (parts : list string) :
  forall (c : Config) (w : string),
    replaced (values c) = true -> w ∈ parts -> is_bare w = true ->
    parseParts h parts c = Throw TypeError.
Proof.
  induction parts as [|p parts IH]; intros c w Hc Hw Hb; [inversion Hw |].
  cbn [parseParts].
  destruct (parsePart_cases h c p) as [[Ht Hp] | [[Hbp Hp] | (v & Ht & Hv & Hp)]]; rewrite Hp.
  - apply elem_of_cons in Hw as [-> | Hw]; [| exact (IH c w Hc Hw Hb)].
    unfold is_bare in Hb. rewrite Ht in Hb. discriminate.
  - unfold push. destruct (values c); [discriminate | reflexivity].
  - apply elem_of_cons in Hw as [-> | Hw].
    + unfold is_bare in Hb. rewrite Hv, andb_false_r in Hb. discriminate.
    + apply (IH _ w); [| exact Hw | exact Hb]. rewrite set_keeps_replaced, Hc. reflexivity.
Qed.

Lemma overwrites_later (p : string) (parts : list string) :
  overwrites_then_pushes parts -> overwrites_then_pushes (p :: parts).
Proof.
  intros (l1 & q & l2 & w & -> & Hq & Hw & Hb). exists (p :: l1), q, l2, w. auto.
Qed.

Lemma parseParts_Throw (h : Host) (parts : list string) :
  forall (c : Config) (e : ErrorKind),
    parseParts h parts c = Throw e ->
    e = TypeError
    /\ ((replaced (values c) = true /\ exists w, w ∈ parts /\ is_bare w = true)
        \/ overwrites_then_pushes parts).
Proof.
  induction parts as [|p parts IH]; intros c e Hrun; [discriminate |].
  cbn [parseParts] in Hrun.
  destruct (parsePart_cases h c p) as [[Ht Hp] | [[Hbp Hp] | (v & Ht & Hv & Hp)]];
    rewrite Hp in Hrun.
  - destruct (IH _ _ Hrun) as [-> [(Hc & w & Hw & Hb) | Hlater]]; split; try reflexivity.
    + left. split; [exact Hc |]. exists w. split; [right; exact Hw | exact Hb].
    + right. apply overwrites_later, Hlater.
  - unfold push in Hrun. destruct (values c) as [words | x] eqn:Hc.
    + destruct (IH _ _ Hrun) as [-> [(Hc' & _) | Hlater]]; split; try reflexivity.
      * cbn [values replaced] in Hc'. discriminate.
      * right. apply overwrites_later, Hlater.
    + injection Hrun as <-. split; [reflexivity |]. left. split; [reflexivity |].
      exists p. split; [left | exact Hbp].
  - destruct (IH _ _ Hrun) as [-> [(Hc & w & Hw & Hb) | Hlater]]; split; try reflexivity.
    + rewrite set_keeps_replaced in Hc. apply orb_true_iff in Hc as [Hc | Hkey].
      * left. split; [exact Hc |]. exists w. split; [right; exact Hw | exact Hb].
      * right. exists [], p, parts, w. repeat split; [| exact Hw | exact Hb].
        apply assigned_values. apply String.eqb_eq in Hkey. rewrite Hv. eauto.
    + right. apply overwrites_later, Hlater.
Qed.

Lemma overwrites_then_throws (h : Host) (parts : list string) (c : Config) :
  overwrites_then_pushes parts -> exists e, parseParts h parts c = Throw e.
Proof.
  intros (l1 & p & l2 & w & -> & Hp & Hw & Hb). rewrite parseParts_app.
  destruct (parseParts h l1 c) as [c1|e]; [| eauto].
  apply assigned_values in Hp as (Ht & Hkey & v & Hv).
  cbn [parseParts]. unfold parsePart. rewrite Ht, Hv, Hkey. cbn [negb].
  exists TypeError. apply (parseParts_overwritten h l2 _ w); [| exact Hw | exact Hb].
  rewrite set_keeps_replaced. apply orb_true_r.
Qed.

(** X20. What [parseConfig] leaves in [config.values]. As long as no part
    assigns to the key [values], it is the array of the bare words (the
    non-empty parts without an equals sign) in their order. A part
    [values=...] puts its typed value in place of the array: the bare
    words before it are lost, a bare word after it makes the parser throw
    a [TypeError], and without one the configuration comes back holding
    the value of the last such part. The parser throws in no other case. *)
Theorem parse_collects_bare_words (h : Host) (text : string) :
  match parseConfig h text with
  | Return config =>
      values config =
        match last (omap (assigned "values") (split_on " " text)) with
        | Some v => Replaced (typedValue h v)
        | None => Words (List.filter is_bare (split_on " " text))
        end
      /\ ~ overwrites_then_pushes (split_on " " text)
  | Throw e => e = TypeError /\ overwrites_then_pushes (split_on " " text)
  end.
Proof.
  unfold parseConfig. set (empty := {| values := Words []; props := ∅ |}).
  destruct (parseParts h (split_on " " text) empty) as [c|e] eqn:Hrun.
  - split; [apply (parseParts_Return h _ _ _ Hrun) |].
    intros Hthrows. destruct (overwrites_then_throws h _ empty Hthrows) as [e He]. congruence.
  - destruct (parseParts_Throw h _ _ _ Hrun) as [-> [(Hc & _) | Hthrows]]; [discriminate |].
    split; [reflexivity | exact Hthrows].
Qed.

(** [foo values=3] comes back without the word [foo]: [values] holds the
    number 3. *)
Example assignment_replaces_the_words :
  parseConfig host "foo values=3" = Return {| values := Replaced (JNum (Finite 3)); props := ∅ |}.
Proof. vm_compute. reflexivity. Qed.



(** X22. Spaces only separate: a run of two spaces reads as one space, and
    a space at the start or at the end of the text changes nothing. *)
Theorem spaces_only_separate (h : Host) (a b : string) :
  parseConfig h (a ++ "  " ++ b) = parseConfig h (a ++ " " ++ b)
  /\ parseConfig h (" " ++ a) = parseConfig h a
  /\ parseConfig h (a ++ " ") = parseConfig h a.
Proof.
  unfold parseConfig. set (empty := {| values := Words []; props := ∅ |}).
  change (a ++ "  " ++ b) with (a ++ String " " (String " " b)).
  change (a ++ " " ++ b) with (a ++ String " " b).
  change (" " ++ a) with ("" ++ String " " a).
  change (a ++ " ") with (a ++ String " " "").
  rewrite !split_on_app, !parseParts_app.
  split; [| split].
  - change (split_on " " (String " " b)) with ("" :: split_on " " b).
    destruct (parseParts h (split_on " " a) empty); reflexivity.
  - reflexivity.
  - destruct (parseParts h (split_on " " a) empty); reflexivity.
Qed.

End ParsingFacts.

(* ===================================================================== *)
(** * Properties of a click on a damage link *)
(* ===================================================================== *)

Module RollLinkFacts.

Import Dice Enrichers RollLinks Examples Scenarios DiceFacts DiceWorkflowFacts EnricherOutcomes.




(** X24. A labelled damage link carries its formula through the data
    attributes: the roll configuration that a click builds from the link
    that [enrichDamage] built has the enriched formula as its only part, so
    the roll is constructed with exactly that formula, and its flavor names
    the damage type the words were sorted into (the type's label when it is
    an entry of the damage type table). When that type names an inherited
    member of the table on which the localisation throws, building the
    roll configuration throws. *)
Theorem clicked_link_rolls_its_formula (rs : Rules) (h : Host) (config : Config)
    (label : JsValue) (options : EnrichmentOptions) (t t' : list Enrichers.Effect)
    (l : JsValue) (d : gmap string JsValue)
    (game : Game) (lh : LinkHost) (event : Event) (speaker : JsValue) :
  enrichDamage rs h config label options t = (Return (Built (RollLink l d)), t') ->
  exists c,
    damageFormula rs h config options = Return c
    /\ match damageTypeText lh
               (if truthy (get c "type") then Some (to_string h (get c "type")) else None) with
       | Return text =>
           exists clicked,
             rollConfig lh event speaker (to_string h <$> d) = Return clicked
             /\ dmg_parts clicked = [to_string h (get c "formula")]
             /\ dr_formula (dmg_construct game clicked) = to_string h (get c "formula")
             /\ dmg_flavor clicked =
                  JStr (localize lh (JStr "DND5E.DamageRoll") ++ " (" ++ text ++ ")")
       | Throw e => rollConfig lh event speaker (to_string h <$> d) = Throw e
       end.
Proof.
  intros Hrun.
  destruct (built_damage_link rs h config label options t t' l d Hrun)
    as (c & Hc & Hf & _ & _ & -> & _).
  exists c. split; [exact Hc |].
  destruct (damage_link_attributes c Hf) as (_ & Hformula & Htype).
  unfold rollConfig. rewrite !lookup_fmap, Hformula, Htype.
  assert (Hkey : to_string h <$> (if truthy (get c "type") then Some (get c "type") else None)
                 = (if truthy (get c "type") then Some (to_string h (get c "type")) else None)).
  { destruct (truthy (get c "type")); reflexivity. }
  rewrite Hkey.
  destruct (damageTypeText lh _) as [text | e]; [| reflexivity].
  eexists. split; [reflexivity |]. cbn [dmg_parts dmg_flavor]. split; [reflexivity |].
  split; reflexivity.
Qed.

Lemma clicked_link_rolls_its_formula_witness :
  let d : gmap string JsValue :=
    {[ "average" := JNum (Finite 666); "formula" := JStr "8d4dl";
       "damageType" := JStr "force"; "type" := JStr "damage" ]} in
  exists clicked,
    rollConfig link_host click_plain JNull (to_string host <$> d) = Return clicked
    /\ dmg_parts clicked = ["8d4dl"]
    /\ dr_formula (dmg_construct game_idle clicked) = "8d4dl"
    /\ dmg_flavor clicked = JStr "DND5E.DamageRoll (DND5E.DamageForce)".
Proof.
  intros d.
  destruct (clicked_link_rolls_its_formula rules host damage_fixed_average
              (JStr "Magic Missile") no_options [] [] (JStr "Magic Missile") d game_idle
              link_host click_plain JNull ltac:(vm_compute; reflexivity))
    as (c & Hc & Hclicked).
  injection Hc as <-. exact Hclicked.
Defined.

End RollLinkFacts.

(* ===================================================================== *)
(** * Properties of the group actor sheet *)
(* ===================================================================== *)

Module GroupSheetFacts.

Import Enrichers GroupSheet Examples.

(** *** Movement *)









(** *** Inventory *)







End GroupSheetFacts.

(* ===================================================================== *)
(** * Properties of the stored advancement data *)
(* ===================================================================== *)

Module AdvancementSourceFacts.

Import Advancement AdvancementSource Examples.

Lemma findIndex_Some {A} (p : A -> bool) (l : list A) (i : nat) :
  findIndex p l = Some i ->
  exists a, l !! i = Some a /\ p a = true
            /\ forall j b, (j < i)%nat -> l !! j = Some b -> p b = false.
Proof.
  revert i. induction l as [|x l IH]; intros i; cbn [findIndex]; [discriminate |].
  destruct (p x) eqn:Hx.
  - intros [= <-]. exists x. repeat split; [exact Hx |]. intros j b Hj. inversion Hj.
  - destruct (findIndex p l) as [i'|]; [| discriminate]. intros [= <-].
    destruct (IH i' eq_refl) as (a & Ha & Hp & Hbefore).
    exists a. repeat split; [exact Ha | exact Hp |].
    intros [|j] b Hj Hb; [injection Hb as <-; exact Hx |].
    apply (Hbefore j b); [apply Nat.succ_lt_mono, Hj | exact Hb].
Qed.

Lemma findIndex_None {A} (p : A -> bool) (l : list A) :
  findIndex p l = None -> Forall (fun a => p a = false) l.
Proof.
  induction l as [|x l IH]; cbn [findIndex]; [constructor |].
  destruct (p x) eqn:Hx; [discriminate |].
  destruct (findIndex p l); [discriminate |]. intros _. constructor; auto.
Qed.

(** X27. [updateSource] throws exactly when no stored advancement has the
    identifier of this one (compared with [===], so an identifier that is
    [NaN] is never found). Otherwise the update is merged into the data of
    this advancement and into the first stored entry with that identifier,
    and every other stored entry, a later one with the same identifier
    included, stays as it is. *)
Theorem update_source_changes_one_entry {Updates : Type}
    (merge : AdvancementData -> Updates -> AdvancementData) (idText : JsValue -> string)
    (adv : Advancement) (stored : list AdvancementData) (updates : Updates) :
  match updateSource merge idText adv stored updates with
  | Throw e =>
      e = Error ("Advancement of ID " ++ idText (id adv) ++ " could not be found to update")
      /\ Forall (fun a => strict_eq (_id a) (id adv) = false) stored
  | Return (adv', stored') =>
      parent adv' = parent adv
      /\ data adv' = merge (data adv) updates
      /\ length stored' = length stored
      /\ exists i a,
           stored !! i = Some a
           /\ strict_eq (_id a) (id adv) = true
           /\ (forall j b, (j < i)%nat -> stored !! j = Some b ->
               strict_eq (_id b) (id adv) = false)
           /\ stored' !! i = Some (merge a updates)
           /\ forall j, j <> i -> stored' !! j = stored !! j
  end.
Proof.
  unfold updateSource.
  destruct (findIndex _ stored) as [i|] eqn:Hfind.
  - destruct (findIndex_Some _ _ _ Hfind) as (a & Ha & Hid & Hbefore).
    repeat split; [apply length_alter |].
    exists i, a. repeat split; [exact Ha | exact Hid | exact Hbefore | |].
    + rewrite list_lookup_alter_eq, Ha. reflexivity.
    + intros j Hj. apply list_lookup_alter_ne. congruence.
  - split; [reflexivity | apply (findIndex_None _ _ Hfind)].
Qed.

End AdvancementSourceFacts.

